(** * MotoGP-API: the lookup helpers and the request pipeline

    A shallow embedding of [src/types/results.ts] (the helper functions
    [getCategoryId], [formatLapTime], [msToTimeString], [parseTimeToMs]) and
    of [src/client/MotoGPClient.ts] (the constructor and [makeRequest]).

    Conventions of the model.
    - A JavaScript number that the helpers handle is an integer.  [Helpers]
      computes on it as a [Z], exactly.  [Double] computes the two time
      helpers as the program does, on IEEE 754 binary64 values, with every
      quotient, product and sum rounded and numbers written as
      [Number::toString] writes them.  The two agree as long as every
      value stays within [-(2^53-1), 2^53-1] ([msToTimeString_safe],
      [parseTimeToMs_exact]); what depends on the size of a number is
      stated about [Double].  [NaN] is [None] in an [option Z].
    - A JavaScript string is a [string]; each [ascii] is one UTF-16 code
      unit in the range U+0000..U+00FF.  Strings with code units above
      U+00FF are outside the model.
    - [Math.floor (a / b)] for [b > 0] is [a / b] on [Z] (floor division)
      and [a % b] is [Z.rem a b] (the sign follows the dividend). *)

From Stdlib Require Import ZArith List String Ascii Bool Lia.
Import ListNotations.

#[local] Open Scope string_scope.
#[local] Open Scope Z_scope.

(** ** The JavaScript built-ins the source calls *)

Module JS.

(** *** Characters *)

Definition code (c : ascii) : Z := Z.of_N (N_of_ascii c).

(** A decimal digit, [0-9]. *)
Definition isDigit (c : ascii) : bool :=
  (48 <=? code c) && (code c <=? 57).

(** [A-Z]. *)
Definition isUpper (c : ascii) : bool :=
  (65 <=? code c) && (code c <=? 90).

(** The class [[A-Z0-9]] of the regular expression in [getCategoryId]. *)
Definition isUpperOrDigit (c : ascii) : bool := isUpper c || isDigit c.

(** [StrWhiteSpaceChar] restricted to U+0000..U+00FF: TAB, LF, VT, FF, CR,
    SPACE and NO-BREAK SPACE. *)
Definition isWhiteSpace (c : ascii) : bool :=
  ((9 <=? code c) && (code c <=? 13)) || (code c =? 32) || (code c =? 160).

Definition digitChar (d : Z) : ascii := ascii_of_N (Z.to_N (48 + d)).

Definition digitValue (c : ascii) : Z := code c - 48.

(** *** Strings *)

Fixpoint forallb (p : ascii -> bool) (s : string) : bool :=
  match s with
  | EmptyString => true
  | String c r => p c && forallb p r
  end.

Definition isEmpty (s : string) : bool :=
  match s with EmptyString => true | String _ _ => false end.

(** [s.replace(/[a]/g, b)] for a one-character class and a one-character
    replacement. *)
Fixpoint replaceAll (a b : ascii) (s : string) : string :=
  match s with
  | EmptyString => EmptyString
  | String c r => String (if Ascii.eqb c a then b else c) (replaceAll a b r)
  end.

(** [s.replace(/[^...]/g, '')]: the characters of the class [keep] stay,
    all others are deleted. *)
Fixpoint removeOutside (keep : ascii -> bool) (s : string) : string :=
  match s with
  | EmptyString => EmptyString
  | String c r =>
      if keep c then String c (removeOutside keep r) else removeOutside keep r
  end.

(** [s.split(sep)] for a one-character separator: never an empty array, the
    empty string splits into one empty part. *)
Fixpoint split (sep : ascii) (s : string) : list string :=
  match s with
  | EmptyString => [EmptyString]
  | String c r =>
      if Ascii.eqb c sep then EmptyString :: split sep r
      else match split sep r with
           | p :: ps => String c p :: ps
           | [] => [String c EmptyString]
           end
  end.

(** The filler of [padStart] and [padEnd]: [n] characters taken from [pad]
    over and over; [cur] is what is left of the current copy. *)
Fixpoint filler (pad cur : string) (n : nat) : string :=
  match n with
  | O => EmptyString
  | S n' =>
      match cur with
      | String c r => String c (filler pad r n')
      | EmptyString =>
          match pad with
          | String c r => String c (filler pad r n')
          | EmptyString => EmptyString
          end
      end
  end.

Definition padStart (targetLength : nat) (padString s : string) : string :=
  filler padString padString (targetLength - String.length s) ++ s.

Definition padEnd (targetLength : nat) (padString s : string) : string :=
  s ++ filler padString padString (targetLength - String.length s).

(** *** Numbers to strings *)

(** The decimal digits of [n >= 0], most significant first, in front of
    [acc]. *)
Fixpoint decimalDigits (fuel : nat) (n : Z) (acc : string) : string :=
  match fuel with
  | O => acc
  | S fuel' =>
      let acc' := String (digitChar (n mod 10)) acc in
      if n <? 10 then acc' else decimalDigits fuel' (n / 10) acc'
  end.

Definition decimal (n : Z) : string :=
  decimalDigits (S (Z.to_nat (Z.log2 n))) n EmptyString.

(** [n.toString()], also the conversion of a template literal [`${n}`] and
    of [String(n)], for an integer [n] within the safe integers: all its
    digits.  [Double.toString] covers the integers beyond. *)
Definition toString (n : Z) : string :=
  if n <? 0 then String "-" (decimal (- n)) else decimal n.

(** *** Strings to numbers *)

Fixpoint trimStart (s : string) : string :=
  match s with
  | EmptyString => EmptyString
  | String c r => if isWhiteSpace c then trimStart r else s
  end.

Fixpoint takeDigits (s : string) : string :=
  match s with
  | EmptyString => EmptyString
  | String c r => if isDigit c then String c (takeDigits r) else EmptyString
  end.

(** The value of a digit string read from the left, starting from [acc]. *)
Fixpoint digitsValueFrom (acc : Z) (s : string) : Z :=
  match s with
  | EmptyString => acc
  | String c r => digitsValueFrom (acc * 10 + digitValue c) r
  end.

Definition digitsValue (s : string) : Z := digitsValueFrom 0 s.

(** [parseInt(s, 10)]: leading white space is skipped, one sign is read,
    then the longest run of decimal digits; what follows is ignored.  No
    digit at all gives [NaN].  The result is the exact integer;
    [Double.parseInt] rounds it to a double. *)
Definition parseInt (s : string) : option Z :=
  let t := trimStart s in
  let '(sign, u) :=
    match t with
    | String c r =>
        if Ascii.eqb c "-" then (-1, r)
        else if Ascii.eqb c "+" then (1, r)
        else (1, t)
    | EmptyString => (1, t)
    end in
  let z := takeDigits u in
  if isEmpty z then None else Some (sign * digitsValue z).

(** [s.toUpperCase()], one code unit at a time.  Within U+0000..U+00FF:
    [a-z] and the accented small letters U+00E0..U+00FE (but not the
    division sign U+00F7) move down by 32, the sharp s U+00DF becomes the
    two letters [SS].  The capitals of U+00B5 and U+00FF lie above U+00FF;
    these two stay as they are here, which like their capitals are outside
    [[A-Z0-9]]. *)
Definition upperOf (c : ascii) : string :=
  let n := code c in
  if ((97 <=? n) && (n <=? 122))
     || ((224 <=? n) && (n <=? 254) && negb (n =? 247))
  then String (ascii_of_N (Z.to_N (n - 32))) EmptyString
  else if n =? 223 then "SS"
  else String c EmptyString.

Fixpoint toUpperCase (s : string) : string :=
  match s with
  | EmptyString => EmptyString
  | String c r => upperOf c ++ toUpperCase r
  end.

(** [s.toLowerCase()], one code unit at a time.  Within U+0000..U+00FF:
    [A-Z] and the accented capitals U+00C0..U+00DE (but not the
    multiplication sign U+00D7) move up by 32; nothing else changes. *)
Definition lowerOf (c : ascii) : ascii :=
  let n := code c in
  if ((65 <=? n) && (n <=? 90))
     || ((192 <=? n) && (n <=? 222) && negb (n =? 215))
  then ascii_of_N (Z.to_N (n + 32))
  else c.

Fixpoint toLowerCase (s : string) : string :=
  match s with
  | EmptyString => EmptyString
  | String c r => String (lowerOf c) (toLowerCase r)
  end.

(** [s.startsWith(p)]. *)
Fixpoint startsWith (p s : string) : bool :=
  match p with
  | EmptyString => true
  | String a p' =>
      match s with
      | String b s' => Ascii.eqb a b && startsWith p' s'
      | EmptyString => false
      end
  end.

(** [s.includes(searchString)]: [searchString] occurs somewhere in [s]. *)
Fixpoint includes (searchString s : string) : bool :=
  startsWith searchString s
  || match s with
     | EmptyString => false
     | String _ r => includes searchString r
     end.

End JS.

(** ** [src/types/results.ts]: the lookup helpers *)

Module Helpers.

Module CATEGORY_IDS.
Definition MOTOGP : string := "737ab122-76e1-4081-bedb-334caaa18c70".
Definition MOTO2 : string := "ea854a67-73a4-4a28-ac77-d67b3b2a530a".
Definition MOTO3 : string := "1ab203aa-e292-4842-8bed-971911357af1".
Definition MOTOE : string := "cf196668-f900-4116-af79-810b91828a37".
End CATEGORY_IDS.

(** The normalisation of [getCategoryId]:
    [categoryName.toUpperCase().replace(/[^A-Z0-9]/g, '')]. *)
Definition normalizedName (categoryName : string) : string :=
  JS.removeOutside JS.isUpperOrDigit (JS.toUpperCase categoryName).

(** [undefined] is [None]. *)
Definition getCategoryId (categoryName : string) : option string :=
  let normalizedName := normalizedName categoryName in
  if String.eqb normalizedName "MOTOGP" then Some CATEGORY_IDS.MOTOGP
  else if String.eqb normalizedName "MOTO2" then Some CATEGORY_IDS.MOTO2
  else if String.eqb normalizedName "MOTO3" then Some CATEGORY_IDS.MOTO3
  else if String.eqb normalizedName "MOTOE" then Some CATEGORY_IDS.MOTOE
  else None.

Definition formatLapTime (timeString : string) : string :=
  JS.replaceAll "'" ":" timeString.

(** On exact integers; [Double.msToTimeString] rounds as the program
    does. *)
Definition msToTimeString (ms : Z) : string :=
  let minutes := ms / 60000 in
  let seconds := Z.rem ms 60000 / 1000 in
  let milliseconds := Z.rem ms 1000 in
  JS.toString minutes ++ ":" ++ JS.padStart 2 "0" (JS.toString seconds)
    ++ "." ++ JS.padStart 3 "0" (JS.toString milliseconds).

(** The three numbers [parseTimeToMs] reads, each possibly [NaN]. *)
Definition timeFields (parts0 parts1 : string)
  : option Z * option Z * option Z :=
  let minutes := JS.parseInt parts0 in
  match JS.split "." parts1 with
  | secondsParts0 :: rest =>
      let seconds := JS.parseInt secondsParts0 in
      let milliseconds :=
        match rest with
        | secondsParts1 :: _ =>
            if JS.isEmpty secondsParts1 then Some 0
            else JS.parseInt (JS.padEnd 3 "0" secondsParts1)
        | [] => Some 0
        end in
      (minutes, seconds, milliseconds)
  | [] => (minutes, None, Some 0)
  end.

(** On exact integers; [Double.parseTimeToMs] rounds as the program
    does. *)
Definition parseTimeToMs (timeString : string) : Z :=
  let cleanTime := JS.replaceAll "'" ":" timeString in
  match JS.split ":" cleanTime with
  | [parts0; parts1] =>
      match timeFields parts0 parts1 with
      | (Some minutes, Some seconds, Some milliseconds) =>
          (minutes * 60 * 1000) + (seconds * 1000) + milliseconds
      | _ => 0
      end
  | _ => 0
  end.

(** The [Category] of [types/common]; an optional field that is absent is
    [None]. *)
Record Category : Type := mkCategory {
  id : string;
  name : string;
  legacy_id : Z;
  acronym : option string;
  active : option bool;
  timing_id : option Z;
  priority : option Z
}.

(** The callback of [find]: the lower-cased name, or the lower-cased
    acronym when there is one, includes the lower-cased search string. *)
Definition categoryMatches (normalizedName : string) (cat : Category) : bool :=
  JS.includes normalizedName (JS.toLowerCase (name cat))
  || match acronym cat with
     | Some a => JS.includes normalizedName (JS.toLowerCase a)
     | None => false
     end.

Definition findCategoryByName (categories : list Category) (name : string)
  : option Category :=
  let normalizedName := JS.toLowerCase name in
  find (categoryMatches normalizedName) categories.

(** [new Date().getFullYear()]; [clockYear] is the year the system clock
    shows when the call is made. *)
Definition getCurrentYear (clockYear : Z) : Z := clockYear.

Definition isValidSeasonYear (clockYear : Z) (year : Z) : bool :=
  let currentYear := getCurrentYear clockYear in
  (2000 <=? year) && (year <=? currentYear + 1).

End Helpers.

(** ** Numbers as the program computes them

    A JavaScript number is an IEEE 754 binary64 value.  The time helpers
    meet integers, the two infinities and [NaN]; the one fraction they
    compute, [ms / 60000] or [(ms % 60000) / 1000], goes straight into
    [Math.floor], and quotient and floor are modelled together.  The two
    zeros are one value here: they are equal under [===] and are written
    the same.  [Helpers.msToTimeString] and [Helpers.parseTimeToMs] above
    compute on exact integers; [msToTimeString] and [parseTimeToMs] of this
    module round as the program does, and agree with them as long as the
    numbers stay within [MAX_SAFE_INTEGER]. *)

Module Double.

Inductive number : Type :=
| Int (z : Z)
| Infinity (negative : bool)
| NaN.

(** [Number.MAX_SAFE_INTEGER]. *)
Definition MAX_SAFE_INTEGER : Z := 2 ^ 53 - 1.

(** The integer nearest to [n / d] for [0 <= n] and [0 < d], the even one
    of two that are equally near. *)
Definition nearestEven (n d : Z) : Z :=
  let q := n / d in
  let r := n mod d in
  if 2 * r <? d then q
  else if d <? 2 * r then q + 1
  else if Z.even q then q else q + 1.

(** The double nearest to the integer [z]: 53 significant bits, ties to
    even, an infinity from [2^1024 - 2^970] on.  This is the value of a
    sum or a product of integers whose exact result is [z]. *)
Definition roundInt (z : Z) : number :=
  let a := Z.abs z in
  if a <? 2 ^ 53 then Int z
  else
    let e := Z.log2 a - 52 in
    let v := nearestEven a (2 ^ e) * 2 ^ e in
    if 2 ^ 1024 <=? v then Infinity (z <? 0) else Int (Z.sgn z * v).

(** [2^k <= n / d], for [0 < n] and [0 < d]. *)
Definition atLeastPow2 (n d k : Z) : bool :=
  if 0 <=? k then d * 2 ^ k <=? n else d <=? n * 2 ^ (- k).

(** The binary exponent of [n / d]: the [k] with [2^k <= n / d < 2^(k+1)]. *)
Definition log2Quotient (n d : Z) : Z :=
  let k := Z.log2 n - Z.log2 d in
  if atLeastPow2 n d k then k else k - 1.

(** The double [n / d] for integers [0 < n] and [0 < d], as significand
    and exponent: its value is [m * 2^e]. *)
Definition roundQuotient (n d : Z) : Z * Z :=
  let e := Z.max (log2Quotient n d - 52) (-1074) in
  let m :=
    if 0 <=? e then nearestEven n (d * 2 ^ e)
    else nearestEven (n * 2 ^ (- e)) d in
  (m, e).

(** [Math.floor(n / d)] for integers [n] and [0 < d]: the quotient is
    rounded to a double first, then rounded down to an integer. *)
Definition floorQuotient (n d : Z) : Z :=
  if n =? 0 then 0
  else if 0 <? n then
    let '(m, e) := roundQuotient n d in
    if 0 <=? e then m * 2 ^ e else m / 2 ^ (- e)
  else
    let '(m, e) := roundQuotient (- n) d in
    if 0 <=? e then - (m * 2 ^ e) else (- m) / 2 ^ (- e).

(** [Math.floor(a / d)] for a constant [0 < d]. *)
Definition floorDiv (a : number) (d : Z) : number :=
  match a with
  | Int z => Int (floorQuotient z d)
  | Infinity negative => Infinity negative
  | NaN => NaN
  end.

(** [a % d] for a constant [0 < d]: exact, the sign follows [a]. *)
Definition rem (a : number) (d : Z) : number :=
  match a with
  | Int z => Int (Z.rem z d)
  | _ => NaN
  end.

(** [a * b]. *)
Definition mul (a b : number) : number :=
  match a, b with
  | Int x, Int y => roundInt (x * y)
  | Infinity s, Int y | Int y, Infinity s =>
      if y =? 0 then NaN else Infinity (xorb s (y <? 0))
  | Infinity s, Infinity t => Infinity (xorb s t)
  | _, _ => NaN
  end.

(** [a + b]. *)
Definition add (a b : number) : number :=
  match a, b with
  | Int x, Int y => roundInt (x + y)
  | Infinity s, Int _ | Int _, Infinity s => Infinity s
  | Infinity s, Infinity t => if Bool.eqb s t then Infinity s else NaN
  | _, _ => NaN
  end.

Definition isNaN (a : number) : bool :=
  match a with NaN => true | _ => false end.

(** *** Numbers to strings *)

(** The integer [v] is read as the double [z]. *)
Definition roundsTo (v z : Z) : bool :=
  match roundInt v with
  | Int z' => z' =? z
  | _ => false
  end.

(** [Number::toString] picks the decimal with the fewest significant
    digits that is read back as the same double and, among those, the one
    nearest to it (the even one of two that are equally near).  [k] is the
    number of significant digits tried, [digits] the number of digits of
    [z]; the result is the integer that decimal stands for. *)
Fixpoint shortest (fuel : nat) (k digits : nat) (z : Z) : Z :=
  match fuel with
  | O => z
  | S fuel' =>
      let unit := 10 ^ Z.of_nat (digits - k) in
      let below := z / unit * unit in
      let above := below + unit in
      match roundsTo below z, roundsTo above z with
      | true, true =>
          if z - below <? above - z then below
          else if above - z <? z - below then above
          else if Z.even (z / unit) then below else above
      | true, false => below
      | false, true => above
      | false, false => shortest fuel' (S k) digits z
      end
  end.

(** A digit string without the zeros at its end. *)
Fixpoint withoutTrailingZeros (s : string) : string :=
  match s with
  | EmptyString => EmptyString
  | String c r =>
      match withoutTrailingZeros r with
      | EmptyString =>
          if Ascii.eqb c "0" then EmptyString else String c EmptyString
      | r' => String c r'
      end
  end.

(** [Number::toString] of an integer [0 <= z] that is a double.  Below
    [2^53] every integer is a double, so no shorter decimal is read back as
    [z] and all digits are written.  Above, the shortest decimal is
    written: in full with zeros at the end up to 21 digits, as
    [d.ddd...e+N] beyond. *)
Definition positiveToString (z : Z) : string :=
  if z <? 2 ^ 53 then JS.decimal z
  else
    let digits := String.length (JS.decimal z) in
    let written := JS.decimal (shortest digits 1 digits z) in
    let n := Z.of_nat (String.length written) in
    if n <=? 21 then written
    else
      match withoutTrailingZeros written with
      | String c EmptyString => String c ("e+" ++ JS.decimal (n - 1))
      | String c r => String c ("." ++ r ++ "e+" ++ JS.decimal (n - 1))
      | EmptyString => EmptyString
      end.

(** [a.toString()], [String(a)] and [`${a}`]. *)
Definition toString (a : number) : string :=
  match a with
  | Int z =>
      if z <? 0 then String "-" (positiveToString (- z))
      else positiveToString z
  | Infinity false => "Infinity"
  | Infinity true => "-Infinity"
  | NaN => "NaN"
  end.

(** *** Strings to numbers *)

(** The double for what [parseInt] reads.  (Beyond 20 significant digits
    an implementation may replace the further digits by zeros before it
    rounds; that freedom is not modelled.) *)
Definition ofParsed (r : option Z) : number :=
  match r with
  | Some z => roundInt z
  | None => NaN
  end.

Definition parseInt (s : string) : number := ofParsed (JS.parseInt s).

(** *** The two time helpers of [src/types/results.ts] *)

Definition msToTimeString (ms : number) : string :=
  let minutes := floorDiv ms 60000 in
  let seconds := floorDiv (rem ms 60000) 1000 in
  let milliseconds := rem ms 1000 in
  toString minutes ++ ":" ++ JS.padStart 2 "0" (toString seconds)
    ++ "." ++ JS.padStart 3 "0" (toString milliseconds).

Definition parseTimeToMs (timeString : string) : number :=
  let cleanTime := JS.replaceAll "'" ":" timeString in
  match JS.split ":" cleanTime with
  | [parts0; parts1] =>
      let '(minutes, seconds, milliseconds) :=
        Helpers.timeFields parts0 parts1 in
      let minutes := ofParsed minutes in
      let seconds := ofParsed seconds in
      let milliseconds := ofParsed milliseconds in
      if isNaN minutes || isNaN seconds || isNaN milliseconds then Int 0
      else
        add (add (mul (mul minutes (Int 60)) (Int 1000))
                 (mul seconds (Int 1000)))
            milliseconds
  | _ => Int 0
  end.

End Double.

(** ** The formats as the specification words them *)

Module Spec.

(** [n] copies of [c]. *)
Fixpoint repeatChar (c : ascii) (n : nat) : string :=
  match n with
  | O => EmptyString
  | S n' => String c (repeatChar c n')
  end.

(** [n] written with exactly [k] decimal digits, zeros in front. *)
Fixpoint zeroPadded (k : nat) (n : Z) : string :=
  match k with
  | O => EmptyString
  | S k' => zeroPadded k' (n / 10) ++ String (JS.digitChar (n mod 10)) EmptyString
  end.

(** A decimal numeral without padding: digits only, at least one, and no
    zero in front of another digit. *)
Definition unpadded (s : string) : bool :=
  match s with
  | EmptyString => false
  | String c r => JS.forallb JS.isDigit s && (JS.isEmpty r || negb (Ascii.eqb c "0"))
  end.

(** ["{minutes}:{SS}.{mmm}"]. *)
Definition timeString (minutes : string) (ms : Z) : string :=
  minutes ++ ":" ++ zeroPadded 2 ((ms mod 60000) / 1000)
    ++ "." ++ zeroPadded 3 (ms mod 1000).

(** How often [a] occurs in [s]. *)
Fixpoint count (a : ascii) (s : string) : nat :=
  match s with
  | EmptyString => O
  | String c r => if Ascii.eqb c a then S (count a r) else count a r
  end.

(** The text in front of the first [sep], all of [s] when there is none. *)
Fixpoint before (sep : ascii) (s : string) : string :=
  match s with
  | EmptyString => EmptyString
  | String c r => if Ascii.eqb c sep then EmptyString else String c (before sep r)
  end.

(** The text behind the first [sep], when there is one. *)
Fixpoint after (sep : ascii) (s : string) : option string :=
  match s with
  | EmptyString => None
  | String c r => if Ascii.eqb c sep then Some r else after sep r
  end.

(** A component is numeric when an integer can be read off its front:
    after white space and at most one sign there is a decimal digit. *)
Definition numeric (s : string) : bool :=
  let t := JS.trimStart s in
  let u := match t with
           | String c r => if Ascii.eqb c "-" || Ascii.eqb c "+" then r else t
           | EmptyString => t
           end in
  match u with
  | String d _ => JS.isDigit d
  | EmptyString => false
  end.

(** Exactly one colon after the apostrophes have become colons. *)
Definition oneColon (timeString : string) : bool :=
  Nat.eqb (count ":" (Helpers.formatLapTime timeString)) 1.

(** The minutes component: what stands in front of the colon. *)
Definition minutesComponent (timeString : string) : string :=
  before ":" (Helpers.formatLapTime timeString).

Definition afterColon (timeString : string) : string :=
  match after ":" (Helpers.formatLapTime timeString) with
  | Some r => r
  | None => EmptyString
  end.

(** The seconds component: from the colon to the first dot. *)
Definition secondsComponent (timeString : string) : string :=
  before "." (afterColon timeString).

(** The millisecond fragment: from the first dot to the next one, missing
    when there is no dot. *)
Definition fragment (timeString : string) : option string :=
  option_map (before ".") (after "." (afterColon timeString)).

(** A fragment right-padded with zeros to three characters and read as an
    integer; a missing fragment counts 0. *)
Definition fragmentValue (timeString : string) : option Z :=
  match fragment timeString with
  | Some f => JS.parseInt (JS.padEnd 3 "0" f)
  | None => Some 0
  end.

(** An integer numeral: all of the component is one optional sign and then
    decimal digits, at least one. *)
Definition integerNumeral (s : string) : bool :=
  let u := match s with
           | String c r => if Ascii.eqb c "-" || Ascii.eqb c "+" then r else s
           | EmptyString => s
           end in
  negb (JS.isEmpty u) && JS.forallb JS.isDigit u.

(** The parts of a time add up within the safe integers: then the sum
    [minutes * 60 * 1000 + seconds * 1000 + milliseconds] and every step
    towards it is exact in a double. *)
Definition safeTime (minutes seconds milliseconds : Z) : Prop :=
  Z.abs minutes * 60000 + Z.abs seconds * 1000 + Z.abs milliseconds
  <= Double.MAX_SAFE_INTEGER.

(** Digits and the minus sign: what [toString] writes. *)
Definition signed (c : ascii) : bool := JS.isDigit c || Ascii.eqb c "-".

(** [needle] is a substring of [s]. *)
Definition substring (needle s : string) : Prop :=
  exists pre post : string, s = pre ++ needle ++ post.

(** The characters that stand for themselves in a query string: ASCII
    letters and digits, and [*], [-], [.], [_]. *)
Definition plainChar (c : ascii) : bool :=
  let n := JS.code c in
  ((48 <=? n) && (n <=? 57)) || ((65 <=? n) && (n <=? 90))
  || ((97 <=? n) && (n <=? 122))
  || (n =? 42) || (n =? 45) || (n =? 46) || (n =? 95).

(** ASCII: below U+0080. *)
Definition asciiChar (c : ascii) : bool := JS.code c <? 128.

(** A letter [a-z]. *)
Definition isLower (c : ascii) : bool :=
  (97 <=? JS.code c) && (JS.code c <=? 122).

(** How many tuples of a list carry the name [key]. *)
Definition occurrences (key : string) (l : list (string * string)) : nat :=
  List.length (filter (fun t => String.eqb (fst t) key) l).

(** A category answers to a search string when its name, or its acronym if
    it has one, contains the string, both taken in lower case. *)
Definition categoryHit (name : string) (cat : Helpers.Category) : Prop :=
  substring (JS.toLowerCase name) (JS.toLowerCase (Helpers.name cat))
  \/ exists a : string,
       Helpers.acronym cat = Some a
       /\ substring (JS.toLowerCase name) (JS.toLowerCase a).

End Spec.

(** ** [src/client/MotoGPClient.ts]: the client *)

Module Client.

#[local] Set Warnings "-register-all".

(** *** JavaScript values

    What a [catch] clause can receive and what a JSON body decodes to.  An
    object records whether [Error.prototype] is on its prototype chain
    ([instanceof Error]) and its own properties. *)
Inductive JsValue : Type :=
| JsUndefined
| JsNull
| JsBoolean (b : bool)
| JsNumber (n : Z)
| JsString (s : string)
| JsArray (items : list JsValue)
| JsObject (isError : bool) (props : list (string * JsValue)).

Fixpoint assoc {A : Type} (key : string) (l : list (string * A)) : option A :=
  match l with
  | [] => None
  | (k, v) :: r => if String.eqb k key then Some v else assoc key r
  end.

(** [ToBoolean]. *)
Definition truthy (v : JsValue) : bool :=
  match v with
  | JsUndefined | JsNull => false
  | JsBoolean b => b
  | JsNumber n => negb (n =? 0)
  | JsString s => negb (JS.isEmpty s)
  | JsArray _ | JsObject _ _ => true
  end.

(** [typeof v === 'object']. *)
Definition typeofObject (v : JsValue) : bool :=
  match v with
  | JsNull | JsArray _ | JsObject _ _ => true
  | _ => false
  end.

(** [key in v] for an object [v]: an own property, or for [message] the one
    every error inherits from [Error.prototype]. *)
Definition hasProperty (key : string) (v : JsValue) : bool :=
  match v with
  | JsObject isError props =>
      match assoc key props with
      | Some _ => true
      | None => isError && String.eqb key "message"
      end
  | _ => false
  end.

Definition instanceofError (v : JsValue) : bool :=
  match v with
  | JsObject true _ => true
  | _ => false
  end.

(** [v.key]; [Error.prototype.message] is the empty string. *)
Definition getProperty (key : string) (v : JsValue) : JsValue :=
  match v with
  | JsObject isError props =>
      match assoc key props with
      | Some x => x
      | None =>
          if isError && String.eqb key "message" then JsString EmptyString
          else JsUndefined
      end
  | _ => JsUndefined
  end.

(** *** Configuration *)

Record ClientOptions : Type := mkClientOptions {
  options_baseURL : option string;
  options_timeout : option Z;
  options_userAgent : option string
}.

Record MotoGPClient : Type := mkMotoGPClient {
  baseURL : string;
  timeout : Z;
  userAgent : string
}.

Definition DEFAULT_BASE_URL : string :=
  "https://api.motogp.pulselive.com/motogp/v1/".

Definition DEFAULT_TIMEOUT : Z := 10000.

Definition DEFAULT_USER_AGENT : string :=
  "Mozilla/5.0 (Windows NT 10.0; Win64; x64) AppleWebKit/537.36 (KHTML, like Gecko) Chrome/125.0.0.0 Safari/537.36".

(** [a || b] on an optional string: [undefined] and the empty string are
    falsy. *)
Definition stringOr (a : option string) (b : string) : string :=
  match a with
  | Some s => if JS.isEmpty s then b else s
  | None => b
  end.

(** [a || b] on an optional integer: [undefined] and [0] are falsy. *)
Definition numberOr (a : option Z) (b : Z) : Z :=
  match a with
  | Some n => if n =? 0 then b else n
  | None => b
  end.

(** The default parameter [options = {}]. *)
Definition noOptions : ClientOptions := mkClientOptions None None None.

Definition constructor (options : option ClientOptions) : MotoGPClient :=
  let options := match options with Some o => o | None => noOptions end in
  {| baseURL := stringOr (options_baseURL options) DEFAULT_BASE_URL;
     timeout := numberOr (options_timeout options) DEFAULT_TIMEOUT;
     userAgent := stringOr (options_userAgent options) DEFAULT_USER_AGENT |}.

(** *** URLs

    [new URL(endpoint, base)] is the platform's parser; what it returns is a
    URL object: the serialised part in front of the query, the query (absent
    or a string), the fragment, and the tuples of its [searchParams]. *)
Record URL : Type := mkURL {
  beforeQuery : string;
  query : option string;
  fragment : option string;
  searchParams : list (string * string)
}.

Definition hexDigit (n : Z) : ascii :=
  ascii_of_N (Z.to_N (if n <? 10 then 48 + n else 55 + n)).

Definition percentEncodeByte (b : Z) : string :=
  String "%" (String (hexDigit (b / 16)) (String (hexDigit (b mod 16)) EmptyString)).

(** The UTF-8 bytes of a code unit below U+0100. *)
Definition utf8Bytes (c : ascii) : list Z :=
  let n := JS.code c in
  if n <? 128 then [n] else [192 + n / 64; 128 + n mod 64].

(** The bytes the application/x-www-form-urlencoded serialiser leaves as
    they are: ASCII letters and digits, and [*], [-], [.], [_]. *)
Definition urlencodedPlain (b : Z) : bool :=
  ((48 <=? b) && (b <=? 57)) || ((65 <=? b) && (b <=? 90))
  || ((97 <=? b) && (b <=? 122))
  || (b =? 42) || (b =? 45) || (b =? 46) || (b =? 95).

Definition urlencodedByte (b : Z) : string :=
  if b =? 32 then "+"
  else if urlencodedPlain b then String (ascii_of_N (Z.to_N b)) EmptyString
  else percentEncodeByte b.

Fixpoint urlencoded (s : string) : string :=
  match s with
  | EmptyString => EmptyString
  | String c r =>
      String.concat EmptyString (map urlencodedByte (utf8Bytes c))
      ++ urlencoded r
  end.

Definition urlencodedSerialize (l : list (string * string)) : string :=
  String.concat "&"
    (map (fun t => urlencoded (fst t) ++ "=" ++ urlencoded (snd t)) l).

Definition removeName (name : string) (l : list (string * string))
  : list (string * string) :=
  filter (fun t => negb (String.eqb (fst t) name)) l.

(** The list operation of [URLSearchParams.set]: the first tuple of that
    name takes the value and the other tuples of that name go; without such
    a tuple, a new one is appended. *)
Fixpoint setTuple (name value : string) (l : list (string * string))
  : list (string * string) :=
  match l with
  | [] => [(name, value)]
  | t :: r =>
      if String.eqb (fst t) name then (name, value) :: removeName name r
      else t :: setTuple name value r
  end.

(** [url.searchParams.set(name, value)]: the list changes, then the URL's
    query becomes the serialisation of the list (absent when that is
    empty). *)
Definition searchParams_set (name value : string) (url : URL) : URL :=
  let l := setTuple name value (searchParams url) in
  let serializedQuery := urlencodedSerialize l in
  {| beforeQuery := beforeQuery url;
     query := if JS.isEmpty serializedQuery then None else Some serializedQuery;
     fragment := fragment url;
     searchParams := l |}.

(** [url.toString()]. *)
Definition URL_toString (url : URL) : string :=
  beforeQuery url
  ++ match query url with Some q => String "?" q | None => EmptyString end
  ++ match fragment url with Some f => String "#" f | None => EmptyString end.

(** *** Query parameters *)

(** What the query-parameter map can hold at run time: the declared
    [string | number | boolean], and [undefined] or [null], for which
    [makeRequest] tests. *)
Inductive ParamValue : Type :=
| PString (s : string)
| PNumber (n : Z)
| PBoolean (b : bool)
| PUndefined
| PNull.

(** [String(value)].  A number is an integer and all its digits are
    written, which is what [String] does within the safe integers
    ([toString_safe]). *)
Definition String_of (value : ParamValue) : string :=
  match value with
  | PString s => s
  | PNumber n => JS.toString n
  | PBoolean true => "true"
  | PBoolean false => "false"
  | PUndefined => "undefined"
  | PNull => "null"
  end.

(** [value !== undefined && value !== null]. *)
Definition isDefined (value : ParamValue) : bool :=
  match value with
  | PUndefined | PNull => false
  | _ => true
  end.

(** The body of the [forEach] callback. *)
Definition setParam (url : URL) (entry : string * ParamValue) : URL :=
  let '(key, value) := entry in
  if isDefined value then searchParams_set key (String_of value) url else url.

(** [if (searchParams) { Object.entries(searchParams).forEach(...) }]; the
    map is given by its entries, in the order [Object.entries] lists them. *)
Definition applySearchParams
  (url : URL) (searchParams : option (list (string * ParamValue))) : URL :=
  match searchParams with
  | Some entries => fold_left setParam entries url
  | None => url
  end.

(** *** The outside world *)

(** The options object handed to undici's [request]. *)
Record RequestOptions : Type := mkRequestOptions {
  request_url : string;
  request_method : string;
  request_headers : list (string * string);
  headersTimeout : Z;
  bodyTimeout : Z
}.

(** [response.body.json()] gives the decoded document or throws. *)
Inductive BodyOutcome : Type :=
| BodyJson (data : JsValue)
| BodyThrows (error : JsValue).

(** [await request(...)] throws (no response at all) or gives a response
    with a status code and a body still to read. *)
Inductive RequestOutcome : Type :=
| RequestThrows (error : JsValue)
| Response (statusCode : Z) (body : BodyOutcome).

(** What is observable of a run: the lines written with [console.log] and
    the requests handed to the transport, oldest first. *)
Record World : Type := mkWorld {
  console : list string;
  sent : list RequestOptions
}.

(** How a JavaScript computation ends. *)
Inductive Completion (A : Type) : Type :=
| Returned (value : A)
| Thrown (error : JsValue).

Arguments Returned {A} value.
Arguments Thrown {A} error.

(** A computation that reads and writes the world and may throw. *)
Definition Pipeline (A : Type) : Type := World -> Completion A * World.

Definition ret {A : Type} (a : A) : Pipeline A := fun w => (Returned a, w).

Definition throw {A : Type} (error : JsValue) : Pipeline A :=
  fun w => (Thrown error, w).

Definition bind {A B : Type} (c : Pipeline A) (k : A -> Pipeline B)
  : Pipeline B :=
  fun w =>
    match c w with
    | (Returned a, w') => k a w'
    | (Thrown error, w') => (Thrown error, w')
    end.

(** [try { c } catch (error) { handler error }]. *)
Definition tryCatch {A : Type} (c : Pipeline A) (handler : JsValue -> Pipeline A)
  : Pipeline A :=
  fun w =>
    match c w with
    | (Returned a, w') => (Returned a, w')
    | (Thrown error, w') => handler error w'
    end.

Notation "x <- c ;; k" := (bind c (fun x => k))
  (at level 61, c at next level, right associativity).
Notation "c ;;; k" := (bind c (fun _ => k))
  (at level 61, right associativity).

Definition consoleLog (line : string) : Pipeline unit :=
  fun w => (Returned tt, {| console := console w ++ [line]; sent := sent w |}).

Section Pipeline.

(** The platform's URL parser: the URL object, or the [TypeError] it
    throws. *)
Variable newURL : string -> string -> Completion URL.

(** The network as this run meets it: what the [n]-th request handed to the
    transport comes back with. *)
Variable network : nat -> RequestOptions -> RequestOutcome.

Definition constructURL (endpoint base : string) : Pipeline URL :=
  fun w => (newURL endpoint base, w).

(** [await request(url, options)]. *)
Definition request (options : RequestOptions) : Pipeline (Z * BodyOutcome) :=
  fun w =>
    let w' := {| console := console w; sent := sent w ++ [options] |} in
    match network (List.length (sent w)) options with
    | RequestThrows error => (Thrown error, w')
    | Response statusCode body => (Returned (statusCode, body), w')
    end.

(** [await response.body.json()]. *)
Definition bodyJson (body : BodyOutcome) : Pipeline JsValue :=
  match body with
  | BodyJson data => ret data
  | BodyThrows error => throw error
  end.

(** The [APIError] of a response that is not a 200. *)
Definition statusError (statusCode : Z) : JsValue :=
  JsObject false
    [("message",
      JsString ("HTTP " ++ JS.toString statusCode ++ ": "
                ++ (if statusCode =? 404 then "Not Found" else "Request Failed")));
     ("status", JsNumber statusCode)].

(** The [catch] clause of [makeRequest]. *)
Definition normalizeError (error : JsValue) : Pipeline JsValue :=
  if truthy error && typeofObject error && hasProperty "message" error
  then throw error
  else
    let apiError :=
      JsObject false
        [("message",
          if instanceofError error then getProperty "message" error
          else JsString "Unknown error occurred")] in
    throw apiError.

Definition requestOptions (self : MotoGPClient) (url : URL) : RequestOptions :=
  {| request_url := URL_toString url;
     request_method := "GET";
     request_headers :=
       [("User-Agent", userAgent self); ("Accept", "application/json")];
     headersTimeout := timeout self;
     bodyTimeout := timeout self |}.

Definition makeRequest
  (self : MotoGPClient) (endpoint : string)
  (searchParams : option (list (string * ParamValue))) : Pipeline JsValue :=
  url <- constructURL endpoint (baseURL self) ;;
  let url := applySearchParams url searchParams in
  tryCatch
    (consoleLog ("Making request to: " ++ URL_toString url) ;;;
     response <- request (requestOptions self url) ;;
     let '(statusCode, body) := response in
     if negb (statusCode =? 200) then throw (statusError statusCode)
     else
       data <- bodyJson body ;;
       ret data)
    normalizeError.

End Pipeline.

(** *** The endpoint methods *)


Section Catalog.

Variable newURL : string -> string -> Completion URL.
Variable network : nat -> RequestOptions -> RequestOutcome.

Definition getLiveTiming (self : MotoGPClient) : Pipeline JsValue :=
  makeRequest newURL network self "timing-gateway/livetiming-lite" None.

Definition getSeasons (self : MotoGPClient) : Pipeline JsValue :=
  makeRequest newURL network self "results/seasons" None.

Definition getEvents (self : MotoGPClient) (seasonUuid : string)
  : Pipeline JsValue :=
  makeRequest newURL network self "results/events"
    (Some [("seasonUuid", PString seasonUuid)]).

Definition getEvent (self : MotoGPClient) (eventId : string)
  : Pipeline JsValue :=
  makeRequest newURL network self ("results/events/" ++ eventId) None.

Definition getSessions (self : MotoGPClient) (eventUuid categoryUuid : string)
  : Pipeline JsValue :=
  makeRequest newURL network self "results/sessions"
    (Some [("eventUuid", PString eventUuid);
           ("categoryUuid", PString categoryUuid)]).

Definition getSession (self : MotoGPClient) (sessionId : string)
  : Pipeline JsValue :=
  makeRequest newURL network self ("results/sessions/" ++ sessionId) None.


Definition getEntryList (self : MotoGPClient) (eventId categoryUuid : string)
  : Pipeline JsValue :=
  makeRequest newURL network self ("event/" ++ eventId ++ "/entry")
    (Some [("categoryUuid", PString categoryUuid)]).

Definition getGridPositions (self : MotoGPClient) (eventId categoryId : string)
  : Pipeline JsValue :=
  makeRequest newURL network self
    ("results/event/" ++ eventId ++ "/category/" ++ categoryId ++ "/grid")
    None.

Definition getStandings (self : MotoGPClient) (seasonUuid categoryUuid : string)
  : Pipeline JsValue :=
  makeRequest newURL network self "results/standings"
    (Some [("seasonUuid", PString seasonUuid);
           ("categoryUuid", PString categoryUuid)]).

Definition getStandingsFiles
  (self : MotoGPClient) (seasonUuid categoryUuid : string) : Pipeline JsValue :=
  makeRequest newURL network self "results/standings/files"
    (Some [("seasonUuid", PString seasonUuid);
           ("categoryUuid", PString categoryUuid)]).

Definition getBMWAward (self : MotoGPClient) (seasonUuid : string)
  : Pipeline JsValue :=
  makeRequest newURL network self "results/standings/bmwaward"
    (Some [("seasonUuid", PString seasonUuid)]).

Definition getCategories (self : MotoGPClient) (seasonYear : Z)
  : Pipeline JsValue :=
  makeRequest newURL network self "categories"
    (Some [("seasonYear", PNumber seasonYear)]).

Definition getBroadcastEvents (self : MotoGPClient) (seasonYear : Z)
  : Pipeline JsValue :=
  makeRequest newURL network self "events"
    (Some [("seasonYear", PNumber seasonYear)]).

Definition getBroadcastEvent (self : MotoGPClient) (eventId : string)
  : Pipeline JsValue :=
  makeRequest newURL network self ("events/" ++ eventId) None.

Definition getRiders (self : MotoGPClient) : Pipeline JsValue :=
  makeRequest newURL network self "riders" None.

Definition getRider (self : MotoGPClient) (riderId : string)
  : Pipeline JsValue :=
  makeRequest newURL network self ("riders/" ++ riderId) None.

Definition getRiderStatistics (self : MotoGPClient) (legacyId : Z)
  : Pipeline JsValue :=
  makeRequest newURL network self
    ("riders/" ++ JS.toString legacyId ++ "/stats") None.

Definition getRiderSeasonStatistics (self : MotoGPClient) (legacyId : Z)
  : Pipeline JsValue :=
  makeRequest newURL network self
    ("riders/" ++ JS.toString legacyId ++ "/statistics") None.

Definition getTeams (self : MotoGPClient) (categoryUuid : string) (seasonYear : Z)
  : Pipeline JsValue :=
  makeRequest newURL network self "teams"
    (Some [("categoryUuid", PString categoryUuid);
           ("seasonYear", PNumber seasonYear)]).

End Catalog.

End Client.

(** ** The pipeline as the specification words it *)

Module ClientSpec.

(** The world after a call has logged and sent its one request for
    [url]. *)
Definition afterRequest
  (self : Client.MotoGPClient) (url : Client.URL) (w : Client.World)
  : Client.World :=
  {| Client.console :=
       (Client.console w
        ++ [("Making request to: " ++ Client.URL_toString url)%string])%list;
     Client.sent := (Client.sent w ++ [Client.requestOptions self url])%list |}.

(** The description a thrown value carries: the [message] of an object
    that has one, its own or the one errors inherit. *)
Definition description (error : Client.JsValue) : option Client.JsValue :=
  match error with
  | Client.JsObject isError props =>
      match Client.assoc "message" props with
      | Some m => Some m
      | None => if isError then Some (Client.JsString EmptyString) else None
      end
  | _ => None
  end.

(** The status code an error value carries, if any. *)
Definition statusOf (error : Client.JsValue) : option Client.JsValue :=
  match error with
  | Client.JsObject _ props => Client.assoc "status" props
  | _ => None
  end.

(** The query-string tuple of an entry of the parameter map. *)
Definition tupleOf (entry : string * Client.ParamValue) : string * string :=
  (fst entry, Client.String_of (snd entry)).

(** The entries that are kept: those whose value is neither [undefined]
    nor [null]. *)
Definition kept (entries : list (string * Client.ParamValue))
  : list (string * Client.ParamValue) :=
  filter (fun entry => Client.isDefined (snd entry)) entries.

(** The query-string tuples the specification asks for: an entry whose
    value is [undefined] or [null] gives none, every other entry gives its
    name with its value written as a string. *)
Fixpoint queryTuples (entries : list (string * Client.ParamValue))
  : list (string * string) :=
  match entries with
  | [] => []
  | (key, value) :: rest =>
      match value with
      | Client.PUndefined | Client.PNull => queryTuples rest
      | Client.PString s => (key, s) :: queryTuples rest
      | Client.PNumber n =>
          (key, Double.toString (Double.Int n)) :: queryTuples rest
      | Client.PBoolean true => (key, "true") :: queryTuples rest
      | Client.PBoolean false => (key, "false") :: queryTuples rest
      end
  end.

(** Every number in the map is a safe integer. *)
Definition safeNumbers (entries : list (string * Client.ParamValue)) : bool :=
  List.forallb
    (fun entry =>
       match snd entry with
       | Client.PNumber n => Z.abs n <=? Double.MAX_SAFE_INTEGER
       | _ => true
       end)
    entries.

End ClientSpec.

(** ** Sample worlds *)

Module Example.

(** A URL parser for relative paths without query or fragment: the
    endpoint goes behind the base. *)
Definition joinURL (endpoint base : string) : Client.Completion Client.URL :=
  Client.Returned (Client.mkURL (base ++ endpoint) None None []).

(** A network that answers every request with a 503. *)
Definition unavailable (n : nat) (options : Client.RequestOptions)
  : Client.RequestOutcome :=
  Client.Response 503 (Client.BodyJson Client.JsNull).

(** What a connection that times out throws: an [Error] with a message
    and a code. *)
Definition connectTimeout : Client.JsValue :=
  Client.JsObject true
    [("message", Client.JsString "Connect Timeout Error");
     ("code", Client.JsString "UND_ERR_CONNECT_TIMEOUT")].

(** A network on which no connection is ever made. *)
Definition unreachable (n : nat) (options : Client.RequestOptions)
  : Client.RequestOutcome :=
  Client.RequestThrows connectTimeout.

(** The parameters of a classification request without the test flag. *)
Definition classificationParams : list (string * Client.ParamValue) :=
  [("seasonYear", Client.PNumber 2024); ("test", Client.PUndefined)].

(** A parameter map with a value of every kind. *)
Definition teamsParams : list (string * Client.ParamValue) :=
  [("categoryUuid", Client.PString "a b");
   ("test", Client.PUndefined);
   ("seasonYear", Client.PNumber 2024);
   ("page", Client.PNull);
   ("live", Client.PBoolean false)].

Definition emptyWorld : Client.World := Client.mkWorld [] [].

(** What [new URL] throws on a base that is no URL. *)
Definition invalidURL : Client.JsValue :=
  Client.JsObject true
    [("message", Client.JsString "Invalid URL");
     ("code", Client.JsString "ERR_INVALID_URL")].

(** A URL parser that accepts nothing. *)
Definition rejectURL (endpoint base : string) : Client.Completion Client.URL :=
  Client.Thrown invalidURL.

End Example.

(** * Properties *)

(** ** Characters and strings *)

Section Strings.

Lemma code_ascii_of (n : Z) :
  0 <= n < 256 -> JS.code (ascii_of_N (Z.to_N n)) = n.
Proof.
  intros Hn. unfold JS.code. rewrite N_ascii_embedding by lia. lia.
Qed.

Lemma isDigit_code (c : ascii) :
  JS.isDigit c = true <-> 48 <= JS.code c <= 57.
Proof.
  unfold JS.isDigit. rewrite andb_true_iff, !Z.leb_le. tauto.
Qed.

Lemma digitChar_code (d : Z) : 0 <= d < 10 -> JS.code (JS.digitChar d) = 48 + d.
Proof.
  intros Hd. unfold JS.digitChar. apply code_ascii_of. lia.
Qed.

Lemma digitChar_isDigit (d : Z) : 0 <= d < 10 -> JS.isDigit (JS.digitChar d) = true.
Proof.
  intros Hd. apply isDigit_code. rewrite digitChar_code by assumption. lia.
Qed.

Lemma digitChar_value (d : Z) : 0 <= d < 10 -> JS.digitValue (JS.digitChar d) = d.
Proof.
  intros Hd. unfold JS.digitValue. rewrite digitChar_code by assumption. lia.
Qed.

Lemma digit_not_whitespace (c : ascii) :
  JS.isDigit c = true -> JS.isWhiteSpace c = false.
Proof.
  rewrite isDigit_code. intros H. unfold JS.isWhiteSpace.
  destruct (Z.leb_spec 9 (JS.code c)), (Z.leb_spec (JS.code c) 13),
    (Z.eqb_spec (JS.code c) 32), (Z.eqb_spec (JS.code c) 160);
    simpl; try reflexivity; lia.
Qed.

Lemma digit_not_char (c d : ascii) :
  JS.isDigit c = true -> JS.isDigit d = false -> Ascii.eqb c d = false.
Proof.
  intros Hc Hd. destruct (Ascii.eqb_spec c d) as [-> | ]; congruence.
Qed.

Lemma append_nil_r (s : string) : s ++ "" = s.
Proof.
  induction s as [| c s IH]; simpl; [reflexivity | now rewrite IH].
Qed.

Lemma append_assoc (s t u : string) : (s ++ t) ++ u = s ++ (t ++ u).
Proof.
  induction s as [| c s IH]; simpl; [reflexivity | now rewrite IH].
Qed.

Lemma length_append (s t : string) :
  String.length (s ++ t) = (String.length s + String.length t)%nat.
Proof.
  induction s as [| c s IH]; simpl; [reflexivity | now rewrite IH].
Qed.

Lemma forallb_append (p : ascii -> bool) (s t : string) :
  JS.forallb p (s ++ t) = JS.forallb p s && JS.forallb p t.
Proof.
  induction s as [| c s IH]; simpl; [reflexivity |].
  rewrite IH. apply andb_assoc.
Qed.

Lemma forallb_impl (p q : ascii -> bool) (s : string) :
  (forall c, p c = true -> q c = true) ->
  JS.forallb p s = true -> JS.forallb q s = true.
Proof.
  intros Hpq. induction s as [| c s IH]; simpl; [reflexivity |].
  rewrite !andb_true_iff. intros [Hc Hs]. auto.
Qed.

(** Replacing a character that does not occur changes nothing. *)
Lemma replaceAll_absent (a b : ascii) (s : string) :
  JS.forallb (fun c => negb (Ascii.eqb c a)) s = true ->
  JS.replaceAll a b s = s.
Proof.
  induction s as [| c s IH]; simpl; [reflexivity |].
  rewrite andb_true_iff, negb_true_iff. intros [Hc Hs].
  rewrite Hc, IH by assumption. reflexivity.
Qed.

(** A string without the separator is its own single part. *)
Lemma split_absent (sep : ascii) (s : string) :
  JS.forallb (fun c => negb (Ascii.eqb c sep)) s = true ->
  JS.split sep s = [s].
Proof.
  induction s as [| c s IH]; simpl; [reflexivity |].
  rewrite andb_true_iff, negb_true_iff. intros [Hc Hs].
  rewrite Hc, IH by assumption. reflexivity.
Qed.

(** The first part ends at the first separator. *)
Lemma split_first (sep : ascii) (s t : string) :
  JS.forallb (fun c => negb (Ascii.eqb c sep)) s = true ->
  JS.split sep (s ++ String sep t) = s :: JS.split sep t.
Proof.
  induction s as [| c s IH]; simpl.
  - intros _. now rewrite Ascii.eqb_refl.
  - rewrite andb_true_iff, negb_true_iff. intros [Hc Hs].
    rewrite Hc, IH by assumption. reflexivity.
Qed.

Lemma split_nonempty (sep : ascii) (s : string) : JS.split sep s <> [].
Proof.
  destruct s as [| c s]; simpl; [discriminate |].
  destruct (Ascii.eqb c sep); [discriminate |].
  destruct (JS.split sep s); discriminate.
Qed.

(** Padding with a one-character string repeats that character. *)
Lemma filler_char (c : ascii) (cur : string) (n : nat) :
  cur = EmptyString \/ cur = String c EmptyString ->
  JS.filler (String c EmptyString) cur n = Spec.repeatChar c n.
Proof.
  revert cur. induction n as [| n IH]; intros cur Hcur; simpl; [reflexivity |].
  destruct Hcur as [-> | ->]; rewrite IH; auto.
Qed.

Lemma padStart_char (k : nat) (c : ascii) (s : string) :
  JS.padStart k (String c EmptyString) s = Spec.repeatChar c (k - String.length s) ++ s.
Proof.
  unfold JS.padStart. rewrite filler_char; auto.
Qed.

Lemma padEnd_char (k : nat) (c : ascii) (s : string) :
  JS.padEnd k (String c EmptyString) s = s ++ Spec.repeatChar c (k - String.length s).
Proof.
  unfold JS.padEnd. rewrite filler_char; auto.
Qed.

End Strings.

(** ** Decimal numerals *)

Section Numerals.

Lemma digitsValueFrom_append (a : Z) (s t : string) :
  JS.digitsValueFrom a (s ++ t) = JS.digitsValueFrom (JS.digitsValueFrom a s) t.
Proof.
  revert a. induction s as [| c s IH]; intros a; simpl; [reflexivity | apply IH].
Qed.

Lemma digitsValueFrom_zeros (a : Z) (k : nat) :
  JS.digitsValueFrom a (Spec.repeatChar "0" k) = a * 10 ^ Z.of_nat k.
Proof.
  revert a. induction k as [| k IH]; intros a.
  - simpl. lia.
  - cbn [Spec.repeatChar JS.digitsValueFrom]. rewrite IH.
    rewrite Nat2Z.inj_succ, Z.pow_succ_r by lia.
    change (JS.digitValue "0") with 0. lia.
Qed.

(** A string of [k] digits denotes a number below [10 ^ k]. *)
Lemma digitsValueFrom_bounds (a : Z) (s : string) :
  JS.forallb JS.isDigit s = true -> 0 <= a ->
  a * 10 ^ Z.of_nat (String.length s) <= JS.digitsValueFrom a s
  < (a + 1) * 10 ^ Z.of_nat (String.length s).
Proof.
  revert a. induction s as [| c s IH]; intros a Hs Ha.
  - simpl. lia.
  - cbn [JS.forallb] in Hs. apply andb_true_iff in Hs as [Hc Hs].
    apply isDigit_code in Hc.
    cbn [String.length JS.digitsValueFrom].
    rewrite Nat2Z.inj_succ, Z.pow_succ_r by lia.
    unfold JS.digitValue.
    specialize (IH (a * 10 + (JS.code c - 48)) Hs ltac:(lia)).
    pose proof (Z.pow_pos_nonneg 10 (Z.of_nat (String.length s))
                  ltac:(lia) ltac:(lia)) as Hp.
    nia.
Qed.

Lemma zeroPadded_length (k : nat) (n : Z) :
  String.length (Spec.zeroPadded k n) = k.
Proof.
  revert n. induction k as [| k IH]; intros n; simpl; [reflexivity |].
  rewrite length_append, IH. simpl. lia.
Qed.

Lemma zeroPadded_digits (k : nat) (n : Z) :
  JS.forallb JS.isDigit (Spec.zeroPadded k n) = true.
Proof.
  revert n. induction k as [| k IH]; intros n; simpl; [reflexivity |].
  rewrite forallb_append, IH. simpl.
  rewrite digitChar_isDigit; [reflexivity |].
  apply Z.mod_pos_bound. lia.
Qed.

Lemma zeroPadded_value (k : nat) (n : Z) :
  0 <= n < 10 ^ Z.of_nat k -> JS.digitsValue (Spec.zeroPadded k n) = n.
Proof.
  unfold JS.digitsValue. revert n. induction k as [| k IH]; intros n Hn.
  - simpl in *. lia.
  - rewrite Nat2Z.inj_succ, Z.pow_succ_r in Hn by lia.
    cbn [Spec.zeroPadded]. rewrite digitsValueFrom_append, IH.
    + cbn [JS.digitsValueFrom].
      rewrite digitChar_value by (apply Z.mod_pos_bound; lia).
      pose proof (Z.div_mod n 10 ltac:(lia)). lia.
    + split; [apply Z.div_pos; lia | apply Z.div_lt_upper_bound; lia].
Qed.

Lemma zeroPadded_zero (k : nat) :
  Spec.zeroPadded k 0 = Spec.repeatChar "0" k.
Proof.
  induction k as [| k IH]; [reflexivity |].
  cbn [Spec.zeroPadded]. change (0 / 10) with 0. rewrite IH.
  change (JS.digitChar (0 mod 10)) with "0"%char.
  clear IH. induction k as [| k IH]; simpl; [reflexivity | now rewrite IH].
Qed.

(** More digits than needed are zeros in front. *)
Lemma zeroPadded_widen (j k : nat) (n : Z) :
  0 <= n < 10 ^ Z.of_nat j ->
  Spec.zeroPadded (k + j) n = Spec.repeatChar "0" k ++ Spec.zeroPadded j n.
Proof.
  revert n. induction j as [| j IH]; intros n Hn.
  - assert (n = 0) as -> by (simpl in Hn; lia).
    rewrite Nat.add_0_r, append_nil_r. apply zeroPadded_zero.
  - rewrite Nat2Z.inj_succ, Z.pow_succ_r in Hn by lia.
    rewrite Nat.add_succ_r. cbn [Spec.zeroPadded].
    rewrite IH, append_assoc; [reflexivity |].
    split; [apply Z.div_pos; lia | apply Z.div_lt_upper_bound; lia].
Qed.

(** With enough fuel, [decimalDigits] writes [n] with as many digits as it
    has. *)
Lemma decimalDigits_zeroPadded (fuel : nat) (n : Z) (acc : string) :
  0 <= n < 2 ^ Z.of_nat (S fuel) ->
  exists j : nat,
    JS.decimalDigits (S fuel) n acc = Spec.zeroPadded (S j) n ++ acc
    /\ n < 10 ^ Z.of_nat (S j)
    /\ (n = 0 -> j = O)
    /\ (0 < n -> 10 ^ Z.of_nat j <= n).
Proof.
  revert n acc. induction fuel as [| fuel IH]; intros n acc Hn.
  - exists O. change (2 ^ Z.of_nat 1) with 2 in Hn.
    cbn [JS.decimalDigits]. destruct (Z.ltb_spec n 10); [| lia].
    repeat split; simpl; lia.
  - cbn [JS.decimalDigits]. destruct (Z.ltb_spec n 10) as [Hlt | Hge].
    + exists O. repeat split; simpl; try lia.
    + rewrite Nat2Z.inj_succ, Z.pow_succ_r in Hn by lia.
      assert (Hq : 0 <= n / 10 < 2 ^ Z.of_nat (S fuel)).
      { split; [apply Z.div_pos; lia | apply Z.div_lt_upper_bound; lia]. }
      destruct (IH (n / 10) (String (JS.digitChar (n mod 10)) acc) Hq)
        as (j & Heq & Hub & _ & Hlb).
      exists (S j). cbn [JS.decimalDigits] in Heq.
      assert (Hq1 : 1 <= n / 10) by (apply Z.div_le_lower_bound; lia).
      pose proof (Z.div_mod n 10 ltac:(lia)) as Hdm.
      pose proof (Z.mod_pos_bound n 10 ltac:(lia)) as Hm.
      repeat split.
      * rewrite Heq. cbn [Spec.zeroPadded]. rewrite !append_assoc. reflexivity.
      * rewrite (Nat2Z.inj_succ (S j)), Z.pow_succ_r by lia. lia.
      * lia.
      * intros _. rewrite Nat2Z.inj_succ, Z.pow_succ_r by lia.
        specialize (Hlb ltac:(lia)). lia.
Qed.

Lemma decimal_zeroPadded (n : Z) :
  0 <= n ->
  exists j : nat,
    JS.decimal n = Spec.zeroPadded (S j) n
    /\ n < 10 ^ Z.of_nat (S j)
    /\ (n = 0 -> j = O)
    /\ (0 < n -> 10 ^ Z.of_nat j <= n).
Proof.
  intros Hn. unfold JS.decimal.
  destruct (decimalDigits_zeroPadded (Z.to_nat (Z.log2 n)) n EmptyString)
    as (j & Heq & H).
  - rewrite Nat2Z.inj_succ, Z2Nat.id by apply Z.log2_nonneg.
    destruct (Z.eq_dec n 0) as [-> | Hnz]; [simpl; lia |].
    pose proof (Z.log2_spec n ltac:(lia)) as [_ Hlog]. lia.
  - exists j. rewrite append_nil_r in Heq. auto.
Qed.

Lemma toString_nonneg (n : Z) : 0 <= n -> JS.toString n = JS.decimal n.
Proof.
  intros Hn. unfold JS.toString.
  destruct (Z.ltb_spec n 0); [lia | reflexivity].
Qed.

Lemma decimal_digits (n : Z) :
  0 <= n -> JS.forallb JS.isDigit (JS.decimal n) = true.
Proof.
  intros Hn. destruct (decimal_zeroPadded n Hn) as (j & -> & _).
  apply zeroPadded_digits.
Qed.

Lemma decimal_value (n : Z) : 0 <= n -> JS.digitsValue (JS.decimal n) = n.
Proof.
  intros Hn. destruct (decimal_zeroPadded n Hn) as (j & -> & Hub & _).
  apply zeroPadded_value. lia.
Qed.

Lemma decimal_nonempty (n : Z) : 0 <= n -> JS.isEmpty (JS.decimal n) = false.
Proof.
  intros Hn. destruct (decimal_zeroPadded n Hn) as (j & Heq & _).
  pose proof (zeroPadded_length (S j) n) as Hlen. rewrite <- Heq in Hlen.
  destruct (JS.decimal n); [discriminate | reflexivity].
Qed.

(** [toString] never pads: no zero in front of another digit. *)
Lemma decimal_unpadded (n : Z) : 0 <= n -> Spec.unpadded (JS.decimal n) = true.
Proof.
  intros Hn. pose proof (decimal_digits n Hn) as Hd.
  pose proof (decimal_value n Hn) as Hv.
  destruct (decimal_zeroPadded n Hn) as (j & Heq & Hub & Hz & Hlb).
  pose proof (zeroPadded_length (S j) n) as Hlen. rewrite <- Heq in Hlen.
  destruct (JS.decimal n) as [| c r]; [discriminate |].
  unfold Spec.unpadded. rewrite Hd. cbn [andb].
  destruct r as [| c' r']; [reflexivity |]. cbn [JS.isEmpty orb].
  apply negb_true_iff. destruct (Ascii.eqb_spec c "0") as [-> | ]; [| reflexivity].
  exfalso. cbn [JS.forallb] in Hd. apply andb_true_iff in Hd as [_ Hd].
  pose proof (digitsValueFrom_bounds 0 (String c' r') Hd ltac:(lia)) as Hb.
  change (JS.digitsValueFrom 0 (String c' r') = n) in Hv.
  cbn [String.length] in Hlen, Hb. injection Hlen as Hlen. rewrite Hlen in Hb.
  assert (j <> O) by (intros ->; discriminate).
  assert (0 < n) by (destruct (Z.eq_dec n 0) as [E | ]; [apply Hz in E; tauto | lia]).
  specialize (Hlb ltac:(assumption)). lia.
Qed.

(** [padStart(k, '0')] of a number that fits is the number in [k] digits. *)
Lemma padStart_decimal (k : nat) (n : Z) :
  (1 <= k)%nat -> 0 <= n < 10 ^ Z.of_nat k ->
  JS.padStart k "0" (JS.decimal n) = Spec.zeroPadded k n.
Proof.
  intros Hk Hn.
  destruct (decimal_zeroPadded n ltac:(lia)) as (j & Heq & Hub & Hz & Hlb).
  rewrite padStart_char, Heq, zeroPadded_length.
  assert (Hjk : (S j <= k)%nat).
  { destruct (Z.eq_dec n 0) as [E | Hnz]; [rewrite (Hz E); lia |].
    specialize (Hlb ltac:(lia)).
    assert (10 ^ Z.of_nat j < 10 ^ Z.of_nat k) as Hpow by lia.
    apply Z.pow_lt_mono_r_iff in Hpow; lia. }
  rewrite <- zeroPadded_widen by lia.
  f_equal. lia.
Qed.

End Numerals.

(** ** [parseInt] *)

Section ParseInt.

Lemma takeDigits_digits (s : string) :
  JS.forallb JS.isDigit s = true -> JS.takeDigits s = s.
Proof.
  induction s as [| c s IH]; simpl; [reflexivity |].
  rewrite andb_true_iff. intros [Hc Hs]. rewrite Hc, IH by assumption.
  reflexivity.
Qed.

(** On a digit string [parseInt] reads the whole of it. *)
Lemma parseInt_digits (s : string) :
  JS.forallb JS.isDigit s = true -> JS.isEmpty s = false ->
  JS.parseInt s = Some (JS.digitsValue s).
Proof.
  intros Hd Hne. destruct s as [| c r]; [discriminate |].
  pose proof Hd as Hd'. cbn [JS.forallb] in Hd'.
  apply andb_true_iff in Hd' as [Hc _].
  unfold JS.parseInt. cbn [JS.trimStart].
  rewrite (digit_not_whitespace c Hc).
  rewrite (digit_not_char c "-" Hc eq_refl), (digit_not_char c "+" Hc eq_refl).
  rewrite takeDigits_digits by assumption. cbn [JS.isEmpty].
  f_equal. apply Z.mul_1_l.
Qed.

(** A character that is not a digit does not occur in a digit string. *)
Lemma digits_avoid (c : ascii) (s : string) :
  JS.isDigit c = false -> JS.forallb JS.isDigit s = true ->
  JS.forallb (fun x => negb (Ascii.eqb x c)) s = true.
Proof.
  intros Hc. apply forallb_impl. intros x Hx.
  apply negb_true_iff. now apply digit_not_char.
Qed.

(** [NaN] exactly when no digit follows the white space and the sign. *)
Lemma parseInt_NaN (s : string) :
  JS.parseInt s = None <->
  (let t := JS.trimStart s in
   let u := match t with
            | String c r =>
                if Ascii.eqb c "-" || Ascii.eqb c "+" then r else t
            | EmptyString => t
            end in
   match u with
   | String d _ => JS.isDigit d = false
   | EmptyString => True
   end).
Proof.
  unfold JS.parseInt. cbv zeta.
  destruct (JS.trimStart s) as [| c r]; [simpl; tauto |].
  assert (Hrun : forall (sign : Z) (u : string),
             (if JS.isEmpty (JS.takeDigits u) then None
              else Some (sign * JS.digitsValue (JS.takeDigits u))) = None
             <-> match u with
                 | String d _ => JS.isDigit d = false
                 | EmptyString => True
                 end).
  { intros sign [| d v]; cbn [JS.takeDigits JS.isEmpty]; [tauto |].
    destruct (JS.isDigit d); cbn [JS.isEmpty]; split; intros;
      (discriminate || reflexivity). }
  destruct (Ascii.eqb c "-"); [| destruct (Ascii.eqb c "+")];
    cbv beta iota; cbn [orb]; apply Hrun.
Qed.

End ParseInt.

(** A character is absent from a string put together from digit strings and
    other literal characters. *)
Ltac absent_from_digits :=
  rewrite ?forallb_append;
  repeat (apply andb_true_iff; split);
  try reflexivity;
  (apply digits_avoid; [reflexivity | assumption]).

(** ** Where doubles are exact *)

Ltac safe_lia :=
  unfold Spec.safeTime, Double.MAX_SAFE_INTEGER in *;
  change (2 ^ 53) with 9007199254740992 in *;
  lia.

Section Doubles.

Lemma nearestEven_near (n d : Z) :
  0 <= n -> 0 < d ->
  2 * n - d <= 2 * d * Double.nearestEven n d <= 2 * n + d.
Proof.
  intros Hn Hd. unfold Double.nearestEven. cbv zeta.
  pose proof (Z.div_mod n d ltac:(lia)) as E.
  pose proof (Z.mod_pos_bound n d Hd) as B.
  set (q := n / d) in *. set (r := n mod d) in *.
  destruct (Z.ltb_spec (2 * r) d); [nia |].
  destruct (Z.ltb_spec d (2 * r)); [nia |].
  destruct (Z.even q); nia.
Qed.

(** A quotient [n / d] rounded to a multiple [m / s] of [1 / s], with
    [d < 2 * s], has the floor of [n / d], on either side of zero: the
    rounding error is below the distance [1 / d] from a fraction to the
    next integer. *)
Lemma floor_rounded (n d s m : Z) :
  0 <= n -> 0 < d -> 0 < s -> d < 2 * s ->
  2 * (n * s) - d <= 2 * d * m <= 2 * (n * s) + d ->
  m / s = n / d /\ (- m) / s = (- n) / d.
Proof.
  intros Hn Hd Hs Hds Hm.
  pose proof (Z.div_mod n d ltac:(lia)) as E.
  pose proof (Z.mod_pos_bound n d Hd) as B.
  set (q := n / d) in *. set (r := n mod d) in *.
  assert (Hlow : q * s <= m).
  { assert (0 <= d * (2 * (m - q * s) + 1)) by nia. nia. }
  assert (Hup : m < (q + 1) * s).
  { assert (d * (2 * (m - (q + 1) * s)) < 0) by nia. nia. }
  split.
  - symmetry. apply Z.div_unique with (r := m - q * s); lia.
  - destruct (Z.eq_dec r 0) as [Hr | Hr].
    + assert (m = q * s).
      { assert (d * (2 * (m - q * s) - 1) <= 0) by nia. nia. }
      subst m.
      transitivity (- q); [symmetry |];
        apply Z.div_unique with (r := 0); lia.
    + assert (Hlow' : q * s < m).
      { assert (0 < d * (2 * (m - q * s))) by nia. nia. }
      transitivity (- q - 1).
      * symmetry. apply Z.div_unique with (r := (q + 1) * s - m); lia.
      * apply Z.div_unique with (r := d - r); lia.
Qed.

Lemma roundQuotient_floor (a d K : Z) :
  0 < a -> 0 < d -> Z.log2 a - Z.log2 d <= K -> K <= 51 ->
  d < 2 * 2 ^ Z.min (52 - K) 1074 ->
  let '(m, e) := Double.roundQuotient a d in
  e < 0 /\ m / 2 ^ (- e) = a / d /\ (- m) / 2 ^ (- e) = (- a) / d.
Proof.
  intros Ha Hd HK HK51 Hsmall. unfold Double.roundQuotient. cbv zeta.
  set (e := Z.max (Double.log2Quotient a d - 52) (-1074)).
  assert (Hlq : Double.log2Quotient a d <= K).
  { unfold Double.log2Quotient. cbv zeta.
    destruct (Double.atLeastPow2 _ _ _); lia. }
  assert (He : e < 0) by (unfold e; lia).
  assert (Hmin : Z.min (52 - K) 1074 <= - e) by (unfold e; lia).
  destruct (Z.leb_spec 0 e); [lia |].
  split; [exact He |].
  set (s := 2 ^ (- e)).
  assert (Hs : 2 ^ Z.min (52 - K) 1074 <= s)
    by (apply Z.pow_le_mono_r; lia).
  assert (Hs0 : 0 < s) by (apply Z.pow_pos_nonneg; lia).
  apply floor_rounded; try lia.
  apply nearestEven_near; [apply Z.mul_nonneg_nonneg; lia | exact Hd].
Qed.

(** [Math.floor(n / d)] is the floor of the exact quotient when [n / d]
    has at most [K + 1 <= 52] bits in front of the binary point and [d] is
    below twice the unit of the bits behind it. *)
Lemma floorQuotient_exact (n d K : Z) :
  0 < d -> Z.log2 (Z.abs n) - Z.log2 d <= K -> K <= 51 ->
  d < 2 * 2 ^ Z.min (52 - K) 1074 ->
  Double.floorQuotient n d = n / d.
Proof.
  intros Hd HK HK51 Hsmall. unfold Double.floorQuotient.
  destruct (Z.eqb_spec n 0) as [-> | Hn0]; [reflexivity |].
  destruct (Z.ltb_spec 0 n) as [Hpos | Hneg].
  - rewrite Z.abs_eq in HK by lia.
    pose proof (roundQuotient_floor n d K Hpos Hd HK HK51 Hsmall) as H.
    destruct (Double.roundQuotient n d) as [m e].
    destruct H as (He & H & _).
    destruct (Z.leb_spec 0 e); [lia | exact H].
  - rewrite Z.abs_neq in HK by lia.
    pose proof (roundQuotient_floor (- n) d K ltac:(lia) Hd HK HK51 Hsmall)
      as H.
    destruct (Double.roundQuotient (- n) d) as [m e].
    destruct H as (He & _ & H). rewrite Z.opp_involutive in H.
    destruct (Z.leb_spec 0 e); [lia | exact H].
Qed.

Lemma log2_safe (z : Z) :
  Z.abs z <= Double.MAX_SAFE_INTEGER -> Z.log2 (Z.abs z) <= 52.
Proof.
  intros Hz. destruct (Z.eq_dec (Z.abs z) 0) as [-> | Hnz]; [discriminate |].
  assert (Z.log2 (Z.abs z) < 53); [| lia].
  apply Z.log2_lt_pow2; safe_lia.
Qed.

(** Within the safe integers [Math.floor(ms / 60000)] is the floor of the
    exact quotient. *)
Lemma floorQuotient_minutes (ms : Z) :
  Z.abs ms <= Double.MAX_SAFE_INTEGER ->
  Double.floorQuotient ms 60000 = ms / 60000.
Proof.
  intros Hms. apply floorQuotient_exact with (K := 37).
  - lia.
  - pose proof (log2_safe ms Hms). change (Z.log2 60000) with 15. lia.
  - lia.
  - reflexivity.
Qed.

Lemma floorQuotient_seconds (r : Z) :
  Z.abs r < 60000 -> Double.floorQuotient r 1000 = r / 1000.
Proof.
  intros Hr. apply floorQuotient_exact with (K := 6).
  - lia.
  - change (Z.log2 1000) with 9.
    destruct (Z.eq_dec (Z.abs r) 0) as [-> | Hnz]; [discriminate |].
    assert (Z.log2 (Z.abs r) < 16); [| lia].
    apply Z.log2_lt_pow2; [lia |]. change (2 ^ 16) with 65536. lia.
  - lia.
  - reflexivity.
Qed.

Lemma roundInt_safe (z : Z) :
  Z.abs z <= Double.MAX_SAFE_INTEGER -> Double.roundInt z = Double.Int z.
Proof.
  intros Hz. unfold Double.roundInt. cbv zeta.
  destruct (Z.ltb_spec (Z.abs z) (2 ^ 53)); [reflexivity | safe_lia].
Qed.

Lemma toString_safe (z : Z) :
  Z.abs z <= Double.MAX_SAFE_INTEGER ->
  Double.toString (Double.Int z) = JS.toString z.
Proof.
  intros Hz. unfold Double.toString, JS.toString, Double.positiveToString.
  destruct (Z.ltb_spec z 0).
  - destruct (Z.ltb_spec (- z) (2 ^ 53)); [reflexivity | safe_lia].
  - destruct (Z.ltb_spec z (2 ^ 53)); [reflexivity | safe_lia].
Qed.

(** Within the safe integers [msToTimeString] writes what the exact
    computation writes. *)
Lemma msToTimeString_safe (ms : Z) :
  Z.abs ms <= Double.MAX_SAFE_INTEGER ->
  Double.msToTimeString (Double.Int ms) = Helpers.msToTimeString ms.
Proof.
  intros Hms. unfold Double.msToTimeString, Helpers.msToTimeString.
  cbn [Double.floorDiv Double.rem].
  assert (Hr : Z.abs (Z.rem ms 60000) < 60000).
  { apply Z.rem_bound_abs. lia. }
  assert (Hm : Z.abs (Z.rem ms 1000) < 1000).
  { apply Z.rem_bound_abs. lia. }
  rewrite floorQuotient_minutes, floorQuotient_seconds by assumption.
  assert (Hq : Z.abs (ms / 60000) <= Z.abs ms).
  { pose proof (Z.div_mod ms 60000 ltac:(lia)).
    pose proof (Z.mod_pos_bound ms 60000 ltac:(lia)). lia. }
  assert (Hs : Z.abs (Z.rem ms 60000 / 1000) <= 60).
  { pose proof (Z.div_mod (Z.rem ms 60000) 1000 ltac:(lia)).
    pose proof (Z.mod_pos_bound (Z.rem ms 60000) 1000 ltac:(lia)). lia. }
  rewrite !toString_safe by safe_lia.
  reflexivity.
Qed.

(** The sum [parseTimeToMs] computes is exact for a safe time. *)
Lemma timeSum_safe (m s f : Z) :
  Spec.safeTime m s f ->
  Double.add
    (Double.add
       (Double.mul (Double.mul (Double.roundInt m) (Double.Int 60))
          (Double.Int 1000))
       (Double.mul (Double.roundInt s) (Double.Int 1000)))
    (Double.roundInt f)
  = Double.Int (m * 60 * 1000 + s * 1000 + f).
Proof.
  intros Hsafe.
  rewrite !roundInt_safe by safe_lia. cbn [Double.mul].
  rewrite !roundInt_safe by safe_lia. cbn [Double.mul].
  rewrite !roundInt_safe by safe_lia. cbn [Double.add].
  rewrite !roundInt_safe by safe_lia. cbn [Double.add].
  rewrite !roundInt_safe by safe_lia. reflexivity.
Qed.

Lemma roundInt_number (z : Z) : Double.isNaN (Double.roundInt z) = false.
Proof.
  unfold Double.roundInt. cbv zeta.
  destruct (Z.abs z <? 2 ^ 53); [reflexivity |].
  destruct (2 ^ 1024 <=? _); reflexivity.
Qed.

(** [parseTimeToMs] in terms of the three numbers read. *)
Lemma parseTimeToMs_fields (timeString parts0 parts1 : string) :
  JS.split ":" (JS.replaceAll "'" ":" timeString) = [parts0; parts1] ->
  Double.parseTimeToMs timeString
  = match Helpers.timeFields parts0 parts1 with
    | (Some m, Some s, Some f) =>
        Double.add
          (Double.add
             (Double.mul (Double.mul (Double.roundInt m) (Double.Int 60))
                (Double.Int 1000))
             (Double.mul (Double.roundInt s) (Double.Int 1000)))
          (Double.roundInt f)
    | _ => Double.Int 0
    end.
Proof.
  intros Hsplit. unfold Double.parseTimeToMs. cbv zeta. rewrite Hsplit.
  destruct (Helpers.timeFields parts0 parts1) as [[[m |] [s |]] [f |]];
    cbn [Double.ofParsed Double.isNaN orb];
    rewrite ?roundInt_number, ?orb_true_r; reflexivity.
Qed.

(** Where the time read is safe, [parseTimeToMs] returns what the exact
    computation returns. *)
Lemma parseTimeToMs_exact (timeString parts0 parts1 : string) :
  JS.split ":" (JS.replaceAll "'" ":" timeString) = [parts0; parts1] ->
  match Helpers.timeFields parts0 parts1 with
  | (Some m, Some s, Some f) => Spec.safeTime m s f
  | _ => True
  end ->
  Double.parseTimeToMs timeString
  = Double.Int (Helpers.parseTimeToMs timeString).
Proof.
  intros Hsplit Hsafe. rewrite (parseTimeToMs_fields _ _ _ Hsplit).
  unfold Helpers.parseTimeToMs. rewrite Hsplit.
  destruct (Helpers.timeFields parts0 parts1) as [[[m |] [s |]] [f |]];
    try reflexivity.
  now apply timeSum_safe.
Qed.

(** Without exactly two parts the result is 0. *)
Lemma parseTimeToMs_parts (timeString : string) :
  List.length (JS.split ":" (JS.replaceAll "'" ":" timeString)) <> 2%nat ->
  Double.parseTimeToMs timeString = Double.Int 0.
Proof.
  intros Hlen. unfold Double.parseTimeToMs. cbv zeta.
  destruct (JS.split ":" (JS.replaceAll "'" ":" timeString))
    as [| a [| b [| c l]]]; try reflexivity.
  exfalso. apply Hlen. reflexivity.
Qed.

End Doubles.

(** ** [msToTimeString] and [parseTimeToMs] *)

Section TimeStrings.

Lemma seconds_bounds (ms : Z) : 0 <= ms -> 0 <= (ms mod 60000) / 1000 < 60.
Proof.
  intros Hms. pose proof (Z.mod_pos_bound ms 60000 ltac:(lia)).
  split; [apply Z.div_pos; lia | apply Z.div_lt_upper_bound; lia].
Qed.

(** The string [msToTimeString] builds, part by part. *)
Lemma msToTimeString_parts (ms : Z) :
  0 <= ms ->
  Helpers.msToTimeString ms = Spec.timeString (JS.decimal (ms / 60000)) ms.
Proof.
  intros Hms. unfold Helpers.msToTimeString, Spec.timeString.
  rewrite !Z.rem_mod_nonneg by lia.
  pose proof (seconds_bounds ms Hms) as Hs.
  pose proof (Z.mod_pos_bound ms 1000 ltac:(lia)) as Hm.
  rewrite !toString_nonneg by (lia || (apply Z.div_pos; lia)).
  rewrite (padStart_decimal 2) by (simpl; lia).
  rewrite (padStart_decimal 3) by (simpl; lia).
  reflexivity.
Qed.

(** [parseTimeToMs] on a string of the shape [M:S.f] with digits only and a
    fragment [f] of at least three digits. *)
Lemma parseTimeToMs_digits (M S f : string) :
  JS.forallb JS.isDigit M = true -> JS.isEmpty M = false ->
  JS.forallb JS.isDigit S = true -> JS.isEmpty S = false ->
  JS.forallb JS.isDigit f = true -> (3 <= String.length f)%nat ->
  Helpers.parseTimeToMs (M ++ ":" ++ S ++ "." ++ f)
  = JS.digitsValue M * 60 * 1000 + JS.digitsValue S * 1000 + JS.digitsValue f.
Proof.
  intros HM HMne HS HSne Hf Hlen.
  assert (Hfne : JS.isEmpty f = false).
  { destruct f; [simpl in Hlen; lia | reflexivity]. }
  assert (Hclean : JS.replaceAll "'" ":" (M ++ ":" ++ S ++ "." ++ f)
                   = M ++ ":" ++ S ++ "." ++ f).
  { apply replaceAll_absent. absent_from_digits. }
  unfold Helpers.parseTimeToMs. rewrite Hclean.
  change (M ++ ":" ++ S ++ "." ++ f) with (M ++ String ":" (S ++ "." ++ f)).
  rewrite split_first by absent_from_digits.
  rewrite split_absent by absent_from_digits.
  unfold Helpers.timeFields.
  change (S ++ "." ++ f) with (S ++ String "." f).
  rewrite split_first by absent_from_digits.
  rewrite split_absent by absent_from_digits.
  rewrite Hfne, padEnd_char.
  replace (3 - String.length f)%nat with O by lia.
  cbn [Spec.repeatChar]. rewrite append_nil_r.
  rewrite !parseInt_digits by assumption. reflexivity.
Qed.

(** Formatting [ms >= 0] and parsing the result back computes no number
    outside [0 .. ms]: where [ms] is exact in JavaScript, so is every
    step. *)
Lemma roundtrip_within_input (ms : Z) :
  0 <= ms ->
  let minutes := ms / 60000 in
  let seconds := Z.rem ms 60000 / 1000 in
  let milliseconds := Z.rem ms 1000 in
  0 <= minutes <= ms
  /\ 0 <= Z.rem ms 60000 <= ms
  /\ 0 <= seconds < 60
  /\ 0 <= milliseconds < 1000
  /\ 0 <= minutes * 60 <= ms
  /\ 0 <= minutes * 60 * 1000 <= ms
  /\ 0 <= seconds * 1000 <= ms
  /\ minutes * 60 * 1000 + seconds * 1000 <= ms
  /\ minutes * 60 * 1000 + seconds * 1000 + milliseconds = ms.
Proof.
  intros Hms. cbv zeta. rewrite !Z.rem_mod_nonneg by lia.
  pose proof (seconds_bounds ms Hms).
  pose proof (Z.mod_pos_bound ms 60000 ltac:(lia)).
  pose proof (Z.mod_pos_bound ms 1000 ltac:(lia)).
  pose proof (Z.mod_pos_bound (ms mod 60000) 1000 ltac:(lia)).
  pose proof (Z.div_mod ms 60000 ltac:(lia)).
  pose proof (Z.div_mod ms 1000 ltac:(lia)).
  pose proof (Z.div_mod (ms mod 60000) 1000 ltac:(lia)).
  assert (0 <= ms / 60000) by (apply Z.div_pos; lia).
  lia.
Qed.

End TimeStrings.

(** ** The parts of a time string *)

Section TimeParts.

Lemma split_before_after (sep : ascii) (s : string) :
  JS.split sep s
  = Spec.before sep s
    :: match Spec.after sep s with
       | Some t => JS.split sep t
       | None => []
       end.
Proof.
  induction s as [| c s IH]; cbn [JS.split Spec.before Spec.after];
    [reflexivity |].
  destruct (Ascii.eqb c sep); [reflexivity |]. rewrite IH. reflexivity.
Qed.

Lemma split_length (sep : ascii) (s : string) :
  List.length (JS.split sep s) = S (Spec.count sep s).
Proof.
  induction s as [| c s IH]; cbn [JS.split Spec.count]; [reflexivity |].
  destruct (Ascii.eqb c sep); cbn [List.length]; [now rewrite IH |].
  destruct (JS.split sep s); [discriminate | exact IH].
Qed.

Lemma count_after (sep : ascii) (s t : string) :
  Spec.after sep s = Some t -> Spec.count sep s = S (Spec.count sep t).
Proof.
  induction s as [| c s IH]; cbn [Spec.after Spec.count]; [discriminate |].
  destruct (Ascii.eqb c sep); [now intros [= ->] | exact IH].
Qed.

Lemma count_after_None (sep : ascii) (s : string) :
  Spec.after sep s = None <-> Spec.count sep s = O.
Proof.
  induction s as [| c s IH]; cbn [Spec.after Spec.count]; [tauto |].
  destruct (Ascii.eqb c sep); [split; discriminate | exact IH].
Qed.

Lemma before_after_None (sep : ascii) (s : string) :
  Spec.after sep s = None -> Spec.before sep s = s.
Proof.
  induction s as [| c s IH]; cbn [Spec.after Spec.before]; [reflexivity |].
  destruct (Ascii.eqb c sep); [discriminate |].
  intros H. now rewrite IH.
Qed.

(** With exactly one colon the two parts are the minutes component and
    what follows the colon. *)
Lemma split_oneColon (timeString : string) :
  Spec.oneColon timeString = true ->
  JS.split ":" (JS.replaceAll "'" ":" timeString)
  = [Spec.minutesComponent timeString; Spec.afterColon timeString].
Proof.
  unfold Spec.oneColon, Spec.minutesComponent, Spec.afterColon,
    Helpers.formatLapTime.
  set (clean := JS.replaceAll "'" ":" timeString).
  intros H. apply Nat.eqb_eq in H.
  rewrite split_before_after.
  destruct (Spec.after ":" clean) as [r |] eqn:Hr.
  - apply count_after in Hr. rewrite H in Hr. injection Hr as Hr.
    rewrite split_before_after.
    symmetry in Hr. apply count_after_None in Hr.
    rewrite Hr, (before_after_None ":" r Hr). reflexivity.
  - apply count_after_None in Hr. rewrite H in Hr. discriminate.
Qed.

Lemma split_not_oneColon (timeString : string) :
  Spec.oneColon timeString = false ->
  List.length (JS.split ":" (JS.replaceAll "'" ":" timeString)) <> 2%nat.
Proof.
  unfold Spec.oneColon, Helpers.formatLapTime. intros H.
  apply Nat.eqb_neq in H. rewrite split_length. lia.
Qed.

Lemma parseInt_numeric (s : string) :
  Spec.numeric s = false <-> JS.parseInt s = None.
Proof.
  rewrite parseInt_NaN. unfold Spec.numeric. cbv zeta.
  destruct (JS.trimStart s) as [| c r]; [tauto |].
  destruct (Ascii.eqb c "-" || Ascii.eqb c "+").
  - destruct r; tauto.
  - tauto.
Qed.

(** The three numbers [parseTimeToMs] reads are those of the seconds
    component and of the fragment; an empty fragment reads as 0 either
    way. *)
Lemma timeFields_components (timeString : string) :
  Helpers.timeFields (Spec.minutesComponent timeString) (Spec.afterColon timeString)
  = (JS.parseInt (Spec.minutesComponent timeString),
     JS.parseInt (Spec.secondsComponent timeString),
     Spec.fragmentValue timeString).
Proof.
  unfold Helpers.timeFields, Spec.fragmentValue, Spec.fragment,
    Spec.secondsComponent.
  rewrite split_before_after.
  destruct (Spec.after "." (Spec.afterColon timeString)) as [t |];
    cbn [option_map]; [| reflexivity].
  rewrite split_before_after.
  destruct (Spec.before "." t); reflexivity.
Qed.

(** [parseTimeToMs] in terms of the components. *)
Lemma parseTimeToMs_components (timeString : string) :
  Helpers.parseTimeToMs timeString
  = if Spec.oneColon timeString then
      match JS.parseInt (Spec.minutesComponent timeString),
            JS.parseInt (Spec.secondsComponent timeString),
            Spec.fragmentValue timeString with
      | Some minutes, Some seconds, Some milliseconds =>
          minutes * 60000 + seconds * 1000 + milliseconds
      | _, _, _ => 0
      end
    else 0.
Proof.
  unfold Helpers.parseTimeToMs.
  destruct (Spec.oneColon timeString) eqn:Hone.
  - rewrite split_oneColon, timeFields_components by assumption.
    destruct (JS.parseInt (Spec.minutesComponent timeString)) as [m |];
      destruct (JS.parseInt (Spec.secondsComponent timeString)) as [s |];
      destruct (Spec.fragmentValue timeString) as [f |]; try reflexivity.
    lia.
  - apply split_not_oneColon in Hone.
    destruct (JS.split ":" (JS.replaceAll "'" ":" timeString))
      as [| a [| b [| c l]]]; try reflexivity.
    exfalso. apply Hone. reflexivity.
Qed.

End TimeParts.

Section Fragments.

Lemma repeatChar_digits (k : nat) :
  JS.forallb JS.isDigit (Spec.repeatChar "0" k) = true.
Proof.
  induction k as [| k IH]; [reflexivity | exact IH].
Qed.

(** A fragment of digits, padded: one digit counts hundreds, two digits
    count tens, three or more count units. *)
Lemma parseInt_padEnd_digits (f : string) :
  JS.forallb JS.isDigit f = true -> JS.isEmpty f = false ->
  JS.parseInt (JS.padEnd 3 "0" f)
  = Some (JS.digitsValue f * 10 ^ Z.of_nat (3 - String.length f)).
Proof.
  intros Hf Hne. rewrite padEnd_char, parseInt_digits.
  - unfold JS.digitsValue.
    rewrite digitsValueFrom_append, digitsValueFrom_zeros. reflexivity.
  - rewrite forallb_append, Hf, repeatChar_digits. reflexivity.
  - destruct f; [discriminate | reflexivity].
Qed.

End Fragments.

(** ** [getCategoryId] *)

Section Categories.

Lemma removeOutside_class (keep : ascii -> bool) (s : string) :
  JS.forallb keep (JS.removeOutside keep s) = true.
Proof.
  induction s as [| c s IH]; cbn [JS.removeOutside]; [reflexivity |].
  destruct (keep c) eqn:Hc; [| exact IH].
  cbn [JS.forallb]. now rewrite Hc, IH.
Qed.

Lemma removeOutside_append (keep : ascii -> bool) (s t : string) :
  JS.removeOutside keep (s ++ t)
  = JS.removeOutside keep s ++ JS.removeOutside keep t.
Proof.
  induction s as [| c s IH]; cbn [JS.removeOutside append]; [reflexivity |].
  destruct (keep c); cbn [append]; now rewrite IH.
Qed.

(** What is already in the class stays. *)
Lemma removeOutside_fixed (keep : ascii -> bool) (s : string) :
  JS.forallb keep s = true -> JS.removeOutside keep s = s.
Proof.
  induction s as [| c s IH]; cbn [JS.removeOutside JS.forallb]; [reflexivity |].
  rewrite andb_true_iff. intros [Hc Hs]. now rewrite Hc, IH.
Qed.

Lemma toUpperCase_append (s t : string) :
  JS.toUpperCase (s ++ t) = JS.toUpperCase s ++ JS.toUpperCase t.
Proof.
  induction s as [| c s IH]; cbn [JS.toUpperCase append]; [reflexivity |].
  now rewrite IH, append_assoc.
Qed.

(** The letters [A-Z] and the digits are their own capitals. *)
Lemma toUpperCase_class (s : string) :
  JS.forallb JS.isUpperOrDigit s = true -> JS.toUpperCase s = s.
Proof.
  induction s as [| c s IH]; cbn [JS.toUpperCase JS.forallb]; [reflexivity |].
  rewrite andb_true_iff. intros [Hc Hs]. rewrite IH by assumption.
  unfold JS.isUpperOrDigit, JS.isUpper, JS.isDigit in Hc.
  unfold JS.upperOf.
  destruct (Z.leb_spec 97 (JS.code c)), (Z.leb_spec 224 (JS.code c)),
    (Z.eqb_spec (JS.code c) 223), (Z.leb_spec 65 (JS.code c)),
    (Z.leb_spec (JS.code c) 90), (Z.leb_spec 48 (JS.code c)),
    (Z.leb_spec (JS.code c) 57);
    cbn [andb orb] in *; try discriminate; try reflexivity; lia.
Qed.

Lemma normalizedName_append (s t : string) :
  Helpers.normalizedName (s ++ t)
  = Helpers.normalizedName s ++ Helpers.normalizedName t.
Proof.
  unfold Helpers.normalizedName.
  now rewrite toUpperCase_append, removeOutside_append.
Qed.

(** A character whose capital has nothing in [[A-Z0-9]] (a space, a
    hyphen, ...) is ignored wherever it stands. *)
Lemma normalizedName_ignores (s t : string) (c : ascii) :
  JS.removeOutside JS.isUpperOrDigit (JS.upperOf c) = EmptyString ->
  Helpers.normalizedName (s ++ String c t) = Helpers.normalizedName (s ++ t).
Proof.
  intros Hc. rewrite !normalizedName_append. f_equal.
  change (String c t) with (String c EmptyString ++ t).
  rewrite normalizedName_append. unfold Helpers.normalizedName at 1.
  cbn [JS.toUpperCase]. rewrite append_nil_r, Hc. reflexivity.
Qed.

(** Normalising twice is normalising once. *)
Lemma normalizedName_idempotent (name : string) :
  Helpers.normalizedName (Helpers.normalizedName name)
  = Helpers.normalizedName name.
Proof.
  unfold Helpers.normalizedName at 1.
  pose proof (removeOutside_class JS.isUpperOrDigit (JS.toUpperCase name)) as H.
  fold (Helpers.normalizedName name) in H.
  rewrite toUpperCase_class, removeOutside_fixed by assumption. reflexivity.
Qed.

End Categories.

(** C8.  [getCategoryId name] works on the normalised name, [name] in upper
    case with every character outside [[A-Z0-9]] deleted: it returns the
    MOTOGP, MOTO2, MOTO3 or MOTOE identifier exactly when the normalised
    name is ["MOTOGP"], ["MOTO2"], ["MOTO3"] or ["MOTOE"], and nothing
    ([undefined], no error) for every other input.  So ["MotoGP"],
    ["motogp"] and ["MOTO GP"] all give the MotoGP identifier and ["F1"]
    gives nothing. *)
Theorem getCategoryId_normalized :
  (forall name : string,
      let normalized :=
        JS.removeOutside JS.isUpperOrDigit (JS.toUpperCase name) in
      JS.forallb JS.isUpperOrDigit normalized = true
      /\ (Helpers.getCategoryId name = Some Helpers.CATEGORY_IDS.MOTOGP
          <-> normalized = "MOTOGP")
      /\ (Helpers.getCategoryId name = Some Helpers.CATEGORY_IDS.MOTO2
          <-> normalized = "MOTO2")
      /\ (Helpers.getCategoryId name = Some Helpers.CATEGORY_IDS.MOTO3
          <-> normalized = "MOTO3")
      /\ (Helpers.getCategoryId name = Some Helpers.CATEGORY_IDS.MOTOE
          <-> normalized = "MOTOE")
      /\ (Helpers.getCategoryId name = None
          <-> normalized <> "MOTOGP" /\ normalized <> "MOTO2"
              /\ normalized <> "MOTO3" /\ normalized <> "MOTOE"))
  /\ Helpers.getCategoryId "MotoGP" = Some Helpers.CATEGORY_IDS.MOTOGP
  /\ Helpers.getCategoryId "motogp" = Some Helpers.CATEGORY_IDS.MOTOGP
  /\ Helpers.getCategoryId "MOTO GP" = Some Helpers.CATEGORY_IDS.MOTOGP
  /\ Helpers.getCategoryId "F1" = None.
Proof.
  split; [| repeat split; reflexivity].
  intros name normalized.
  split; [apply removeOutside_class |].
  unfold Helpers.getCategoryId, Helpers.normalizedName.
  fold normalized.
  destruct (String.eqb_spec normalized "MOTOGP") as [-> | H1];
    [repeat split; (congruence || discriminate || tauto) |].
  destruct (String.eqb_spec normalized "MOTO2") as [-> | H2];
    [repeat split; (congruence || discriminate || tauto) |].
  destruct (String.eqb_spec normalized "MOTO3") as [-> | H3];
    [repeat split; (congruence || discriminate || tauto) |].
  destruct (String.eqb_spec normalized "MOTOE") as [-> | H4];
    [repeat split; (congruence || discriminate || tauto) |].
  repeat split; (congruence || discriminate || tauto).
Qed.

(** ** The client *)

(** C9.  The constructor takes each field as the option value or else the
    default, so a falsy value is replaced like a missing one: timeout 0
    gives 10000, an empty [baseURL] or [userAgent] gives the default base
    URL or User-Agent; any other value is kept. *)
Theorem constructor_falsy_defaults :
  (forall options : Client.ClientOptions,
      let client := Client.constructor (Some options) in
      (Client.options_timeout options = None
       \/ Client.options_timeout options = Some 0 ->
       Client.timeout client = 10000)
      /\ (forall n : Z,
             Client.options_timeout options = Some n -> n <> 0 ->
             Client.timeout client = n)
      /\ (Client.options_baseURL options = None
          \/ Client.options_baseURL options = Some "" ->
          Client.baseURL client = Client.DEFAULT_BASE_URL)
      /\ (forall s : string,
             Client.options_baseURL options = Some s -> s <> "" ->
             Client.baseURL client = s)
      /\ (Client.options_userAgent options = None
          \/ Client.options_userAgent options = Some "" ->
          Client.userAgent client = Client.DEFAULT_USER_AGENT)
      /\ (forall s : string,
             Client.options_userAgent options = Some s -> s <> "" ->
             Client.userAgent client = s))
  /\ Client.constructor None
     = Client.mkMotoGPClient Client.DEFAULT_BASE_URL 10000
         Client.DEFAULT_USER_AGENT
  /\ Client.timeout
       (Client.constructor
          (Some (Client.mkClientOptions None (Some 0) None))) = 10000
  /\ Client.baseURL
       (Client.constructor
          (Some (Client.mkClientOptions (Some "") None None)))
     = "https://api.motogp.pulselive.com/motogp/v1/"
  /\ Client.userAgent
       (Client.constructor
          (Some (Client.mkClientOptions None None (Some ""))))
     = Client.DEFAULT_USER_AGENT.
Proof.
  split; [| repeat split; reflexivity].
  intros [optBase optTimeout optAgent] client. subst client.
  cbn [Client.constructor Client.options_timeout Client.options_baseURL
         Client.options_userAgent Client.timeout Client.baseURL
         Client.userAgent].
  repeat split.
  - intros [-> | ->]; reflexivity.
  - intros n -> Hn. cbn [Client.numberOr].
    destruct (Z.eqb_spec n 0); [contradiction | reflexivity].
  - intros [-> | ->]; reflexivity.
  - intros s -> Hs. destruct s; [contradiction | reflexivity].
  - intros [-> | ->]; reflexivity.
  - intros s -> Hs. destruct s; [contradiction | reflexivity].
Qed.

Lemma constructor_falsy_defaults_witness :
  (Client.options_timeout (Client.mkClientOptions (Some "") (Some 0) None) = None
   \/ Client.options_timeout (Client.mkClientOptions (Some "") (Some 0) None)
      = Some 0)
  /\ Client.timeout
       (Client.constructor
          (Some (Client.mkClientOptions (Some "") (Some 0) None))) = 10000.
Proof.
  split; [right; reflexivity |].
  exact (proj1 (proj1 constructor_falsy_defaults
                  (Client.mkClientOptions (Some "") (Some 0) None))
           (or_intror eq_refl)).
Defined.

Section Requests.

Variable newURL : string -> string -> Client.Completion Client.URL.
Variable network : nat -> Client.RequestOptions -> Client.RequestOutcome.

(** One run of [makeRequest], by what the network answers. *)
Lemma makeRequest_run
  (self : Client.MotoGPClient) (endpoint : string)
  (searchParams : option (list (string * Client.ParamValue)))
  (w : Client.World) (url0 : Client.URL) :
  newURL endpoint (Client.baseURL self) = Client.Returned url0 ->
  let url := Client.applySearchParams url0 searchParams in
  Client.makeRequest newURL network self endpoint searchParams w
  = match network (List.length (Client.sent w)) (Client.requestOptions self url) with
    | Client.RequestThrows error =>
        Client.normalizeError error (ClientSpec.afterRequest self url w)
    | Client.Response statusCode body =>
        if statusCode =? 200 then
          match body with
          | Client.BodyJson data => (Client.Returned data, ClientSpec.afterRequest self url w)
          | Client.BodyThrows error =>
              Client.normalizeError error (ClientSpec.afterRequest self url w)
          end
        else
          Client.normalizeError (Client.statusError statusCode)
            (ClientSpec.afterRequest self url w)
    end.
Proof.
  intros Hurl url.
  unfold Client.makeRequest, Client.bind, Client.constructURL. rewrite Hurl.
  fold url. unfold Client.tryCatch, Client.consoleLog, Client.request.
  cbn [Client.sent Client.console].
  destruct (network (List.length (Client.sent w)) (Client.requestOptions self url))
    as [error | statusCode body]; [reflexivity |].
  destruct (statusCode =? 200); cbn [negb]; [| reflexivity].
  destruct body; reflexivity.
Qed.

(** Whatever the outcome, the call hands exactly one request to the
    transport. *)
Lemma makeRequest_sent
  (self : Client.MotoGPClient) (endpoint : string)
  (searchParams : option (list (string * Client.ParamValue)))
  (w : Client.World) (url0 : Client.URL) :
  newURL endpoint (Client.baseURL self) = Client.Returned url0 ->
  Client.sent
    (snd (Client.makeRequest newURL network self endpoint searchParams w))
  = (Client.sent w
     ++ [Client.requestOptions self
           (Client.applySearchParams url0 searchParams)])%list.
Proof.
  intros Hurl. rewrite (makeRequest_run self endpoint searchParams w url0 Hurl).
  cbv zeta.
  assert (Hnorm : forall e w', snd (Client.normalizeError e w') = w').
  { intros e w'. unfold Client.normalizeError.
    destruct (Client.truthy e && Client.typeofObject e
              && Client.hasProperty "message" e); reflexivity. }
  destruct (network _ _) as [error | statusCode body].
  - rewrite Hnorm. reflexivity.
  - destruct (statusCode =? 200); [destruct body |]; rewrite ?Hnorm; reflexivity.
Qed.

End Requests.

(** ** Query parameters *)

Section SearchParams.

Lemma assoc_notin {A : Type} (key : string) (l : list (string * A)) :
  ~ In key (map fst l) <-> Client.assoc key l = None.
Proof.
  induction l as [| [k v] l IH]; cbn [Client.assoc map fst In]; [tauto |].
  destruct (String.eqb_spec k key) as [-> | Hne].
  - split; [tauto | discriminate].
  - rewrite <- IH. tauto.
Qed.

Lemma assoc_in {A : Type} (key : string) (value : A) (l : list (string * A)) :
  NoDup (map fst l) -> In (key, value) l -> Client.assoc key l = Some value.
Proof.
  induction l as [| [k v] l IH]; cbn [Client.assoc map fst In]; [tauto |].
  intros Hnd [Heq | Hin].
  - injection Heq as -> ->. now rewrite String.eqb_refl.
  - inversion Hnd as [| ? ? Hk Hl]; subst.
    destruct (String.eqb_spec k key) as [-> | Hne]; [| now apply IH].
    exfalso. apply Hk. apply (in_map fst) in Hin. exact Hin.
Qed.

Lemma assoc_removeName (key name : string) (l : list (string * string)) :
  name <> key ->
  Client.assoc key (Client.removeName name l) = Client.assoc key l.
Proof.
  intros Hne. unfold Client.removeName.
  induction l as [| [k v] l IH]; cbn [filter Client.assoc fst]; [reflexivity |].
  destruct (String.eqb_spec k name) as [-> | Hk]; cbn [negb Client.assoc].
  - destruct (String.eqb_spec name key); [contradiction | exact IH].
  - now rewrite IH.
Qed.

(** After [set(name, value)] the name has that value and every other name
    has what it had. *)
Lemma assoc_setTuple (key name value : string) (l : list (string * string)) :
  Client.assoc key (Client.setTuple name value l)
  = if String.eqb name key then Some value else Client.assoc key l.
Proof.
  induction l as [| [k v] l IH]; cbn [Client.setTuple Client.assoc fst].
  - destruct (String.eqb name key); reflexivity.
  - destruct (String.eqb_spec k name) as [-> | Hk]; cbn [Client.assoc].
    + destruct (String.eqb_spec name key) as [| Hne]; [reflexivity |].
      now apply assoc_removeName.
    + rewrite IH. destruct (String.eqb_spec name key) as [<- | ].
      * destruct (String.eqb_spec k name); [contradiction | reflexivity].
      * reflexivity.
Qed.

(** A new name goes to the end of the list. *)
Lemma setTuple_fresh (name value : string) (l : list (string * string)) :
  Client.assoc name l = None ->
  Client.setTuple name value l = (l ++ [(name, value)])%list.
Proof.
  induction l as [| [k v] l IH]; cbn [Client.setTuple Client.assoc fst app];
    [reflexivity |].
  destruct (String.eqb k name); [discriminate |].
  intros H. now rewrite IH.
Qed.

Lemma assoc_setParam (key : string) (url : Client.URL)
  (entry : string * Client.ParamValue) :
  Client.assoc key (Client.searchParams (Client.setParam url entry))
  = if String.eqb (fst entry) key && Client.isDefined (snd entry)
    then Some (Client.String_of (snd entry))
    else Client.assoc key (Client.searchParams url).
Proof.
  destruct entry as [k v]. cbn [Client.setParam fst snd].
  destruct (Client.isDefined v).
  - cbn [Client.searchParams_set Client.searchParams].
    rewrite assoc_setTuple, andb_true_r. reflexivity.
  - now rewrite andb_false_r.
Qed.

(** What the loop leaves under each name, for a map (no name twice). *)
Lemma assoc_fold_setParam (key : string)
  (entries : list (string * Client.ParamValue)) (url : Client.URL) :
  NoDup (map fst entries) ->
  Client.assoc key (Client.searchParams (fold_left Client.setParam entries url))
  = match Client.assoc key entries with
    | Some value =>
        if Client.isDefined value then Some (Client.String_of value)
        else Client.assoc key (Client.searchParams url)
    | None => Client.assoc key (Client.searchParams url)
    end.
Proof.
  revert url. induction entries as [| [k v] entries IH]; intros url Hnd;
    [reflexivity |].
  cbn [map fst] in Hnd. inversion Hnd as [| ? ? Hk Hl]; subst.
  cbn [fold_left Client.assoc]. rewrite IH by assumption.
  rewrite assoc_setParam. cbn [fst snd].
  destruct (String.eqb_spec k key) as [-> | Hne]; cbn [andb].
  - apply assoc_notin in Hk. rewrite Hk.
    destruct (Client.isDefined v); reflexivity.
  - reflexivity.
Qed.

(** Starting from tuples that share no name with the map, the loop appends
    the kept entries in order. *)
Lemma searchParams_fold_setParam
  (entries : list (string * Client.ParamValue)) (url : Client.URL) :
  NoDup (map fst entries) ->
  (forall key, In key (map fst entries) ->
               Client.assoc key (Client.searchParams url) = None) ->
  Client.searchParams (fold_left Client.setParam entries url)
  = (Client.searchParams url
     ++ map ClientSpec.tupleOf (ClientSpec.kept entries))%list.
Proof.
  revert url. induction entries as [| [k v] entries IH]; intros url Hnd Hfresh.
  - cbn. now rewrite app_nil_r.
  - cbn [map fst] in Hnd, Hfresh. inversion Hnd as [| ? ? Hk Hl]; subst.
    cbn [fold_left]. rewrite IH; [| assumption |].
    + unfold ClientSpec.kept. cbn [filter snd Client.setParam].
      destruct (Client.isDefined v); [| reflexivity].
      cbn [Client.searchParams_set Client.searchParams map].
      rewrite setTuple_fresh by (apply Hfresh; left; reflexivity).
      rewrite <- app_assoc. reflexivity.
    + intros key Hin. rewrite assoc_setParam. cbn [fst snd].
      destruct (String.eqb_spec k key) as [-> | Hne]; [contradiction |].
      apply Hfresh. right. exact Hin.
Qed.

Lemma isEmpty_append (s t : string) :
  JS.isEmpty (s ++ t) = JS.isEmpty s && JS.isEmpty t.
Proof.
  destruct s; reflexivity.
Qed.

(** A list with a tuple in it never serialises to the empty string. *)
Lemma urlencodedSerialize_nonempty (t : string * string)
  (l : list (string * string)) :
  JS.isEmpty (Client.urlencodedSerialize (t :: l)) = false.
Proof.
  unfold Client.urlencodedSerialize. cbn [map String.concat].
  destruct (map _ l); rewrite !isEmpty_append; cbn [JS.isEmpty];
    rewrite ?andb_false_r; reflexivity.
Qed.

Lemma setTuple_cons (name value : string) (l : list (string * string)) :
  exists t r, Client.setTuple name value l = t :: r.
Proof.
  destruct l as [| [k v] l]; cbn [Client.setTuple fst]; [eauto |].
  destruct (String.eqb k name); eauto.
Qed.

(** After a [set] the query is the serialisation of the tuples. *)
Lemma searchParams_set_query (name value : string) (url : Client.URL) :
  Client.query (Client.searchParams_set name value url)
  = Some (Client.urlencodedSerialize
            (Client.searchParams (Client.searchParams_set name value url))).
Proof.
  cbn [Client.searchParams_set Client.query Client.searchParams].
  destruct (setTuple_cons name value (Client.searchParams url)) as (t & r & ->).
  now rewrite urlencodedSerialize_nonempty.
Qed.

Lemma fold_setParam_query
  (entries : list (string * Client.ParamValue)) (url : Client.URL) :
  Client.query url
  = Some (Client.urlencodedSerialize (Client.searchParams url))
    \/ ClientSpec.kept entries <> [] ->
  Client.query (fold_left Client.setParam entries url)
  = Some (Client.urlencodedSerialize
            (Client.searchParams (fold_left Client.setParam entries url))).
Proof.
  revert url. induction entries as [| [k v] entries IH]; intros url H.
  - destruct H as [H | H]; [exact H | contradiction].
  - cbn [fold_left]. apply IH.
    unfold ClientSpec.kept in H. cbn [filter snd Client.setParam] in *.
    destruct (Client.isDefined v).
    + left. apply searchParams_set_query.
    + destruct H as [H | H]; [left; exact H | right; exact H].
Qed.

Lemma fold_setParam_none
  (entries : list (string * Client.ParamValue)) (url : Client.URL) :
  ClientSpec.kept entries = [] -> fold_left Client.setParam entries url = url.
Proof.
  revert url. induction entries as [| [k v] entries IH]; intros url H;
    [reflexivity |].
  unfold ClientSpec.kept in H. cbn [filter snd] in H.
  cbn [fold_left Client.setParam].
  destruct (Client.isDefined v); [discriminate | now apply IH].
Qed.

End SearchParams.

(** ** The request pipeline *)

Section Errors.

(** The [catch] clause surfaces a value that carries a description as it
    is, and the fall-back error for every other value; the branch that
    would copy the message of an [Error] without a message is never
    taken.  It leaves the world as it is. *)
Lemma normalizeError_description (error : Client.JsValue) (w : Client.World) :
  Client.normalizeError error w
  = (Client.Thrown
       (match ClientSpec.description error with
        | Some _ => error
        | None =>
            Client.JsObject false
              [("message", Client.JsString "Unknown error occurred")]
        end), w).
Proof.
  unfold Client.normalizeError.
  destruct error as [| | b | n | s | items | isError props];
    cbn [Client.truthy Client.typeofObject Client.hasProperty andb
           ClientSpec.description Client.instanceofError];
    rewrite ?andb_false_r; try reflexivity.
  destruct (Client.assoc "message" props); [reflexivity |].
  destruct isError; reflexivity.
Qed.

Lemma description_message (error m : Client.JsValue) :
  ClientSpec.description error = Some m ->
  Client.getProperty "message" error = m.
Proof.
  destruct error as [| | b | n | s | items | isError props]; try discriminate.
  cbn [ClientSpec.description Client.getProperty].
  destruct (Client.assoc "message" props); [now intros [= ->] |].
  destruct isError; [now intros [= <-] | discriminate].
Qed.

End Errors.

(** C3.  When the response has a status code other than 200, [makeRequest]
    fails with an error that carries that status code and the message
    ["HTTP {status}: Not Found"] for 404 and ["HTTP {status}: Request
    Failed"] for every other code.  A 200 response does not produce this
    error: the call returns the decoded body, and when it fails, then with
    what reading the body threw. *)
Theorem makeRequest_status_error
  (newURL : string -> string -> Client.Completion Client.URL)
  (network : nat -> Client.RequestOptions -> Client.RequestOutcome)
  (self : Client.MotoGPClient) (endpoint : string)
  (searchParams : option (list (string * Client.ParamValue)))
  (w : Client.World) (url0 : Client.URL)
  (statusCode : Z) (body : Client.BodyOutcome) :
  newURL endpoint (Client.baseURL self) = Client.Returned url0 ->
  network (List.length (Client.sent w))
    (Client.requestOptions self (Client.applySearchParams url0 searchParams))
  = Client.Response statusCode body ->
  let result :=
    fst (Client.makeRequest newURL network self endpoint searchParams w) in
  (statusCode = 404 ->
   result
   = Client.Thrown
       (Client.JsObject false
          [("message", Client.JsString "HTTP 404: Not Found");
           ("status", Client.JsNumber 404)]))
  /\ (statusCode <> 200 -> statusCode <> 404 ->
      result
      = Client.Thrown
          (Client.JsObject false
             [("message",
               Client.JsString
                 ("HTTP " ++ JS.toString statusCode ++ ": Request Failed"));
              ("status", Client.JsNumber statusCode)]))
  /\ (statusCode = 200 ->
      match body with
      | Client.BodyJson data => result = Client.Returned data
      | Client.BodyThrows error =>
          forall status : Z,
            result = Client.Thrown (Client.statusError status) ->
            error = Client.statusError status
      end).
Proof.
  intros Hurl Hnet result. subst result.
  rewrite (makeRequest_run newURL network self endpoint searchParams w url0 Hurl).
  cbv zeta. rewrite Hnet.
  split; [| split].
  - intros ->. reflexivity.
  - intros H200 H404.
    destruct (Z.eqb_spec statusCode 200) as [| _]; [contradiction |].
    rewrite normalizeError_description. cbn [fst].
    unfold Client.statusError.
    destruct (Z.eqb_spec statusCode 404) as [| _]; [contradiction |].
    reflexivity.
  - intros ->. cbn [Z.eqb Pos.eqb]. destruct body as [data | error];
      [reflexivity |].
    intros status. rewrite normalizeError_description. cbn [fst].
    destruct (ClientSpec.description error).
    + now intros [= ->].
    + discriminate.
Qed.

Lemma makeRequest_status_error_witness :
  fst (Client.makeRequest Example.joinURL Example.unavailable
         (Client.constructor None)
         "results/seasons" None Example.emptyWorld)
  = Client.Thrown
      (Client.JsObject false
         [("message", Client.JsString "HTTP 503: Request Failed");
          ("status", Client.JsNumber 503)]).
Proof.
  refine (proj1 (proj2
            (makeRequest_status_error Example.joinURL Example.unavailable
               (Client.constructor None) "results/seasons" None
               Example.emptyWorld _ 503 (Client.BodyJson Client.JsNull)
               eq_refl eq_refl)) _ _); discriminate.
Defined.

(** C4.  When the transport fails, that is, [request] throws before there
    is a response or reading the body of a 200 response throws, and what
    is thrown carries no status code, [makeRequest] fails with an error
    without status code whose message is the description of what was
    thrown, or ["Unknown error occurred"] when that carries none.  The call
    has then handed exactly one request to the transport: nothing is
    retried. *)
Theorem makeRequest_transport_failure
  (newURL : string -> string -> Client.Completion Client.URL)
  (network : nat -> Client.RequestOptions -> Client.RequestOutcome)
  (self : Client.MotoGPClient) (endpoint : string)
  (searchParams : option (list (string * Client.ParamValue)))
  (w : Client.World) (url0 : Client.URL) (error : Client.JsValue) :
  newURL endpoint (Client.baseURL self) = Client.Returned url0 ->
  let url := Client.applySearchParams url0 searchParams in
  network (List.length (Client.sent w)) (Client.requestOptions self url)
  = Client.RequestThrows error
  \/ network (List.length (Client.sent w)) (Client.requestOptions self url)
     = Client.Response 200 (Client.BodyThrows error) ->
  ClientSpec.statusOf error = None ->
  exists surfaced : Client.JsValue,
    Client.makeRequest newURL network self endpoint searchParams w
    = (Client.Thrown surfaced, ClientSpec.afterRequest self url w)
    /\ ClientSpec.statusOf surfaced = None
    /\ Client.getProperty "message" surfaced
       = match ClientSpec.description error with
         | Some message => message
         | None => Client.JsString "Unknown error occurred"
         end
    /\ Client.sent (ClientSpec.afterRequest self url w)
       = (Client.sent w ++ [Client.requestOptions self url])%list.
Proof.
  intros Hurl url Hnet Hstatus.
  exists (match ClientSpec.description error with
          | Some _ => error
          | None =>
              Client.JsObject false
                [("message", Client.JsString "Unknown error occurred")]
          end).
  split; [| split; [| split]].
  - rewrite (makeRequest_run newURL network self endpoint searchParams w url0 Hurl).
    cbv zeta. fold url.
    destruct Hnet as [-> | ->]; apply normalizeError_description.
  - destruct (ClientSpec.description error); [exact Hstatus | reflexivity].
  - destruct (ClientSpec.description error) as [m |] eqn:Hd;
      [now apply description_message | reflexivity].
  - reflexivity.
Qed.

Lemma makeRequest_transport_failure_witness :
  exists surfaced : Client.JsValue,
    Client.makeRequest Example.joinURL Example.unreachable
      (Client.constructor None) "results/seasons" None Example.emptyWorld
    = (Client.Thrown surfaced,
       ClientSpec.afterRequest (Client.constructor None)
         (Client.mkURL
            "https://api.motogp.pulselive.com/motogp/v1/results/seasons"
            None None [])
         Example.emptyWorld)
    /\ ClientSpec.statusOf surfaced = None
    /\ Client.getProperty "message" surfaced
       = Client.JsString "Connect Timeout Error"
    /\ Client.sent
         (ClientSpec.afterRequest (Client.constructor None)
            (Client.mkURL
               "https://api.motogp.pulselive.com/motogp/v1/results/seasons"
               None None [])
            Example.emptyWorld)
       = [Client.requestOptions (Client.constructor None)
            (Client.mkURL
               "https://api.motogp.pulselive.com/motogp/v1/results/seasons"
               None None [])].
Proof.
  exact (makeRequest_transport_failure Example.joinURL Example.unreachable
           (Client.constructor None) "results/seasons" None Example.emptyWorld
           _ Example.connectTimeout eq_refl (or_introl eq_refl) eq_refl).
Defined.

Section QueryTuples.

Lemma safeNumbers_in (entries : list (string * Client.ParamValue))
  (key : string) (n : Z) :
  ClientSpec.safeNumbers entries = true ->
  In (key, Client.PNumber n) entries ->
  Z.abs n <= Double.MAX_SAFE_INTEGER.
Proof.
  intros Hsafe Hin. unfold ClientSpec.safeNumbers in Hsafe.
  rewrite forallb_forall in Hsafe. specialize (Hsafe _ Hin).
  cbn [snd] in Hsafe. now apply Z.leb_le.
Qed.

(** The entries the loop keeps, written by [String], are the tuples the
    specification asks for. *)
Lemma kept_queryTuples (entries : list (string * Client.ParamValue)) :
  ClientSpec.safeNumbers entries = true ->
  map ClientSpec.tupleOf (ClientSpec.kept entries)
  = ClientSpec.queryTuples entries.
Proof.
  induction entries as [| [key value] rest IH]; [reflexivity |].
  intros Hsafe. cbn [ClientSpec.safeNumbers List.forallb snd] in Hsafe.
  apply andb_true_iff in Hsafe as [Hn Hrest].
  specialize (IH Hrest). unfold ClientSpec.kept in *.
  cbn [filter snd ClientSpec.queryTuples].
  destruct value as [s | n | [|] | |];
    cbn [Client.isDefined map ClientSpec.tupleOf fst snd Client.String_of];
    rewrite ?IH; try reflexivity.
  rewrite toString_safe by now apply Z.leb_le. reflexivity.
Qed.

End QueryTuples.

(** C5.  For a parameter map (no name twice) given by its entries, whose
    numbers are safe integers: an entry with a string leaves that string
    in the URL's query under its name, an entry with a number the number's
    decimal numeral [String(n)], an entry with a boolean the word [true]
    or [false]; an entry whose value is [undefined] or [null] leaves no
    trace, and a name outside the map keeps what the URL had.  On a URL
    that had no query the tuples are exactly those of the entries that are
    neither [undefined] nor [null], in order, and the query string is their
    serialisation; with no such entry, and without a map, the URL is
    unchanged.  So the map
    [{categoryUuid: "a b", test: undefined, seasonYear: 2024, page: null,
    live: false}] gives [?categoryUuid=a+b&seasonYear=2024&live=false].
    This URL is the one requested. *)
Theorem makeRequest_searchParams :
  (forall (url : Client.URL) (entries : list (string * Client.ParamValue)),
      NoDup (map fst entries) ->
      ClientSpec.safeNumbers entries = true ->
      let url' := Client.applySearchParams url (Some entries) in
      (forall key s,
          In (key, Client.PString s) entries ->
          Client.assoc key (Client.searchParams url') = Some s)
      /\ (forall key n,
             In (key, Client.PNumber n) entries ->
             Client.assoc key (Client.searchParams url')
             = Some (Double.toString (Double.Int n)))
      /\ (forall key,
             In (key, Client.PBoolean true) entries ->
             Client.assoc key (Client.searchParams url') = Some "true")
      /\ (forall key,
             In (key, Client.PBoolean false) entries ->
             Client.assoc key (Client.searchParams url') = Some "false")
      /\ (forall key,
             In (key, Client.PUndefined) entries
             \/ In (key, Client.PNull) entries ->
             Client.assoc key (Client.searchParams url')
             = Client.assoc key (Client.searchParams url))
      /\ (forall key,
             ~ In key (map fst entries) ->
             Client.assoc key (Client.searchParams url')
             = Client.assoc key (Client.searchParams url))
      /\ (Client.searchParams url = [] ->
          Client.searchParams url' = ClientSpec.queryTuples entries)
      /\ (Client.searchParams url = [] ->
          ClientSpec.queryTuples entries <> [] ->
          Client.query url'
          = Some (Client.urlencodedSerialize (ClientSpec.queryTuples entries)))
      /\ (ClientSpec.queryTuples entries = [] -> url' = url))
  /\ (forall url : Client.URL, Client.applySearchParams url None = url)
  /\ Client.URL_toString
       (Client.applySearchParams
          (Client.mkURL "https://host/teams" None None [])
          (Some [("categoryUuid", Client.PString "a b");
                 ("test", Client.PUndefined);
                 ("seasonYear", Client.PNumber 2024);
                 ("page", Client.PNull);
                 ("live", Client.PBoolean false)]))
     = "https://host/teams?categoryUuid=a+b&seasonYear=2024&live=false"
  /\ (forall newURL network self endpoint searchParams w url,
         newURL endpoint (Client.baseURL self) = Client.Returned url ->
         exists options : Client.RequestOptions,
           Client.sent
             (snd (Client.makeRequest newURL network self endpoint
                     searchParams w))
           = (Client.sent w ++ [options])%list
           /\ Client.request_url options
              = Client.URL_toString
                  (Client.applySearchParams url searchParams)).
Proof.
  split; [| split; [| split]].
  - intros url entries Hnd Hsafe url'. subst url'.
    cbn [Client.applySearchParams].
    pose proof (kept_queryTuples entries Hsafe) as Hkept.
    assert (Hset : forall key value,
               In (key, value) entries -> Client.isDefined value = true ->
               Client.assoc key
                 (Client.searchParams (fold_left Client.setParam entries url))
               = Some (Client.String_of value)).
    { intros key value Hin Hdef.
      rewrite assoc_fold_setParam, (assoc_in key value entries), Hdef
        by assumption.
      reflexivity. }
    assert (Hskip : forall key value,
               In (key, value) entries -> Client.isDefined value = false ->
               Client.assoc key
                 (Client.searchParams (fold_left Client.setParam entries url))
               = Client.assoc key (Client.searchParams url)).
    { intros key value Hin Hdef.
      rewrite assoc_fold_setParam, (assoc_in key value entries), Hdef
        by assumption.
      reflexivity. }
    repeat split.
    + intros key s Hin. exact (Hset _ _ Hin eq_refl).
    + intros key n Hin. rewrite (Hset _ _ Hin eq_refl).
      cbn [Client.String_of].
      rewrite toString_safe by exact (safeNumbers_in _ _ _ Hsafe Hin).
      reflexivity.
    + intros key Hin. exact (Hset _ _ Hin eq_refl).
    + intros key Hin. exact (Hset _ _ Hin eq_refl).
    + intros key [Hin | Hin]; exact (Hskip _ _ Hin eq_refl).
    + intros key Hout. apply assoc_notin in Hout.
      rewrite assoc_fold_setParam, Hout by assumption. reflexivity.
    + intros Hempty. rewrite searchParams_fold_setParam, Hempty.
      * exact Hkept.
      * assumption.
      * intros key _. rewrite Hempty. reflexivity.
    + intros Hempty Hsome. rewrite fold_setParam_query.
      * rewrite searchParams_fold_setParam, Hempty;
          [now rewrite Hkept | assumption |].
        intros key _. rewrite Hempty. reflexivity.
      * right. intros Hnone. apply Hsome. rewrite <- Hkept, Hnone.
        reflexivity.
    + intros Hnone. apply fold_setParam_none.
      rewrite <- Hkept in Hnone.
      destruct (ClientSpec.kept entries); [reflexivity | discriminate].
  - reflexivity.
  - reflexivity.
  - intros newURL network self endpoint searchParams w url Hurl.
    exists (Client.requestOptions self
              (Client.applySearchParams url searchParams)).
    split; [| reflexivity].
    now apply makeRequest_sent.
Qed.

Lemma makeRequest_searchParams_witness :
  NoDup (map fst Example.teamsParams)
  /\ ClientSpec.safeNumbers Example.teamsParams = true
  /\ Client.searchParams
       (Client.applySearchParams
          (Client.mkURL "https://host/teams" None None [])
          (Some Example.teamsParams))
     = [("categoryUuid", "a b"); ("seasonYear", "2024"); ("live", "false")].
Proof.
  assert (Hnd : NoDup (map fst Example.teamsParams)).
  { repeat constructor; cbn; intuition discriminate. }
  split; [exact Hnd |]. split; [reflexivity |].
  exact (proj1 (proj2 (proj2 (proj2 (proj2 (proj2 (proj2
           (proj1 makeRequest_searchParams
              (Client.mkURL "https://host/teams" None None [])
              Example.teamsParams Hnd eq_refl))))))) eq_refl).
Defined.

(** ** The repository's own test cases, run on the model *)

Section Tests.

Example test_getCategoryId :
  Helpers.getCategoryId "Moto2" = Some Helpers.CATEGORY_IDS.MOTO2
  /\ Helpers.getCategoryId "Moto3" = Some Helpers.CATEGORY_IDS.MOTO3
  /\ Helpers.getCategoryId "MotoE" = Some Helpers.CATEGORY_IDS.MOTOE
  /\ Helpers.getCategoryId "moto-2" = Some Helpers.CATEGORY_IDS.MOTO2
  /\ Helpers.getCategoryId "Invalid" = None.
Proof. repeat split. Qed.

Example test_formatLapTime :
  Helpers.formatLapTime "1'23.456" = "1:23.456"
  /\ Helpers.formatLapTime "2'15.789" = "2:15.789"
  /\ Helpers.formatLapTime "01:23.456" = "01:23.456"
  /\ Helpers.formatLapTime "0'45.123" = "0:45.123".
Proof. repeat split. Qed.

Example test_parseTimeToMs :
  Helpers.parseTimeToMs "1:23.456" = 83456
  /\ Helpers.parseTimeToMs "2:15.789" = 135789
  /\ Helpers.parseTimeToMs "0:45.123" = 45123
  /\ Helpers.parseTimeToMs "1'23.456" = 83456
  /\ Helpers.parseTimeToMs "01:23.456" = 83456
  /\ Helpers.parseTimeToMs "1" = 0.
Proof. repeat split. Qed.

Example test_msToTimeString :
  Helpers.msToTimeString 135789 = "2:15.789"
  /\ Helpers.msToTimeString 45123 = "0:45.123"
  /\ Helpers.msToTimeString 123456 = "2:03.456".
Proof. repeat split. Qed.

Example test_reversible :
  Helpers.msToTimeString (Helpers.parseTimeToMs "1:23.456") = "1:23.456".
Proof. reflexivity. Qed.

(** A classification request for season 2024 without the test flag. *)
Example test_request_url :
  Client.sent
    (snd (Client.makeRequest Example.joinURL Example.unavailable
            (Client.constructor None) "results/session/7/classification"
            (Some Example.classificationParams) Example.emptyWorld))
  = [Client.mkRequestOptions
       "https://api.motogp.pulselive.com/motogp/v1/results/session/7/classification?seasonYear=2024"
       "GET"
       [("User-Agent", Client.DEFAULT_USER_AGENT);
        ("Accept", "application/json")]
       10000 10000].
Proof. reflexivity. Qed.

(** Characters outside letters, digits and [*-._] are percent-encoded, a
    space becomes [+]. *)
Example test_urlencoded :
  Client.urlencodedSerialize [("a b", "x&y=z"); ("test", "true")]
  = "a+b=x%26y%3Dz&test=true".
Proof. reflexivity. Qed.

End Tests.

(** * Further properties of the helpers *)

(** ** [formatLapTime] *)

Section LapTimes.

Lemma count_append (a : ascii) (s t : string) :
  Spec.count a (s ++ t) = (Spec.count a s + Spec.count a t)%nat.
Proof.
  induction s as [| c s IH]; cbn [append Spec.count]; [reflexivity |].
  destruct (Ascii.eqb c a); cbn [Nat.add]; now rewrite IH.
Qed.

Lemma count_absent (a : ascii) (s : string) :
  Spec.count a s = O <-> JS.forallb (fun c => negb (Ascii.eqb c a)) s = true.
Proof.
  induction s as [| c s IH]; cbn [Spec.count JS.forallb]; [tauto |].
  destruct (Ascii.eqb c a); cbn [negb andb]; [split; discriminate | exact IH].
Qed.

Lemma replaceAll_count (a b : ascii) (s : string) :
  Ascii.eqb b a = false -> Spec.count a (JS.replaceAll a b s) = O.
Proof.
  intros Hab. induction s as [| c s IH]; cbn [JS.replaceAll Spec.count];
    [reflexivity |].
  destruct (Ascii.eqb c a) eqn:Hc; [now rewrite Hab | now rewrite Hc].
Qed.

Lemma replaceAll_length (a b : ascii) (s : string) :
  String.length (JS.replaceAll a b s) = String.length s.
Proof.
  induction s as [| c s IH]; cbn [JS.replaceAll String.length];
    [reflexivity | now rewrite IH].
Qed.

Lemma replaceAll_idempotent (a b : ascii) (s : string) :
  Ascii.eqb b a = false ->
  JS.replaceAll a b (JS.replaceAll a b s) = JS.replaceAll a b s.
Proof.
  intros Hab. apply replaceAll_absent, count_absent, replaceAll_count, Hab.
Qed.

Lemma replaceAll_count_target (a b : ascii) (s : string) :
  Ascii.eqb b a = false ->
  Spec.count b (JS.replaceAll a b s) = (Spec.count b s + Spec.count a s)%nat.
Proof.
  intros Hab. induction s as [| c s IH]; cbn [JS.replaceAll Spec.count];
    [reflexivity |].
  destruct (Ascii.eqb_spec c a) as [-> | Hca].
  - rewrite Ascii.eqb_refl, IH.
    rewrite Ascii.eqb_sym, Hab. lia.
  - destruct (Ascii.eqb c b); rewrite IH; lia.
Qed.

End LapTimes.

(** X1.  [formatLapTime] leaves no apostrophe, keeps the length, turns each
    apostrophe into one more colon, and changes nothing once applied: it is
    the identity exactly on the strings without apostrophe. *)
Theorem formatLapTime_invariants (timeString : string) :
  Spec.count "'" (Helpers.formatLapTime timeString) = O
  /\ String.length (Helpers.formatLapTime timeString) = String.length timeString
  /\ Spec.count ":" (Helpers.formatLapTime timeString)
     = (Spec.count ":" timeString + Spec.count "'" timeString)%nat
  /\ Helpers.formatLapTime (Helpers.formatLapTime timeString)
     = Helpers.formatLapTime timeString
  /\ (Helpers.formatLapTime timeString = timeString
      <-> Spec.count "'" timeString = O).
Proof.
  unfold Helpers.formatLapTime. repeat split.
  - now apply replaceAll_count.
  - apply replaceAll_length.
  - now apply replaceAll_count_target.
  - now apply replaceAll_idempotent.
  - intros H. rewrite <- H. now apply replaceAll_count.
  - intros H. apply replaceAll_absent, count_absent, H.
Qed.

(** X2.  [parseTimeToMs] does the work of [formatLapTime] itself: a time
    parses to the same number before and after formatting. *)
Theorem parseTimeToMs_formatLapTime (timeString : string) :
  Helpers.parseTimeToMs (Helpers.formatLapTime timeString)
  = Helpers.parseTimeToMs timeString.
Proof.
  unfold Helpers.parseTimeToMs, Helpers.formatLapTime.
  now rewrite replaceAll_idempotent.
Qed.

(** ** More on [parseTimeToMs] and [msToTimeString] *)

Section LeadingZeros.

Lemma parseInt_leading_zero (c : ascii) (m : string) :
  JS.isDigit c = true ->
  JS.parseInt (String "0" (String c m)) = JS.parseInt (String c m).
Proof.
  intros Hc. unfold JS.parseInt. cbn [JS.trimStart].
  change (JS.isWhiteSpace "0") with false. cbv iota.
  rewrite (digit_not_whitespace c Hc).
  change (Ascii.eqb "0" "-") with false. change (Ascii.eqb "0" "+") with false.
  rewrite (digit_not_char c "-" Hc eq_refl), (digit_not_char c "+" Hc eq_refl).
  cbv iota beta. cbn [JS.takeDigits]. change (JS.isDigit "0") with true.
  cbv iota. rewrite Hc. cbn [JS.isEmpty]. reflexivity.
Qed.

Lemma formatLapTime_digit (c : ascii) (r : string) :
  JS.isDigit c = true ->
  Helpers.formatLapTime (String c r) = String c (Helpers.formatLapTime r).
Proof.
  intros Hc. unfold Helpers.formatLapTime. cbn [JS.replaceAll].
  now rewrite (digit_not_char c "'" Hc eq_refl).
Qed.

End LeadingZeros.

(** X3.  A zero in front of the minutes does not change the parsed value:
    ["01:23.456"] parses like ["1:23.456"], so the zero is lost on the way
    back through [msToTimeString]. *)
Theorem parseTimeToMs_leading_zero (c : ascii) (rest : string) :
  JS.isDigit c = true ->
  Helpers.parseTimeToMs (String "0" (String c rest))
  = Helpers.parseTimeToMs (String c rest).
Proof.
  intros Hc.
  rewrite !parseTimeToMs_components.
  unfold Spec.oneColon, Spec.secondsComponent, Spec.fragmentValue,
    Spec.fragment, Spec.afterColon, Spec.minutesComponent.
  rewrite (formatLapTime_digit "0" (String c rest) eq_refl).
  rewrite (formatLapTime_digit c rest Hc).
  cbn [Spec.count Spec.before Spec.after].
  change (Ascii.eqb "0" ":") with false. cbv iota.
  rewrite (digit_not_char c ":" Hc eq_refl).
  rewrite parseInt_leading_zero by assumption.
  reflexivity.
Qed.

Lemma parseTimeToMs_leading_zero_witness :
  Helpers.parseTimeToMs "01:23.456" = Helpers.parseTimeToMs "1:23.456".
Proof.
  exact (parseTimeToMs_leading_zero "1" ":23.456" eq_refl).
Defined.

Section NumeralsBack.

Lemma replaceAll_append (a b : ascii) (s t : string) :
  JS.replaceAll a b (s ++ t) = JS.replaceAll a b s ++ JS.replaceAll a b t.
Proof.
  induction s as [| c s IH]; simpl; [reflexivity | now rewrite IH].
Qed.

Lemma digitChar_digitValue (c : ascii) :
  JS.isDigit c = true -> JS.digitChar (JS.digitValue c) = c.
Proof.
  intros Hc. apply isDigit_code in Hc.
  unfold JS.digitChar, JS.digitValue, JS.code in *.
  replace (48 + (Z.of_N (N_of_ascii c) - 48)) with (Z.of_N (N_of_ascii c)) by lia.
  rewrite N2Z.id. apply ascii_N_embedding.
Qed.

Lemma digitValue_bounds (c : ascii) :
  JS.isDigit c = true -> 0 <= JS.digitValue c < 10.
Proof.
  intros Hc. apply isDigit_code in Hc. unfold JS.digitValue. lia.
Qed.

(** A string that is not empty ends in a character. *)
Lemma string_last (s : string) :
  JS.isEmpty s = false ->
  exists (front : string) (c : ascii),
    s = front ++ String c EmptyString
    /\ String.length s = S (String.length front).
Proof.
  induction s as [| a s IH]; [discriminate |]. intros _.
  destruct s as [| b r].
  - exists EmptyString, a. split; reflexivity.
  - destruct (IH eq_refl) as (front & c & Heq & Hlen).
    exists (String a front), c. cbn [append]. rewrite <- Heq.
    split; [reflexivity |].
    change (S (String.length (String b r)) = S (S (String.length front))).
    now rewrite Hlen.
Qed.

(** A string of [k] digits is its own value written in [k] digits. *)
Lemma zeroPadded_digitsValue (k : nat) (s : string) :
  String.length s = k -> JS.forallb JS.isDigit s = true ->
  Spec.zeroPadded k (JS.digitsValue s) = s.
Proof.
  revert s. induction k as [| k IH]; intros s Hlen Hs.
  - destruct s; [reflexivity | discriminate].
  - destruct (string_last s) as (front & c & -> & Hlen').
    { destruct s; [discriminate | reflexivity]. }
    rewrite forallb_append in Hs. apply andb_true_iff in Hs as [Hfront Hc].
    cbn [JS.forallb] in Hc. rewrite andb_true_r in Hc.
    pose proof (digitValue_bounds c Hc) as Hb.
    unfold JS.digitsValue. rewrite digitsValueFrom_append.
    cbn [JS.digitsValueFrom Spec.zeroPadded].
    fold (JS.digitsValue front).
    replace ((JS.digitsValue front * 10 + JS.digitValue c) / 10)
      with (JS.digitsValue front).
    2:{ apply Z.div_unique with (r := JS.digitValue c); lia. }
    replace ((JS.digitsValue front * 10 + JS.digitValue c) mod 10)
      with (JS.digitValue c).
    2:{ apply Z.mod_unique with (q := JS.digitsValue front); lia. }
    rewrite IH, digitChar_digitValue by (assumption || lia).
    reflexivity.
Qed.

(** [toString] gives back every numeral without padding. *)
Lemma decimal_digitsValue (s : string) :
  Spec.unpadded s = true -> JS.decimal (JS.digitsValue s) = s.
Proof.
  intros Hs. destruct s as [| c r]; [discriminate |].
  unfold Spec.unpadded in Hs. apply andb_true_iff in Hs as [Hd Hlead].
  pose proof (digitsValueFrom_bounds 0 (String c r) Hd ltac:(lia)) as Hub.
  fold (JS.digitsValue (String c r)) in Hub.
  set (n := JS.digitsValue (String c r)) in *.
  assert (Hn : 0 <= n) by lia.
  destruct (decimal_zeroPadded n Hn) as (j & Heq & Hlt & Hz & Hlb).
  rewrite Heq.
  assert (Hj : S j = String.length (String c r)).
  { cbn [JS.forallb] in Hd. apply andb_true_iff in Hd as [Hc Hr].
    pose proof (digitValue_bounds c Hc) as Hcb.
    pose proof (digitsValueFrom_bounds (JS.digitValue c) r Hr ltac:(lia)) as Hr'.
    assert (Hn' : n = JS.digitsValueFrom (JS.digitValue c) r) by reflexivity.
    rewrite <- Hn' in Hr'. cbn [String.length] in *.
    rewrite Nat2Z.inj_succ, Z.pow_succ_r in Hub by lia.
    pose proof (Z.pow_pos_nonneg 10 (Z.of_nat (String.length r))
                  ltac:(lia) ltac:(lia)) as Hpos.
    f_equal.
    destruct r as [| c' r'].
    - cbn [String.length] in *. change (10 ^ Z.of_nat 0) with 1 in *.
      destruct (Z.eq_dec n 0) as [E | Hnz]; [now apply Hz |].
      specialize (Hlb ltac:(lia)).
      destruct j as [| j]; [reflexivity |].
      rewrite Nat2Z.inj_succ, Z.pow_succ_r in Hlb by lia.
      pose proof (Z.pow_pos_nonneg 10 (Z.of_nat j) ltac:(lia) ltac:(lia)). lia.
    - cbn [JS.isEmpty orb] in Hlead. apply negb_true_iff in Hlead.
      assert (Hc1 : 1 <= JS.digitValue c).
      { destruct (Z.eq_dec (JS.digitValue c) 0) as [E | ]; [| lia].
        exfalso. assert (c = "0"%char) as ->.
        { rewrite <- (digitChar_digitValue c Hc), E. reflexivity. }
        discriminate. }
      assert (Hlow : 10 ^ Z.of_nat (String.length (String c' r')) <= n) by nia.
      specialize (Hlb ltac:(lia)).
      rewrite Nat2Z.inj_succ, Z.pow_succ_r in Hlt by lia.
      assert (H1 : 10 ^ Z.of_nat j < 10 ^ Z.of_nat (S (String.length (String c' r')))).
      { rewrite Nat2Z.inj_succ, Z.pow_succ_r by lia. lia. }
      assert (H2 : 10 ^ Z.of_nat (String.length (String c' r'))
                   < 10 ^ Z.of_nat (S j)).
      { rewrite Nat2Z.inj_succ, Z.pow_succ_r by lia. lia. }
      apply Z.pow_lt_mono_r_iff in H1; [| lia | lia].
      apply Z.pow_lt_mono_r_iff in H2; [| lia | lia].
      lia. }
  rewrite Hj. apply zeroPadded_digitsValue; [reflexivity | exact Hd].
Qed.

(** Formatting then parsing gives the number back. *)
Lemma parse_format_nonneg (ms : Z) :
  0 <= ms -> Helpers.parseTimeToMs (Helpers.msToTimeString ms) = ms.
Proof.
  intros Hms.
  assert (Hq : 0 <= ms / 60000) by (apply Z.div_pos; lia).
  pose proof (seconds_bounds ms Hms) as Hs.
  pose proof (Z.mod_pos_bound ms 1000 ltac:(lia)) as Hm.
  rewrite msToTimeString_parts by assumption. unfold Spec.timeString.
  rewrite parseTimeToMs_digits;
    [| now apply decimal_digits | now apply decimal_nonempty
     | apply zeroPadded_digits | reflexivity | apply zeroPadded_digits
     | rewrite zeroPadded_length; lia].
  rewrite decimal_value by assumption.
  rewrite !zeroPadded_value by (simpl; lia).
  pose proof (Z.div_mod ms 60000 ltac:(lia)).
  pose proof (Z.div_mod (ms mod 60000) 1000 ltac:(lia)).
  pose proof (Z.div_mod ms 1000 ltac:(lia)).
  pose proof (Z.mod_pos_bound (ms mod 60000) 1000 ltac:(lia)).
  lia.
Qed.

End NumeralsBack.

(** On exact integers: a time written canonically, the minutes without
    padding, two digits of seconds below 60 and three digits of
    milliseconds, separated by a colon or by an apostrophe, comes back
    from formatting what was parsed, the apostrophe as a colon. *)
Lemma format_parse_canonical
  (minutes seconds milliseconds : string) (separator : ascii) :
  separator = ":"%char \/ separator = "'"%char ->
  Spec.unpadded minutes = true ->
  JS.forallb JS.isDigit seconds = true -> String.length seconds = 2%nat ->
  JS.digitsValue seconds < 60 ->
  JS.forallb JS.isDigit milliseconds = true ->
  String.length milliseconds = 3%nat ->
  Helpers.msToTimeString
    (Helpers.parseTimeToMs
       (minutes ++ String separator (seconds ++ "." ++ milliseconds)))
  = minutes ++ ":" ++ seconds ++ "." ++ milliseconds.
Proof.
  intros Hsep HM HS HSlen HSlt Hf Hflen.
  assert (HMd : JS.forallb JS.isDigit minutes = true
                /\ JS.isEmpty minutes = false).
  { destruct minutes; [discriminate |]. unfold Spec.unpadded in HM.
    apply andb_true_iff in HM as [HM _]. split; [exact HM | reflexivity]. }
  destruct HMd as [HMd HMne].
  assert (Hparse :
            Helpers.parseTimeToMs
              (minutes ++ String separator (seconds ++ "." ++ milliseconds))
            = JS.digitsValue minutes * 60 * 1000 + JS.digitsValue seconds * 1000
              + JS.digitsValue milliseconds).
  { rewrite <- (parseTimeToMs_digits minutes seconds milliseconds);
      try assumption; [| destruct seconds; [discriminate | reflexivity] | lia].
    destruct Hsep as [-> | ->]; [reflexivity |].
    unfold Helpers.parseTimeToMs. f_equal.
    change (minutes ++ String "'" (seconds ++ "." ++ milliseconds))
      with (minutes ++ "'" ++ seconds ++ "." ++ milliseconds).
    rewrite !replaceAll_append.
    reflexivity. }
  rewrite Hparse.
  pose proof (digitsValueFrom_bounds 0 minutes HMd ltac:(lia)) as [HM0 _].
  pose proof (digitsValueFrom_bounds 0 seconds HS ltac:(lia)) as [HS0 _].
  pose proof (digitsValueFrom_bounds 0 milliseconds Hf ltac:(lia)) as [Hf0 Hf1].
  rewrite Hflen in Hf1. change (10 ^ Z.of_nat 3) with 1000 in Hf1.
  fold (JS.digitsValue minutes) in HM0. fold (JS.digitsValue seconds) in HS0.
  fold (JS.digitsValue milliseconds) in Hf0, Hf1.
  set (m := JS.digitsValue minutes) in *.
  set (s := JS.digitsValue seconds) in *.
  set (f := JS.digitsValue milliseconds) in *.
  rewrite msToTimeString_parts by lia. unfold Spec.timeString.
  assert (Hq : (m * 60 * 1000 + s * 1000 + f) / 60000 = m).
  { symmetry. apply Z.div_unique with (r := s * 1000 + f); lia. }
  assert (Hr : (m * 60 * 1000 + s * 1000 + f) mod 60000 = s * 1000 + f).
  { symmetry. apply Z.mod_unique with (q := m); lia. }
  assert (Hs : (s * 1000 + f) / 1000 = s).
  { symmetry. apply Z.div_unique with (r := f); lia. }
  assert (Hm : (m * 60 * 1000 + s * 1000 + f) mod 1000 = f).
  { symmetry. apply Z.mod_unique with (q := m * 60 + s); lia. }
  rewrite Hq, Hr, Hs, Hm. unfold m, s, f.
  rewrite decimal_digitsValue by assumption.
  rewrite !zeroPadded_digitsValue by assumption.
  reflexivity.
Qed.



(** ** [msToTimeString] below zero *)

Section NegativeTimes.

Lemma signed_avoid (a : ascii) (s : string) :
  Spec.signed a = false -> JS.forallb Spec.signed s = true ->
  JS.forallb (fun x => negb (Ascii.eqb x a)) s = true.
Proof.
  intros Ha. apply forallb_impl. intros x Hx. apply negb_true_iff.
  destruct (Ascii.eqb_spec x a) as [-> | ]; [congruence | reflexivity].
Qed.

Lemma toString_signed (n : Z) : JS.forallb Spec.signed (JS.toString n) = true.
Proof.
  assert (Hd : forall k, 0 <= k -> JS.forallb Spec.signed (JS.decimal k) = true).
  { intros k Hk. apply (forallb_impl JS.isDigit).
    - intros c Hc. unfold Spec.signed. now rewrite Hc.
    - now apply decimal_digits. }
  unfold JS.toString. destruct (Z.ltb_spec n 0).
  - cbn [JS.forallb]. rewrite Hd by lia. reflexivity.
  - now apply Hd.
Qed.

Lemma padStart_signed (k : nat) (s : string) :
  JS.forallb Spec.signed s = true ->
  JS.forallb Spec.signed (JS.padStart k "0" s) = true.
Proof.
  intros Hs. rewrite padStart_char, forallb_append, Hs, andb_true_r.
  induction (k - String.length s)%nat as [| j IH]; [reflexivity | exact IH].
Qed.

(** [parseInt] reads back what [toString] writes, sign included. *)
Lemma parseInt_toString (n : Z) : JS.parseInt (JS.toString n) = Some n.
Proof.
  unfold JS.toString. destruct (Z.ltb_spec n 0) as [Hneg | Hpos].
  - pose proof (decimal_digits (- n) ltac:(lia)) as Hd.
    pose proof (decimal_nonempty (- n) ltac:(lia)) as Hne.
    unfold JS.parseInt. cbn [JS.trimStart].
    change (JS.isWhiteSpace "-") with false. cbv iota.
    change (Ascii.eqb "-" "-") with true. cbv iota beta.
    rewrite takeDigits_digits, Hne, decimal_value by (assumption || lia).
    f_equal. lia.
  - rewrite parseInt_digits, decimal_value;
      [reflexivity | lia | now apply decimal_digits | now apply decimal_nonempty].
Qed.

(** The parts of a time written with digits and minus signs only. *)
Lemma parseTimeToMs_signed (M S f : string) :
  JS.forallb Spec.signed M = true -> JS.forallb Spec.signed S = true ->
  JS.forallb Spec.signed f = true ->
  Helpers.parseTimeToMs (M ++ ":" ++ S ++ "." ++ f)
  = match JS.parseInt M, JS.parseInt S,
          (if JS.isEmpty f then Some 0 else JS.parseInt (JS.padEnd 3 "0" f)) with
    | Some m, Some s, Some v => m * 60 * 1000 + s * 1000 + v
    | _, _, _ => 0
    end.
Proof.
  intros HM HS Hf.
  assert (Habsent : forall a : ascii,
             Spec.signed a = false ->
             JS.forallb (fun x => negb (Ascii.eqb x a)) M = true
             /\ JS.forallb (fun x => negb (Ascii.eqb x a)) S = true
             /\ JS.forallb (fun x => negb (Ascii.eqb x a)) f = true).
  { intros a Ha. repeat split; now apply signed_avoid. }
  destruct (Habsent "'"%char eq_refl) as (A1 & A2 & A3).
  destruct (Habsent ":"%char eq_refl) as (C1 & C2 & C3).
  destruct (Habsent "."%char eq_refl) as (D1 & D2 & D3).
  unfold Helpers.parseTimeToMs.
  rewrite replaceAll_absent
    by (rewrite !forallb_append, A1, A2, A3; reflexivity).
  change (M ++ ":" ++ S ++ "." ++ f) with (M ++ String ":" (S ++ "." ++ f)).
  rewrite split_first by assumption.
  rewrite split_absent by (rewrite !forallb_append, C2, C3; reflexivity).
  unfold Helpers.timeFields.
  change (S ++ "." ++ f) with (S ++ String "." f).
  rewrite split_first, split_absent by assumption.
  destruct (JS.parseInt M), (JS.parseInt S), (JS.isEmpty f); reflexivity.
Qed.

(** Seconds at or below zero survive the padding to two characters. *)
Lemma parseInt_padStart_seconds (n : Z) :
  n <= 0 -> JS.parseInt (JS.padStart 2 "0" (JS.toString n)) = Some n.
Proof.
  intros Hn. destruct (Z.eq_dec n 0) as [-> | Hnz]; [reflexivity |].
  assert (Heq : JS.padStart 2 "0" (JS.toString n) = JS.toString n).
  { rewrite padStart_char. unfold JS.toString.
    destruct (Z.ltb_spec n 0); [| lia].
    pose proof (decimal_nonempty (- n) ltac:(lia)) as Hne.
    destruct (JS.decimal (- n)); [discriminate | reflexivity]. }
  rewrite Heq. apply parseInt_toString.
Qed.

(** Milliseconds at or below zero: padding to three characters puts a zero
    in front of a single digit with its sign, which then reads as 0. *)
Lemma fragment_negative (n : Z) :
  n <= 0 ->
  exists v : Z,
    (let f := JS.padStart 3 "0" (JS.toString n) in
     if JS.isEmpty f then Some 0 else JS.parseInt (JS.padEnd 3 "0" f)) = Some v
    /\ n <= v <= 0 /\ (n = 0 -> v = 0).
Proof.
  intros Hn. destruct (Z.eq_dec n 0) as [-> | Hnz].
  - exists 0. repeat split; lia.
  - pose proof (parseInt_toString n) as Hparse.
    pose proof (decimal_nonempty (- n) ltac:(lia)) as Hne.
    pose proof (decimal_digits (- n) ltac:(lia)) as Hd.
    unfold JS.toString in *. destruct (Z.ltb_spec n 0); [| lia].
    destruct (JS.decimal (- n)) as [| c rest]; [discriminate |].
    destruct rest as [| c' rest'].
    + exists 0. split; [| lia].
      cbn [JS.forallb] in Hd. rewrite andb_true_r in Hd.
      cbv zeta. rewrite padStart_char. cbn [String.length Nat.sub
        Spec.repeatChar append JS.isEmpty].
      rewrite padEnd_char. cbn [String.length Nat.sub Spec.repeatChar append].
      unfold JS.parseInt. cbn [JS.trimStart].
      change (JS.isWhiteSpace "0") with false. cbv iota.
      change (Ascii.eqb "0" "-") with false.
      change (Ascii.eqb "0" "+") with false. cbv iota beta.
      cbn [JS.takeDigits]. change (JS.isDigit "0") with true.
      change (JS.isDigit "-") with false. cbv iota. reflexivity.
    + exists n. split; [| lia].
      cbv zeta. rewrite padStart_char. cbn [String.length Nat.sub
        Spec.repeatChar append JS.isEmpty].
      rewrite padEnd_char. cbn [String.length Nat.sub Spec.repeatChar].
      rewrite append_nil_r. exact Hparse.
Qed.

End NegativeTimes.

(** On exact integers: below zero [msToTimeString] writes the minutes
    rounded down and signed seconds and milliseconds, and [parseTimeToMs]
    reads from that a time at least a minute earlier, unless [ms] is a
    whole number of minutes. *)
Lemma parse_format_negative (ms : Z) :
  ms < 0 ->
  (Z.rem ms 60000 = 0 ->
   Helpers.parseTimeToMs (Helpers.msToTimeString ms) = ms)
  /\ (Z.rem ms 60000 <> 0 ->
      Helpers.parseTimeToMs (Helpers.msToTimeString ms) <= ms - 60000).
Proof.
  intros Hms.
  pose proof (Z.rem_bound_pos_neg ms 60000 ltac:(lia) ltac:(lia)) as Hr.
  pose proof (Z.rem_bound_pos_neg ms 1000 ltac:(lia) ltac:(lia)) as Hm.
  pose proof (Z.quot_rem' ms 60000) as Hq60.
  pose proof (Z.quot_rem' ms 1000) as Hq1.
  pose proof (Z.div_mod ms 60000 ltac:(lia)) as Hdiv.
  pose proof (Z.mod_pos_bound ms 60000 ltac:(lia)) as Hmod.
  pose proof (Z.div_mod (Z.rem ms 60000) 1000 ltac:(lia)) as Hsdiv.
  pose proof (Z.mod_pos_bound (Z.rem ms 60000) 1000 ltac:(lia)) as Hsmod.
  assert (Hsec : Z.rem ms 60000 / 1000 <= 0).
  { apply Z.div_le_upper_bound; lia. }
  unfold Helpers.msToTimeString.
  set (q := ms / 60000) in *.
  set (sec := Z.rem ms 60000 / 1000) in *.
  set (mil := Z.rem ms 1000) in *.
  rewrite parseTimeToMs_signed
    by (apply toString_signed || (apply padStart_signed, toString_signed)).
  rewrite parseInt_toString, parseInt_padStart_seconds by assumption.
  destruct (fragment_negative mil ltac:(lia)) as (v & Hv & Hvb & Hv0).
  cbv zeta in Hv. rewrite Hv.
  split; intros Hrem.
  - assert (mil = 0) by (unfold mil; lia).
    rewrite (Hv0 ltac:(assumption)). unfold sec. rewrite Hrem in *.
    change (0 / 1000) with 0. lia.
  - lia.
Qed.

(** * The time helpers on doubles *)

(** ** The numbers read from a time string *)

Section Fields.

Lemma digits_signed (s : string) :
  JS.forallb JS.isDigit s = true -> JS.forallb Spec.signed s = true.
Proof.
  apply forallb_impl. intros c Hc. unfold Spec.signed. now rewrite Hc.
Qed.

(** A time written with digits and minus signs only splits at its colon
    and at its dot. *)
Lemma fields_signed (M S f : string) :
  JS.forallb Spec.signed M = true -> JS.forallb Spec.signed S = true ->
  JS.forallb Spec.signed f = true ->
  JS.split ":" (JS.replaceAll "'" ":" (M ++ ":" ++ S ++ "." ++ f))
  = [M; S ++ "." ++ f]
  /\ Helpers.timeFields M (S ++ "." ++ f)
     = (JS.parseInt M, JS.parseInt S,
        if JS.isEmpty f then Some 0 else JS.parseInt (JS.padEnd 3 "0" f)).
Proof.
  intros HM HS Hf.
  assert (Habsent : forall a : ascii,
             Spec.signed a = false ->
             JS.forallb (fun x => negb (Ascii.eqb x a)) M = true
             /\ JS.forallb (fun x => negb (Ascii.eqb x a)) S = true
             /\ JS.forallb (fun x => negb (Ascii.eqb x a)) f = true).
  { intros a Ha. repeat split; now apply signed_avoid. }
  destruct (Habsent "'"%char eq_refl) as (A1 & A2 & A3).
  destruct (Habsent ":"%char eq_refl) as (C1 & C2 & C3).
  destruct (Habsent "."%char eq_refl) as (D1 & D2 & D3).
  rewrite replaceAll_absent
    by (rewrite !forallb_append, A1, A2, A3; reflexivity).
  change (M ++ ":" ++ S ++ "." ++ f) with (M ++ String ":" (S ++ "." ++ f)).
  rewrite split_first by assumption.
  rewrite split_absent by (rewrite !forallb_append, C2, C3; reflexivity).
  split; [reflexivity |].
  unfold Helpers.timeFields.
  change (S ++ "." ++ f) with (S ++ String "." f).
  rewrite split_first, split_absent by assumption.
  destruct (JS.isEmpty f); reflexivity.
Qed.

(** With digits only, and at least three in the fragment, the numbers
    read are the values of the three digit strings. *)
Lemma fields_digits (M S f : string) :
  JS.forallb JS.isDigit M = true -> JS.isEmpty M = false ->
  JS.forallb JS.isDigit S = true -> JS.isEmpty S = false ->
  JS.forallb JS.isDigit f = true -> (3 <= String.length f)%nat ->
  JS.split ":" (JS.replaceAll "'" ":" (M ++ ":" ++ S ++ "." ++ f))
  = [M; S ++ "." ++ f]
  /\ Helpers.timeFields M (S ++ "." ++ f)
     = (Some (JS.digitsValue M), Some (JS.digitsValue S),
        Some (JS.digitsValue f)).
Proof.
  intros HM HMne HS HSne Hf Hlen.
  destruct (fields_signed M S f) as [Hsplit Hfields];
    try (apply digits_signed; assumption).
  split; [exact Hsplit |]. rewrite Hfields.
  assert (Hfne : JS.isEmpty f = false).
  { destruct f; [simpl in Hlen; lia | reflexivity]. }
  rewrite Hfne, padEnd_char.
  replace (3 - String.length f)%nat with O by lia.
  cbn [Spec.repeatChar]. rewrite append_nil_r.
  rewrite !parseInt_digits by assumption. reflexivity.
Qed.

(** The numbers read from what [msToTimeString] writes for [0 <= ms]. *)
Lemma fields_formatted (ms : Z) :
  0 <= ms ->
  exists parts0 parts1 : string,
    JS.split ":" (JS.replaceAll "'" ":" (Helpers.msToTimeString ms))
    = [parts0; parts1]
    /\ Helpers.timeFields parts0 parts1
       = (Some (ms / 60000), Some (ms mod 60000 / 1000), Some (ms mod 1000)).
Proof.
  intros Hms.
  assert (Hq : 0 <= ms / 60000) by (apply Z.div_pos; lia).
  pose proof (seconds_bounds ms Hms) as Hs.
  pose proof (Z.mod_pos_bound ms 1000 ltac:(lia)) as Hm.
  rewrite msToTimeString_parts by assumption. unfold Spec.timeString.
  destruct (fields_digits (JS.decimal (ms / 60000))
              (Spec.zeroPadded 2 (ms mod 60000 / 1000))
              (Spec.zeroPadded 3 (ms mod 1000)))
    as [Hsplit Hfields];
    [now apply decimal_digits | now apply decimal_nonempty
    | apply zeroPadded_digits | reflexivity | apply zeroPadded_digits
    | rewrite zeroPadded_length; lia |].
  eexists _, _. split; [exact Hsplit |]. rewrite Hfields.
  rewrite decimal_value by assumption.
  rewrite !zeroPadded_value by (simpl; lia). reflexivity.
Qed.

End Fields.

(** ** [msToTimeString] *)

(** C7, as the code has it.  For every integer [0 <= ms <= 2^53 - 1],
    [msToTimeString ms] is ["{minutes}:{SS}.{mmm}"]: the minutes
    [floor(ms / 60000)] as a decimal numeral without padding, the seconds
    [floor((ms mod 60000) / 1000)] in exactly two digits and the
    milliseconds [ms mod 1000] in exactly three digits, zeros in front;
    [msToTimeString 83456 = "1:23.456"] and [msToTimeString 0 = "0:00.000"]. *)
Theorem msToTimeString_format :
  (forall ms : Z,
      0 <= ms <= Double.MAX_SAFE_INTEGER ->
      exists minutes : string,
        Double.msToTimeString (Double.Int ms) = Spec.timeString minutes ms
        /\ Spec.unpadded minutes = true
        /\ JS.digitsValue minutes = ms / 60000)
  /\ Double.msToTimeString (Double.Int 83456) = "1:23.456"
  /\ Double.msToTimeString (Double.Int 0) = "0:00.000".
Proof.
  split; [| split; reflexivity].
  intros ms Hms.
  assert (Hq : 0 <= ms / 60000) by (apply Z.div_pos; lia).
  exists (JS.decimal (ms / 60000)). repeat split.
  - rewrite msToTimeString_safe by lia. apply msToTimeString_parts. lia.
  - apply decimal_unpadded, Hq.
  - apply decimal_value, Hq.
Qed.

Lemma msToTimeString_format_witness :
  0 <= 135789 <= Double.MAX_SAFE_INTEGER
  /\ exists minutes : string,
       Double.msToTimeString (Double.Int 135789)
       = Spec.timeString minutes 135789
       /\ Spec.unpadded minutes = true
       /\ JS.digitsValue minutes = 135789 / 60000.
Proof.
  assert (H : 0 <= 135789 <= Double.MAX_SAFE_INTEGER)
    by (split; discriminate).
  split; [exact H | exact (proj1 msToTimeString_format 135789 H)].
Defined.

(** C7 as stated fails beyond [2^53 - 1].  The integer 527765581332539968
    is a double; the quotient [ms / 60000] is rounded up to the double
    8796093022209 before [Math.floor] sees it, so the minutes written are
    one more than [floor(ms / 60000) = 8796093022208].  And for
    [ms = 60000 * 2^70] the minutes are not written as a digit string at
    all. *)
Lemma msToTimeString_format_counterexample :
  0 <= 527765581332539968
  /\ Double.roundInt 527765581332539968 = Double.Int 527765581332539968
  /\ 527765581332539968 / 60000 = 8796093022208
  /\ Spec.unpadded "8796093022208" = true
  /\ JS.digitsValue "8796093022208" = 8796093022208
  /\ Spec.timeString "8796093022208" 527765581332539968
     = "8796093022208:59.968"
  /\ Double.msToTimeString (Double.Int 527765581332539968)
     = "8796093022209:59.968"
  /\ Double.msToTimeString (Double.Int 527765581332539968)
     <> Spec.timeString "8796093022208" 527765581332539968
  /\ Double.roundInt (60000 * 2 ^ 70) = Double.Int (60000 * 2 ^ 70)
  /\ Double.msToTimeString (Double.Int (60000 * 2 ^ 70))
     = "1.1805916207174113e+21:00.000".
Proof.
  repeat split; try (vm_compute; (reflexivity || discriminate)).
Qed.

(** ** The round trip *)

(** C1, as the code has it.  For all natural numbers [minutes],
    [seconds < 60] and [milliseconds < 1000] whose time
    [ms = minutes * 60000 + seconds * 1000 + milliseconds] is at most
    [2^53 - 1], parsing the formatted time gives the time back:
    [parseTimeToMs (msToTimeString ms) = ms]. *)
Theorem parseTimeToMs_msToTimeString (minutes seconds milliseconds : Z) :
  0 <= minutes -> 0 <= seconds < 60 -> 0 <= milliseconds < 1000 ->
  minutes * 60000 + seconds * 1000 + milliseconds
  <= Double.MAX_SAFE_INTEGER ->
  Double.parseTimeToMs
    (Double.msToTimeString
       (Double.Int (minutes * 60000 + seconds * 1000 + milliseconds)))
  = Double.Int (minutes * 60000 + seconds * 1000 + milliseconds).
Proof.
  intros Hmin Hsec Hmil Hsafe.
  set (ms := minutes * 60000 + seconds * 1000 + milliseconds) in *.
  assert (Hms : 0 <= ms) by (unfold ms; lia).
  rewrite msToTimeString_safe by lia.
  destruct (fields_formatted ms Hms) as (parts0 & parts1 & Hsplit & Hfields).
  rewrite (parseTimeToMs_exact _ _ _ Hsplit).
  - f_equal. apply parse_format_nonneg, Hms.
  - rewrite Hfields.
    pose proof (seconds_bounds ms Hms).
    pose proof (Z.mod_pos_bound ms 1000 ltac:(lia)).
    pose proof (Z.mod_pos_bound ms 60000 ltac:(lia)).
    pose proof (Z.div_mod ms 60000 ltac:(lia)).
    pose proof (Z.div_mod (ms mod 60000) 1000 ltac:(lia)).
    pose proof (Z.div_mod ms 1000 ltac:(lia)).
    pose proof (Z.mod_pos_bound (ms mod 60000) 1000 ltac:(lia)).
    assert (0 <= ms / 60000) by (apply Z.div_pos; lia).
    safe_lia.
Qed.

Lemma parseTimeToMs_msToTimeString_witness :
  Double.parseTimeToMs
    (Double.msToTimeString (Double.Int (2 * 60000 + 15 * 1000 + 789)))
  = Double.Int (2 * 60000 + 15 * 1000 + 789).
Proof.
  apply (parseTimeToMs_msToTimeString 2 15 789); try lia.
  discriminate.
Defined.

(** C1 as stated fails beyond [2^53 - 1].  For 8796093022208 minutes, 59
    seconds and 968 milliseconds the time 527765581332539968 is a double,
    also as the program would add it up; it is written with 8796093022209
    minutes and read back as 527765581332600000, which is 60032 more. *)
Lemma parseTimeToMs_msToTimeString_counterexample :
  0 <= 8796093022208 /\ 0 <= 59 < 60 /\ 0 <= 968 < 1000
  /\ 8796093022208 * 60000 + 59 * 1000 + 968 = 527765581332539968
  /\ Double.add
       (Double.add (Double.mul (Double.Int 8796093022208) (Double.Int 60000))
          (Double.mul (Double.Int 59) (Double.Int 1000)))
       (Double.Int 968)
     = Double.Int 527765581332539968
  /\ Double.msToTimeString (Double.Int 527765581332539968)
     = "8796093022209:59.968"
  /\ Double.parseTimeToMs
       (Double.msToTimeString (Double.Int 527765581332539968))
     = Double.Int (527765581332539968 + 60032)
  /\ Double.parseTimeToMs
       (Double.msToTimeString
          (Double.Int (8796093022208 * 60000 + 59 * 1000 + 968)))
     <> Double.Int (8796093022208 * 60000 + 59 * 1000 + 968).
Proof.
  repeat split; try (vm_compute; (reflexivity || discriminate)).
Qed.

(** X4.  The round trip the other way, for a time within the safe
    integers: a time written canonically, the minutes without padding, two
    digits of seconds below 60 and three digits of milliseconds, separated
    by a colon or by an apostrophe, comes back from
    [msToTimeString (parseTimeToMs _)] unchanged, but for the apostrophe,
    which comes back as a colon. *)
Theorem msToTimeString_parseTimeToMs
  (minutes seconds milliseconds : string) (separator : ascii) :
  separator = ":"%char \/ separator = "'"%char ->
  Spec.unpadded minutes = true ->
  JS.forallb JS.isDigit seconds = true -> String.length seconds = 2%nat ->
  JS.digitsValue seconds < 60 ->
  JS.forallb JS.isDigit milliseconds = true ->
  String.length milliseconds = 3%nat ->
  Spec.safeTime (JS.digitsValue minutes) (JS.digitsValue seconds)
    (JS.digitsValue milliseconds) ->
  Double.msToTimeString
    (Double.parseTimeToMs
       (minutes ++ String separator (seconds ++ "." ++ milliseconds)))
  = minutes ++ ":" ++ seconds ++ "." ++ milliseconds.
Proof.
  intros Hsep HM HS HSlen HSlt Hf Hflen Hsafe.
  assert (HMd : JS.forallb JS.isDigit minutes = true
                /\ JS.isEmpty minutes = false).
  { destruct minutes; [discriminate |]. unfold Spec.unpadded in HM.
    apply andb_true_iff in HM as [HM _]. split; [exact HM | reflexivity]. }
  destruct HMd as [HMd HMne].
  destruct (fields_digits minutes seconds milliseconds)
    as [Hsplit Hfields];
    try assumption; [destruct seconds; [discriminate | reflexivity] | lia |].
  assert (Hclean :
            JS.replaceAll "'" ":"
              (minutes ++ String separator (seconds ++ "." ++ milliseconds))
            = JS.replaceAll "'" ":"
                (minutes ++ ":" ++ seconds ++ "." ++ milliseconds)).
  { destruct Hsep as [-> | ->]; [reflexivity |].
    change (minutes ++ String "'" (seconds ++ "." ++ milliseconds))
      with (minutes ++ "'" ++ seconds ++ "." ++ milliseconds).
    rewrite !replaceAll_append. reflexivity. }
  rewrite <- Hclean in Hsplit.
  rewrite (parseTimeToMs_exact _ _ _ Hsplit) by (rewrite Hfields; exact Hsafe).
  assert (Hvalue :
            Helpers.parseTimeToMs
              (minutes ++ String separator (seconds ++ "." ++ milliseconds))
            = JS.digitsValue minutes * 60 * 1000
              + JS.digitsValue seconds * 1000 + JS.digitsValue milliseconds).
  { unfold Helpers.parseTimeToMs. rewrite Hsplit, Hfields. reflexivity. }
  rewrite msToTimeString_safe by (rewrite Hvalue; safe_lia).
  now apply format_parse_canonical.
Qed.

Lemma msToTimeString_parseTimeToMs_witness :
  Double.msToTimeString (Double.parseTimeToMs "12'07.300") = "12:07.300".
Proof.
  refine (msToTimeString_parseTimeToMs "12" "07" "300" "'"
            (or_intror eq_refl) eq_refl eq_refl eq_refl _ eq_refl eq_refl _).
  - reflexivity.
  - discriminate.
Defined.

(** X6.  Below zero the pair is no round trip.  For
    [- (2^53 - 1) + 120000 <= ms < 0], [msToTimeString] writes the minutes
    rounded down and signed seconds and milliseconds, and [parseTimeToMs]
    reads from that a time at least a minute earlier, unless [ms] is a
    whole number of minutes, which does come back.  The bound keeps the
    time read back, less than two minutes earlier, within the safe
    integers. *)
Theorem msToTimeString_negative (ms : Z) :
  - (Double.MAX_SAFE_INTEGER - 120000) <= ms < 0 ->
  exists back : Z,
    Double.parseTimeToMs (Double.msToTimeString (Double.Int ms))
    = Double.Int back
    /\ (Z.rem ms 60000 = 0 -> back = ms)
    /\ (Z.rem ms 60000 <> 0 -> back <= ms - 60000).
Proof.
  intros Hms.
  exists (Helpers.parseTimeToMs (Helpers.msToTimeString ms)).
  split; [| apply parse_format_negative; lia].
  rewrite msToTimeString_safe by safe_lia.
  pose proof (Z.rem_bound_pos_neg ms 60000 ltac:(lia) ltac:(lia)) as Hr.
  pose proof (Z.rem_bound_pos_neg ms 1000 ltac:(lia) ltac:(lia)) as Hm.
  pose proof (Z.quot_rem' ms 60000) as Hq60.
  pose proof (Z.div_mod ms 60000 ltac:(lia)) as Hdiv.
  pose proof (Z.mod_pos_bound ms 60000 ltac:(lia)) as Hmod.
  pose proof (Z.div_mod (Z.rem ms 60000) 1000 ltac:(lia)) as Hsdiv.
  pose proof (Z.mod_pos_bound (Z.rem ms 60000) 1000 ltac:(lia)) as Hsmod.
  assert (Hsec : Z.rem ms 60000 / 1000 <= 0).
  { apply Z.div_le_upper_bound; lia. }
  unfold Helpers.msToTimeString.
  set (q := ms / 60000) in *.
  set (sec := Z.rem ms 60000 / 1000) in *.
  set (mil := Z.rem ms 1000) in *.
  destruct (fields_signed (JS.toString q)
              (JS.padStart 2 "0" (JS.toString sec))
              (JS.padStart 3 "0" (JS.toString mil)))
    as [Hsplit Hfields];
    try (apply toString_signed || (apply padStart_signed, toString_signed)).
  apply (parseTimeToMs_exact _ _ _ Hsplit).
  rewrite Hfields, parseInt_toString, parseInt_padStart_seconds by assumption.
  destruct (fragment_negative mil ltac:(lia)) as (v & Hv & Hvb & Hv0).
  cbv zeta in Hv. rewrite Hv. safe_lia.
Qed.

Lemma msToTimeString_negative_witness :
  exists back : Z,
    Double.parseTimeToMs (Double.msToTimeString (Double.Int (-1)))
    = Double.Int back
    /\ (Z.rem (-1) 60000 = 0 -> back = -1)
    /\ (Z.rem (-1) 60000 <> 0 -> back <= -1 - 60000).
Proof.
  apply (msToTimeString_negative (-1)). split; [discriminate | reflexivity].
Defined.

(** ** [parseTimeToMs] *)

Section Components.

(** [parseTimeToMs] in terms of the components of the time string. *)
Lemma parseTimeToMs_read (timeString : string) :
  Spec.oneColon timeString = true ->
  Double.parseTimeToMs timeString
  = match JS.parseInt (Spec.minutesComponent timeString),
          JS.parseInt (Spec.secondsComponent timeString),
          Spec.fragmentValue timeString with
    | Some m, Some s, Some f =>
        Double.add
          (Double.add
             (Double.mul (Double.mul (Double.roundInt m) (Double.Int 60))
                (Double.Int 1000))
             (Double.mul (Double.roundInt s) (Double.Int 1000)))
          (Double.roundInt f)
    | _, _, _ => Double.Int 0
    end.
Proof.
  intros Hone.
  rewrite (parseTimeToMs_fields _ _ _ (split_oneColon _ Hone)).
  rewrite timeFields_components.
  destruct (JS.parseInt (Spec.minutesComponent timeString)) as [m |];
    destruct (JS.parseInt (Spec.secondsComponent timeString)) as [s |];
    destruct (Spec.fragmentValue timeString) as [f |]; reflexivity.
Qed.

End Components.

(** C2, as the code has it.  Whenever the string with its apostrophes
    turned into colons does not have exactly one colon (it does not split
    into exactly two parts), or no integer can be read off the front of
    the minutes component, or none off the front of the seconds component
    (after white space and at most one sign there is no decimal digit),
    [parseTimeToMs] returns 0; it is a total function and raises nothing.
    In particular the results for ["invalid"], [""], ["1:"] and [":23"]
    are 0.  A component that begins with an integer is read up to its
    first character that is no digit: ["1x:2y"] gives 62000. *)
Theorem parseTimeToMs_failure :
  (forall timeString : string,
      Spec.oneColon timeString = false
      \/ Spec.numeric (Spec.minutesComponent timeString) = false
      \/ Spec.numeric (Spec.secondsComponent timeString) = false ->
      Double.parseTimeToMs timeString = Double.Int 0)
  /\ Double.parseTimeToMs "invalid" = Double.Int 0
  /\ Double.parseTimeToMs "" = Double.Int 0
  /\ Double.parseTimeToMs "1:" = Double.Int 0
  /\ Double.parseTimeToMs ":23" = Double.Int 0
  /\ Spec.numeric "1x" = true
  /\ Spec.numeric "2y" = true
  /\ Double.parseTimeToMs "1x:2y" = Double.Int 62000.
Proof.
  split; [| repeat split; reflexivity].
  intros timeString H.
  destruct (Spec.oneColon timeString) eqn:Hone.
  - rewrite parseTimeToMs_read by assumption.
    destruct H as [H | [H | H]]; [discriminate | |];
      apply parseInt_numeric in H; rewrite H; [reflexivity |].
    destruct (JS.parseInt (Spec.minutesComponent timeString)); reflexivity.
  - apply parseTimeToMs_parts, split_not_oneColon, Hone.
Qed.

Lemma parseTimeToMs_failure_witness :
  (Spec.oneColon "12:ab.5" = false
   \/ Spec.numeric (Spec.minutesComponent "12:ab.5") = false
   \/ Spec.numeric (Spec.secondsComponent "12:ab.5") = false)
  /\ Double.parseTimeToMs "12:ab.5" = Double.Int 0.
Proof.
  assert (H : Spec.numeric (Spec.secondsComponent "12:ab.5") = false)
    by reflexivity.
  split; [right; right; exact H |].
  apply (proj1 parseTimeToMs_failure "12:ab.5"). right; right; exact H.
Defined.

(** C2 as stated fails: ["1x:2y"] has exactly one colon, neither its
    minutes component ["1x"] nor its seconds component ["2y"] is an
    integer numeral, and the result is 62000, not 0. *)
Lemma parseTimeToMs_failure_counterexample :
  Spec.oneColon "1x:2y" = true
  /\ Spec.minutesComponent "1x:2y" = "1x"
  /\ Spec.integerNumeral "1x" = false
  /\ Spec.secondsComponent "1x:2y" = "2y"
  /\ Spec.integerNumeral "2y" = false
  /\ Double.parseTimeToMs "1x:2y" = Double.Int 62000
  /\ Double.parseTimeToMs "1x:2y" <> Double.Int 0.
Proof.
  repeat split. discriminate.
Qed.

(** C6, as the code has it.  For a string with exactly one colon after the
    apostrophes have become colons, whose minutes and seconds components
    each begin (after white space and at most one sign) with decimal
    digits, read as the integers [minutes] and [seconds] up to the first
    character that is no digit: when the millisecond fragment is missing,
    or begins in the same way with an integer [milliseconds] once it is
    right-padded with zeros to three characters, and the three parts add
    up within the safe integers, the result is
    [minutes * 60000 + seconds * 1000 + milliseconds] (a missing fragment
    counts 0); when no integer can be read off the padded fragment the
    result is 0.  A fragment of one to three digits is thereby read in
    thousandths; [parseTimeToMs "1:23" = 83000],
    [parseTimeToMs "1:23.4" = 83400], and [parseTimeToMs "1:23.5x" = 83005]. *)
Theorem parseTimeToMs_wellFormed :
  (forall (timeString : string) (minutes seconds : Z),
      Spec.oneColon timeString = true ->
      JS.parseInt (Spec.minutesComponent timeString) = Some minutes ->
      JS.parseInt (Spec.secondsComponent timeString) = Some seconds ->
      match Spec.fragmentValue timeString with
      | Some milliseconds =>
          Spec.safeTime minutes seconds milliseconds ->
          Double.parseTimeToMs timeString
          = Double.Int (minutes * 60000 + seconds * 1000 + milliseconds)
      | None => Double.parseTimeToMs timeString = Double.Int 0
      end)
  /\ (forall timeString : string,
         Spec.fragment timeString = None ->
         Spec.fragmentValue timeString = Some 0)
  /\ (forall (timeString f : string),
         Spec.fragment timeString = Some f ->
         JS.forallb JS.isDigit f = true -> JS.isEmpty f = false ->
         Spec.fragmentValue timeString
         = Some (JS.digitsValue f * 10 ^ Z.of_nat (3 - String.length f)))
  /\ Double.parseTimeToMs "1:23" = Double.Int 83000
  /\ Double.parseTimeToMs "1:23.4" = Double.Int 83400
  /\ Double.parseTimeToMs "1:23.5x" = Double.Int 83005.
Proof.
  split; [| split; [| split; [| repeat split; reflexivity]]].
  - intros timeString minutes seconds Hone Hmin Hsec.
    rewrite parseTimeToMs_read, Hmin, Hsec by assumption.
    destruct (Spec.fragmentValue timeString) as [milliseconds |];
      [| reflexivity].
    intros Hsafe. rewrite timeSum_safe by assumption. f_equal. lia.
  - intros timeString H. unfold Spec.fragmentValue. rewrite H. reflexivity.
  - intros timeString f H Hf Hne. unfold Spec.fragmentValue. rewrite H.
    apply parseInt_padEnd_digits; assumption.
Qed.

Lemma parseTimeToMs_wellFormed_witness :
  Spec.oneColon "2'05.07" = true
  /\ JS.parseInt (Spec.minutesComponent "2'05.07") = Some 2
  /\ JS.parseInt (Spec.secondsComponent "2'05.07") = Some 5
  /\ Spec.fragmentValue "2'05.07" = Some 70
  /\ Spec.safeTime 2 5 70
  /\ Double.parseTimeToMs "2'05.07" = Double.Int (2 * 60000 + 5 * 1000 + 70).
Proof.
  assert (Hsafe : Spec.safeTime 2 5 70) by discriminate.
  do 4 (split; [reflexivity |]). split; [exact Hsafe |].
  exact (proj1 parseTimeToMs_wellFormed "2'05.07" 2 5
           eq_refl eq_refl eq_refl Hsafe).
Defined.

(** C6 as stated fails: ["1:23.x"] has exactly one colon and integer
    minutes and seconds components, no integer can be read off its
    fragment ["x"] padded to ["x00"], and the result is 0, which is not
    [1 * 60000 + 23 * 1000] plus any millisecond count. *)
Lemma parseTimeToMs_wellFormed_counterexample :
  Spec.oneColon "1:23.x" = true
  /\ Spec.minutesComponent "1:23.x" = "1"
  /\ Spec.integerNumeral "1" = true
  /\ JS.parseInt (Spec.minutesComponent "1:23.x") = Some 1
  /\ Spec.secondsComponent "1:23.x" = "23"
  /\ Spec.integerNumeral "23" = true
  /\ JS.parseInt (Spec.secondsComponent "1:23.x") = Some 23
  /\ Spec.fragment "1:23.x" = Some "x"
  /\ Spec.fragmentValue "1:23.x" = None
  /\ Double.parseTimeToMs "1:23.x" = Double.Int 0
  /\ ~ (exists milliseconds : Z,
           (Spec.fragmentValue "1:23.x" = Some milliseconds \/ 0 <= milliseconds)
           /\ Double.parseTimeToMs "1:23.x"
              = Double.Int (1 * 60000 + 23 * 1000 + milliseconds)).
Proof.
  repeat split.
  intros (milliseconds & [H | H] & Heq).
  - discriminate H.
  - change (Double.Int 0 = Double.Int (1 * 60000 + 23 * 1000 + milliseconds))
      in Heq.
    apply (f_equal (fun a => match a with Double.Int z => z | _ => 0 end))
      in Heq.
    cbv beta iota in Heq. lia.
Qed.

(** C10.  A millisecond fragment of more than three digits is not cut to
    three: padding leaves it as it is, the whole of it is read as an
    integer and, where the parts add up within the safe integers, added as
    milliseconds.  So [parseTimeToMs "1:23.4567"] is
    [60000 + 23000 + 4567 = 87567], more than [60000 + 23000 + 999]. *)
Theorem parseTimeToMs_long_fragment :
  (forall (timeString f : string) (minutes seconds : Z),
      Spec.oneColon timeString = true ->
      JS.parseInt (Spec.minutesComponent timeString) = Some minutes ->
      JS.parseInt (Spec.secondsComponent timeString) = Some seconds ->
      Spec.fragment timeString = Some f ->
      JS.forallb JS.isDigit f = true ->
      (3 < String.length f)%nat ->
      Spec.safeTime minutes seconds (JS.digitsValue f) ->
      JS.padEnd 3 "0" f = f
      /\ Double.parseTimeToMs timeString
         = Double.Int (minutes * 60000 + seconds * 1000 + JS.digitsValue f))
  /\ Double.parseTimeToMs "1:23.4567" = Double.Int 87567
  /\ 87567 = 60000 + 23000 + 4567
  /\ 87567 > 60000 + 23000 + 999.
Proof.
  split; [| repeat split; reflexivity].
  intros timeString f minutes seconds Hone Hmin Hsec Hfrag Hf Hlen Hsafe.
  assert (Hpad : JS.padEnd 3 "0" f = f).
  { rewrite padEnd_char. replace (3 - String.length f)%nat with O by lia.
    apply append_nil_r. }
  split; [exact Hpad |].
  rewrite parseTimeToMs_read, Hmin, Hsec by assumption.
  unfold Spec.fragmentValue. rewrite Hfrag, Hpad, parseInt_digits.
  - rewrite timeSum_safe by assumption. f_equal. lia.
  - exact Hf.
  - destruct f; [simpl in Hlen; lia | reflexivity].
Qed.

Lemma parseTimeToMs_long_fragment_witness :
  JS.padEnd 3 "0" "01234" = "01234"
  /\ Double.parseTimeToMs "0'59.01234"
     = Double.Int (0 * 60000 + 59 * 1000 + 1234).
Proof.
  apply (proj1 parseTimeToMs_long_fragment "0'59.01234" "01234" 0 59);
    try reflexivity.
  - simpl. lia.
  - discriminate.
Defined.

(** ** Doubles at work *)

Section DoubleTests.

(** [String(n)] beyond the safe integers: the shortest digits, and
    exponent notation from [1e21] on. *)
Example test_toString :
  Double.toString (Double.Int (2 ^ 53)) = "9007199254740992"
  /\ Double.toString (Double.Int (2 ^ 60)) = "1152921504606847000"
  /\ Double.toString (Double.Int (2 ^ 64)) = "18446744073709552000"
  /\ Double.toString (Double.Int (10 ^ 20)) = "100000000000000000000"
  /\ Double.toString (Double.Int (10 ^ 21)) = "1e+21"
  /\ Double.toString (Double.Int (2 ^ 70)) = "1.1805916207174113e+21"
  /\ Double.toString (Double.Int (- 2 ^ 70)) = "-1.1805916207174113e+21"
  /\ Double.toString (Double.Int (-42)) = "-42".
Proof. repeat split; vm_compute; reflexivity. Qed.

(** Sums and products beyond the safe integers are rounded. *)
Example test_rounding :
  Double.roundInt 9007199254740993 = Double.Int 9007199254740992
  /\ Double.roundInt 9007199254740995 = Double.Int 9007199254740996
  /\ Double.parseTimeToMs "9007199254740993:00.001"
     = Double.Int 540431955284459520000
  /\ Double.parseTimeToMs "1:23.9007199254740993"
     = Double.Int 9007199254823992
  /\ Double.msToTimeString (Double.parseTimeToMs "9007199254740993:00.000")
     = "9007199254740992:00.000"
  /\ Double.floorQuotient 527765581332539968 60000 = 8796093022209
  /\ Double.msToTimeString (Double.Int (- 2 ^ 70))
     = "-19676527011956856:-4.-424"
  /\ Double.parseTimeToMs (Double.msToTimeString (Double.Int (- 2 ^ 70)))
     = Double.Int (- 2 ^ 70).
Proof. repeat split; vm_compute; reflexivity. Qed.

(** What is no number is written by name. *)
Example test_not_a_number :
  Double.msToTimeString Double.NaN = "NaN:NaN.NaN"
  /\ Double.msToTimeString (Double.Infinity false) = "Infinity:NaN.NaN".
Proof. repeat split. Qed.

(** The repository's test cases for the two helpers. *)
Example test_time_helpers :
  Double.parseTimeToMs "1:23.456" = Double.Int 83456
  /\ Double.parseTimeToMs "2:15.789" = Double.Int 135789
  /\ Double.parseTimeToMs "0:45.123" = Double.Int 45123
  /\ Double.parseTimeToMs "1'23.456" = Double.Int 83456
  /\ Double.parseTimeToMs "01:23.456" = Double.Int 83456
  /\ Double.parseTimeToMs "1" = Double.Int 0
  /\ Double.msToTimeString (Double.Int 135789) = "2:15.789"
  /\ Double.msToTimeString (Double.Int 45123) = "0:45.123"
  /\ Double.msToTimeString (Double.Int 123456) = "2:03.456"
  /\ Double.msToTimeString (Double.parseTimeToMs "1:23.456") = "1:23.456".
Proof. repeat split. Qed.

End DoubleTests.


(** * Further properties of the lookup helpers *)

(** ** More on [getCategoryId] *)

(** Every character below U+0100, one by one. *)
Ltac each_char c := destruct c as [[] [] [] [] [] [] [] []].

Section CategoryNames.

Lemma upperOf_upperOf (c : ascii) : JS.toUpperCase (JS.upperOf c) = JS.upperOf c.
Proof.
  each_char c; reflexivity.
Qed.

Lemma upperOf_lowerOf (c : ascii) : JS.upperOf (JS.lowerOf c) = JS.upperOf c.
Proof.
  each_char c; reflexivity.
Qed.

Lemma upperOf_ignored (c : ascii) :
  JS.isDigit c || JS.isUpper c || Spec.isLower c || (JS.code c =? 223) = false ->
  JS.removeOutside JS.isUpperOrDigit (JS.upperOf c) = EmptyString.
Proof.
  each_char c; cbv; intros H; first [reflexivity | discriminate H].
Qed.

Lemma toUpperCase_idempotent (s : string) :
  JS.toUpperCase (JS.toUpperCase s) = JS.toUpperCase s.
Proof.
  induction s as [| c s IH]; cbn [JS.toUpperCase]; [reflexivity |].
  now rewrite toUpperCase_append, upperOf_upperOf, IH.
Qed.

Lemma toUpperCase_toLowerCase (s : string) :
  JS.toUpperCase (JS.toLowerCase s) = JS.toUpperCase s.
Proof.
  induction s as [| c s IH]; cbn [JS.toUpperCase JS.toLowerCase];
    [reflexivity |].
  now rewrite upperOf_lowerOf, IH.
Qed.

End CategoryNames.

(** X7.  On names whose code units are all in U+0000..U+00FF, the
    strings of this model, [getCategoryId] looks at letters and digits
    only and not at their case: a character of that range that is neither
    an ASCII letter or digit nor the sharp s U+00DF, put anywhere into the
    name, changes nothing, and neither does writing the name in upper or
    in lower case.  The sharp s does count: it becomes [SS]. *)
Theorem getCategoryId_insensitive :
  (forall (front back : string) (c : ascii),
      JS.isDigit c = false -> JS.isUpper c = false -> Spec.isLower c = false ->
      JS.code c <> 223 ->
      Helpers.getCategoryId (front ++ String c back)
      = Helpers.getCategoryId (front ++ back))
  /\ (forall categoryName : string,
         Helpers.getCategoryId (JS.toUpperCase categoryName)
         = Helpers.getCategoryId categoryName)
  /\ (forall categoryName : string,
         Helpers.getCategoryId (JS.toLowerCase categoryName)
         = Helpers.getCategoryId categoryName)
  /\ Helpers.getCategoryId "motogp" = Some Helpers.CATEGORY_IDS.MOTOGP
  /\ Helpers.getCategoryId ("moto" ++ String (ascii_of_N 223) "gp") = None.
Proof.
  split; [| split; [| split; [| split; reflexivity]]].
  - intros front back c Hd Hu Hl Hs. unfold Helpers.getCategoryId.
    rewrite normalizedName_ignores; [reflexivity |].
    apply upperOf_ignored. rewrite Hd, Hu, Hl. cbn [orb].
    now apply Z.eqb_neq.
  - intros categoryName. unfold Helpers.getCategoryId, Helpers.normalizedName.
    now rewrite toUpperCase_idempotent.
  - intros categoryName. unfold Helpers.getCategoryId, Helpers.normalizedName.
    now rewrite toUpperCase_toLowerCase.
Qed.

Lemma getCategoryId_insensitive_witness :
  Helpers.getCategoryId ("moto" ++ String "-" "2")
  = Helpers.getCategoryId ("moto" ++ "2").
Proof.
  apply (proj1 getCategoryId_insensitive "moto" "2" "-"%char);
    try reflexivity.
  discriminate.
Defined.


(** ** [findCategoryByName] *)

Section Search.

Lemma startsWith_prefix (p s : string) :
  JS.startsWith p s = true <-> exists post : string, s = p ++ post.
Proof.
  revert s. induction p as [| a p IH]; intros s; cbn [JS.startsWith append].
  - split; [intros _; now exists s | reflexivity].
  - destruct s as [| b s].
    + split; [discriminate | intros (post & H); discriminate H].
    + rewrite andb_true_iff, IH. split.
      * intros [Hab (post & ->)]. apply Ascii.eqb_eq in Hab as ->.
        now exists post.
      * intros (post & [= -> ->]). rewrite Ascii.eqb_refl. eauto.
Qed.

(** [includes] is the substring test. *)
Lemma includes_substring (needle s : string) :
  JS.includes needle s = true <-> Spec.substring needle s.
Proof.
  unfold Spec.substring.
  induction s as [| c s IH]; cbn [JS.includes].
  - rewrite orb_false_r, startsWith_prefix. split.
    + intros (post & ->). now exists EmptyString, post.
    + intros (pre & post & H). destruct pre as [| a pre]; [| discriminate H].
      now exists post.
  - rewrite orb_true_iff, startsWith_prefix, IH. split.
    + intros [(post & ->) | (pre & post & ->)].
      * now exists EmptyString, post.
      * now exists (String c pre), post.
    + intros (pre & post & H). destruct pre as [| a pre].
      * left. now exists post.
      * right. cbn [append] in H. injection H as -> ->. now exists pre, post.
Qed.

Lemma categoryMatches_hit (name : string) (cat : Helpers.Category) :
  Helpers.categoryMatches (JS.toLowerCase name) cat = true
  <-> Spec.categoryHit name cat.
Proof.
  unfold Helpers.categoryMatches, Spec.categoryHit.
  rewrite orb_true_iff, includes_substring.
  destruct (Helpers.acronym cat) as [a |].
  - rewrite includes_substring. split.
    + intros [H | H]; [now left | right; now exists a].
    + intros [H | (a' & [= <-] & H)]; [now left | now right].
  - split.
    + intros [H | H]; [now left | discriminate].
    + intros [H | (a' & H & _)]; [now left | discriminate].
Qed.

(** [find] returns the first element that passes, and nothing when none
    does. *)
Lemma find_first {A : Type} (f : A -> bool) (l : list A) (x : A) :
  find f l = Some x
  <-> exists before after : list A,
        l = (before ++ x :: after)%list /\ f x = true
        /\ forall y, In y before -> f y = false.
Proof.
  induction l as [| a l IH]; cbn [find].
  - split; [discriminate |].
    intros (before & after & H & _). destruct before; discriminate H.
  - destruct (f a) eqn:Hfa.
    + split.
      * intros [= ->]. exists [], l. repeat split; [assumption |].
        intros y [].
      * intros (before & after & H & Hx & Hb).
        destruct before as [| b before].
        -- now injection H as ->.
        -- injection H as -> _. rewrite (Hb b (or_introl eq_refl)) in Hfa.
           discriminate.
    + rewrite IH. split.
      * intros (before & after & -> & Hx & Hb).
        exists (a :: before), after. repeat split; [assumption |].
        intros y [<- | Hy]; auto.
      * intros (before & after & H & Hx & Hb).
        destruct before as [| b before].
        -- injection H as -> _. congruence.
        -- injection H as -> ->. exists before, after.
           repeat split; [assumption |]. intros y Hy. apply Hb. now right.
Qed.

Lemma find_nothing {A : Type} (f : A -> bool) (l : list A) :
  find f l = None <-> forall y, In y l -> f y = false.
Proof.
  induction l as [| a l IH]; cbn [find In]; [tauto |].
  destruct (f a) eqn:Hfa.
  - split; [discriminate |]. intros H.
    rewrite (H a (or_introl eq_refl)) in Hfa. discriminate.
  - rewrite IH. split.
    + intros H y [<- | Hy]; auto.
    + intros H y Hy. apply H. now right.
Qed.

Lemma includes_empty (s : string) : JS.includes EmptyString s = true.
Proof.
  destruct s; reflexivity.
Qed.

Lemma lowerOf_upperOf_ascii (c : ascii) :
  Spec.asciiChar c = true ->
  JS.toLowerCase (JS.upperOf c) = String (JS.lowerOf c) EmptyString.
Proof.
  each_char c; cbv; intros H; first [reflexivity | discriminate H].
Qed.

Lemma toLowerCase_append (s t : string) :
  JS.toLowerCase (s ++ t) = JS.toLowerCase s ++ JS.toLowerCase t.
Proof.
  induction s as [| c s IH]; cbn [JS.toLowerCase append];
    [reflexivity | now rewrite IH].
Qed.

Lemma toLowerCase_toUpperCase_ascii (s : string) :
  JS.forallb Spec.asciiChar s = true ->
  JS.toLowerCase (JS.toUpperCase s) = JS.toLowerCase s.
Proof.
  induction s as [| c s IH]; cbn [JS.forallb JS.toUpperCase JS.toLowerCase];
    [reflexivity |].
  rewrite andb_true_iff. intros [Hc Hs].
  rewrite toLowerCase_append, lowerOf_upperOf_ascii, IH by assumption.
  reflexivity.
Qed.

End Search.

(** X8.  [findCategoryByName] returns the first category, in the order of
    the list, whose lower-cased name or acronym contains the lower-cased
    search string, and nothing exactly when no category does. *)
Theorem findCategoryByName_first
  (categories : list Helpers.Category) (name : string) :
  (forall cat : Helpers.Category,
      Helpers.findCategoryByName categories name = Some cat
      <-> exists before after : list Helpers.Category,
            categories = (before ++ cat :: after)%list
            /\ Spec.categoryHit name cat
            /\ forall c, In c before -> ~ Spec.categoryHit name c)
  /\ (Helpers.findCategoryByName categories name = None
      <-> forall c, In c categories -> ~ Spec.categoryHit name c).
Proof.
  unfold Helpers.findCategoryByName. split.
  - intros cat. rewrite find_first. split.
    + intros (before & after & H & Hx & Hb). exists before, after.
      repeat split; [assumption | now apply categoryMatches_hit |].
      intros c Hc Hhit. apply categoryMatches_hit in Hhit.
      rewrite (Hb c Hc) in Hhit. discriminate.
    + intros (before & after & H & Hx & Hb). exists before, after.
      repeat split; [assumption | now apply categoryMatches_hit |].
      intros c Hc. apply not_true_is_false. intros Hm.
      apply (Hb c Hc). now apply categoryMatches_hit.
  - rewrite find_nothing. split.
    + intros H c Hc Hhit. apply categoryMatches_hit in Hhit.
      rewrite (H c Hc) in Hhit. discriminate.
    + intros H c Hc. apply not_true_is_false. intros Hm.
      apply (H c Hc). now apply categoryMatches_hit.
Qed.

(** X9.  The empty search string is contained in every name: it finds the
    first category of the list, whatever that is, and nothing only in the
    empty list. *)
Theorem findCategoryByName_empty (categories : list Helpers.Category) :
  Helpers.findCategoryByName categories "" = hd_error categories.
Proof.
  destruct categories as [| cat rest]; [reflexivity |].
  unfold Helpers.findCategoryByName. cbn [JS.toLowerCase find hd_error].
  unfold Helpers.categoryMatches. now rewrite includes_empty.
Qed.

(** X10.  The case of the search string does not matter: an ASCII search
    string finds the same category written in upper case, and any search
    string the same written in lower case. *)
Theorem findCategoryByName_case
  (categories : list Helpers.Category) (name : string) :
  (JS.forallb Spec.asciiChar name = true ->
   Helpers.findCategoryByName categories (JS.toUpperCase name)
   = Helpers.findCategoryByName categories name)
  /\ Helpers.findCategoryByName categories (JS.toLowerCase name)
     = Helpers.findCategoryByName categories name.
Proof.
  unfold Helpers.findCategoryByName. split.
  - intros Hname. now rewrite toLowerCase_toUpperCase_ascii.
  - f_equal. f_equal.
    induction name as [| c name IH]; cbn [JS.toLowerCase]; [reflexivity |].
    rewrite IH. f_equal. each_char c; reflexivity.
Qed.

Lemma findCategoryByName_case_witness :
  Helpers.findCategoryByName
    [Helpers.mkCategory "1" "MotoGP" 1 (Some "MOT") None None None;
     Helpers.mkCategory "2" "Moto2" 2 (Some "MO2") None None None]
    (JS.toUpperCase "mo2")
  = Helpers.findCategoryByName
      [Helpers.mkCategory "1" "MotoGP" 1 (Some "MOT") None None None;
       Helpers.mkCategory "2" "Moto2" 2 (Some "MO2") None None None]
      "mo2".
Proof.
  exact (proj1 (findCategoryByName_case _ "mo2") eq_refl).
Defined.

(** ** [isValidSeasonYear] *)

(** X11.  The valid years are those from 2000 to the year after the one the
    clock shows, so the answer moves with the clock: a year once valid
    stays valid as time goes on, the current year is valid only from 2000
    on and the next year only from 1999 on, and the year after next never
    is. *)
Theorem isValidSeasonYear_clock (clockYear later year : Z) :
  (clockYear <= later ->
   Helpers.isValidSeasonYear clockYear year = true ->
   Helpers.isValidSeasonYear later year = true)
  /\ (Helpers.isValidSeasonYear clockYear (Helpers.getCurrentYear clockYear) = true
      <-> 2000 <= clockYear)
  /\ (Helpers.isValidSeasonYear clockYear (Helpers.getCurrentYear clockYear + 1)
      = true <-> 1999 <= clockYear)
  /\ Helpers.isValidSeasonYear clockYear (Helpers.getCurrentYear clockYear + 2)
     = false
  /\ (Helpers.isValidSeasonYear clockYear year = true
      <-> 2000 <= year <= clockYear + 1).
Proof.
  unfold Helpers.isValidSeasonYear, Helpers.getCurrentYear.
  rewrite !andb_true_iff, !Z.leb_le, andb_false_iff, !Z.leb_gt.
  repeat split; intros; lia.
Qed.

Lemma isValidSeasonYear_clock_witness :
  Helpers.isValidSeasonYear 2031 2026 = true.
Proof.
  apply (proj1 (isValidSeasonYear_clock 2025 2031 2026)); [lia | reflexivity].
Defined.

(** ** The constructor *)

(** X12.  Whatever the options, the client's configuration holds no falsy
    value: the base URL and the User-Agent are not empty and the timeout is
    not 0 (it may be negative, no option is checked for its range); a
    client built from the configuration of a client is the same client. *)
Theorem constructor_never_falsy (options : option Client.ClientOptions) :
  let client := Client.constructor options in
  Client.baseURL client <> ""
  /\ Client.timeout client <> 0
  /\ Client.userAgent client <> ""
  /\ Client.constructor
       (Some (Client.mkClientOptions (Some (Client.baseURL client))
                (Some (Client.timeout client))
                (Some (Client.userAgent client))))
     = client.
Proof.
  assert (Hs : forall a b, b <> "" ->
               Client.stringOr a b <> ""
               /\ Client.stringOr (Some (Client.stringOr a b)) b
                  = Client.stringOr a b).
  { intros a b Hb.
    assert (Hbb : Client.stringOr (Some b) b = b)
      by (cbn [Client.stringOr]; destruct b; [contradiction | reflexivity]).
    destruct a as [[| c s] |]; cbn [Client.stringOr JS.isEmpty].
    - split; assumption.
    - split; [discriminate | reflexivity].
    - split; assumption. }
  assert (Hn : forall a b, b <> 0 ->
               Client.numberOr a b <> 0
               /\ Client.numberOr (Some (Client.numberOr a b)) b
                  = Client.numberOr a b).
  { intros [n |] b Hb; cbn [Client.numberOr].
    - destruct (Z.eqb_spec n 0) as [-> | Hnz].
      + split; [assumption |]. destruct (Z.eqb_spec b 0); [contradiction | reflexivity].
      + split; [assumption |]. destruct (Z.eqb_spec n 0); [contradiction | reflexivity].
    - split; [assumption |]. destruct (Z.eqb_spec b 0); [contradiction | reflexivity]. }
  cbv zeta. unfold Client.constructor.
  cbn [Client.baseURL Client.timeout Client.userAgent Client.options_baseURL
         Client.options_timeout Client.options_userAgent].
  set (o := match options with Some o => o | None => Client.noOptions end).
  destruct (Hs (Client.options_baseURL o) Client.DEFAULT_BASE_URL ltac:(discriminate))
    as [Hb1 Hb2].
  destruct (Hs (Client.options_userAgent o) Client.DEFAULT_USER_AGENT
              ltac:(discriminate)) as [Hu1 Hu2].
  destruct (Hn (Client.options_timeout o) Client.DEFAULT_TIMEOUT ltac:(discriminate))
    as [Ht1 Ht2].
  repeat split; try assumption.
  now rewrite Hb2, Hu2, Ht2.
Qed.

(** * Further properties of the client *)

(** ** One call, one request *)

Section Calls.

Variable newURL : string -> string -> Client.Completion Client.URL.
Variable network : nat -> Client.RequestOptions -> Client.RequestOutcome.

(** Whatever the network answers, the world after the call is the world
    with one line logged and one request sent. *)
Lemma makeRequest_world
  (self : Client.MotoGPClient) (endpoint : string)
  (searchParams : option (list (string * Client.ParamValue)))
  (w : Client.World) (url0 : Client.URL) :
  newURL endpoint (Client.baseURL self) = Client.Returned url0 ->
  snd (Client.makeRequest newURL network self endpoint searchParams w)
  = ClientSpec.afterRequest self
      (Client.applySearchParams url0 searchParams) w.
Proof.
  intros Hurl.
  rewrite (makeRequest_run newURL network self endpoint searchParams w url0 Hurl).
  cbv zeta.
  destruct (network _ _) as [error | statusCode body];
    [| destruct (statusCode =? 200); [destruct body |]];
    rewrite ?normalizeError_description; reflexivity.
Qed.

Lemma description_hasProperty (error : Client.JsValue) :
  Client.hasProperty "message"
    (match ClientSpec.description error with
     | Some _ => error
     | None =>
         Client.JsObject false
           [("message", Client.JsString "Unknown error occurred")]
     end) = true.
Proof.
  destruct error as [| | b | n | s | items | isError props]; try reflexivity.
  cbn [ClientSpec.description Client.hasProperty].
  destruct (Client.assoc "message" props) eqn:Hm.
  - cbn [Client.hasProperty]. now rewrite Hm.
  - destruct isError; [| reflexivity].
    cbn [Client.hasProperty]. now rewrite Hm.
Qed.

End Calls.

(** X13.  When the URL cannot be built, that is, [new URL] throws,
    [makeRequest] fails with what was thrown as it is, outside the [catch]
    clause: nothing is logged and no request is sent. *)
Theorem makeRequest_invalid_url
  (newURL : string -> string -> Client.Completion Client.URL)
  (network : nat -> Client.RequestOptions -> Client.RequestOutcome)
  (self : Client.MotoGPClient) (endpoint : string)
  (searchParams : option (list (string * Client.ParamValue)))
  (w : Client.World) (error : Client.JsValue) :
  newURL endpoint (Client.baseURL self) = Client.Thrown error ->
  Client.makeRequest newURL network self endpoint searchParams w
  = (Client.Thrown error, w).
Proof.
  intros Hurl. unfold Client.makeRequest, Client.bind, Client.constructURL.
  now rewrite Hurl.
Qed.

Lemma makeRequest_invalid_url_witness :
  Client.makeRequest Example.rejectURL Example.unavailable
    (Client.constructor None) "riders" None Example.emptyWorld
  = (Client.Thrown Example.invalidURL, Example.emptyWorld).
Proof.
  exact (makeRequest_invalid_url Example.rejectURL Example.unavailable
           (Client.constructor None) "riders" None Example.emptyWorld
           Example.invalidURL eq_refl).
Defined.

(** X14.  A call whose URL could be built logs one line and sends one
    request, whatever comes back: a GET with the User-Agent of the client
    and [Accept: application/json], both timeouts the timeout of the
    client, for the URL with the parameters applied, and the line logged
    names that same URL. *)
Theorem makeRequest_one_request
  (newURL : string -> string -> Client.Completion Client.URL)
  (network : nat -> Client.RequestOptions -> Client.RequestOutcome)
  (self : Client.MotoGPClient) (endpoint : string)
  (searchParams : option (list (string * Client.ParamValue)))
  (w : Client.World) (url0 : Client.URL) :
  newURL endpoint (Client.baseURL self) = Client.Returned url0 ->
  let final :=
    snd (Client.makeRequest newURL network self endpoint searchParams w) in
  let href :=
    Client.URL_toString (Client.applySearchParams url0 searchParams) in
  Client.sent final
  = (Client.sent w
     ++ [Client.mkRequestOptions href "GET"
           [("User-Agent", Client.userAgent self);
            ("Accept", "application/json")]
           (Client.timeout self) (Client.timeout self)])%list
  /\ Client.console final
     = (Client.console w ++ [("Making request to: " ++ href)%string])%list.
Proof.
  intros Hurl final href. subst final.
  rewrite (makeRequest_world newURL network self endpoint searchParams w url0 Hurl).
  split; reflexivity.
Qed.

Lemma makeRequest_one_request_witness :
  Client.sent
    (snd (Client.makeRequest Example.joinURL Example.unreachable
            (Client.constructor None) "riders" None Example.emptyWorld))
  = [Client.mkRequestOptions
       "https://api.motogp.pulselive.com/motogp/v1/riders" "GET"
       [("User-Agent", Client.DEFAULT_USER_AGENT);
        ("Accept", "application/json")]
       10000 10000]
  /\ Client.console
       (snd (Client.makeRequest Example.joinURL Example.unreachable
               (Client.constructor None) "riders" None Example.emptyWorld))
     = ["Making request to: https://api.motogp.pulselive.com/motogp/v1/riders"].
Proof.
  exact (makeRequest_one_request Example.joinURL Example.unreachable
           (Client.constructor None) "riders" None Example.emptyWorld
           _ eq_refl).
Defined.

(** X15.  A call whose URL could be built returns exactly when the response
    has status 200 and its body decodes, and then returns the decoded body
    as it is; every other outcome is a failure whose error has a [message]
    for the caller to read. *)
Theorem makeRequest_outcome
  (newURL : string -> string -> Client.Completion Client.URL)
  (network : nat -> Client.RequestOptions -> Client.RequestOutcome)
  (self : Client.MotoGPClient) (endpoint : string)
  (searchParams : option (list (string * Client.ParamValue)))
  (w : Client.World) (url0 : Client.URL) :
  newURL endpoint (Client.baseURL self) = Client.Returned url0 ->
  let result :=
    fst (Client.makeRequest newURL network self endpoint searchParams w) in
  let answer :=
    network (List.length (Client.sent w))
      (Client.requestOptions self
         (Client.applySearchParams url0 searchParams)) in
  (forall data : Client.JsValue,
      result = Client.Returned data
      <-> answer = Client.Response 200 (Client.BodyJson data))
  /\ (forall error : Client.JsValue,
         result = Client.Thrown error ->
         Client.hasProperty "message" error = true).
Proof.
  intros Hurl result answer. subst result answer.
  rewrite (makeRequest_run newURL network self endpoint searchParams w url0 Hurl).
  cbv zeta.
  destruct (network _ _) as [thrown | statusCode body].
  - rewrite normalizeError_description. cbn [fst]. split.
    + intros data. split; discriminate.
    + intros error [= <-]. apply description_hasProperty.
  - destruct (Z.eqb_spec statusCode 200) as [-> | Hne].
    + destruct body as [decoded | thrown].
      * cbn [fst]. split.
        -- intros data. split; [now intros [= ->] | now intros [= ->]].
        -- discriminate.
      * rewrite normalizeError_description. cbn [fst]. split.
        -- intros data. split; discriminate.
        -- intros error [= <-]. apply description_hasProperty.
    + rewrite normalizeError_description. cbn [fst]. split.
      * intros data. split; [discriminate |]. intros [= H _]. contradiction.
      * intros error [= <-]. reflexivity.
Qed.

Lemma makeRequest_outcome_witness :
  Client.hasProperty "message" Example.connectTimeout = true.
Proof.
  exact (proj2 (makeRequest_outcome Example.joinURL Example.unreachable
                  (Client.constructor None) "riders" None Example.emptyWorld
                  _ eq_refl)
           Example.connectTimeout eq_refl).
Defined.

(** ** More on the query parameters *)

Section Occurrences.

Lemma occurrences_removeName (key name : string) (l : list (string * string)) :
  Spec.occurrences key (Client.removeName name l)
  = if String.eqb name key then O else Spec.occurrences key l.
Proof.
  unfold Spec.occurrences, Client.removeName.
  induction l as [| [k v] l IH]; cbn [filter fst].
  - now destruct (String.eqb name key).
  - destruct (String.eqb_spec k name) as [-> | Hk]; cbn [negb filter fst].
    + rewrite IH. destruct (String.eqb_spec name key); reflexivity.
    + destruct (String.eqb_spec k key) as [-> | Hkk]; cbn [List.length].
      * rewrite IH. destruct (String.eqb_spec name key); [congruence | reflexivity].
      * exact IH.
Qed.

(** [set] leaves the name once and the other names as often as before. *)
Lemma occurrences_setTuple (key name value : string)
  (l : list (string * string)) :
  Spec.occurrences key (Client.setTuple name value l)
  = if String.eqb name key then 1%nat else Spec.occurrences key l.
Proof.
  induction l as [| [k v] l IH]; cbn [Client.setTuple fst].
  - unfold Spec.occurrences. cbn [filter fst].
    destruct (String.eqb name key); reflexivity.
  - destruct (String.eqb_spec k name) as [-> | Hk].
    + pose proof (occurrences_removeName key name l) as Hrem.
      unfold Spec.occurrences in *. cbn [filter fst].
      destruct (String.eqb_spec name key); cbn [List.length]; now rewrite Hrem.
    + unfold Spec.occurrences in *. cbn [filter fst].
      destruct (String.eqb_spec k key) as [-> | Hkk]; cbn [List.length];
        rewrite IH; destruct (String.eqb_spec name key); congruence.
Qed.

Lemma occurrences_fold_setParam (key : string)
  (entries : list (string * Client.ParamValue)) (url : Client.URL) :
  NoDup (map fst entries) ->
  Spec.occurrences key
    (Client.searchParams (fold_left Client.setParam entries url))
  = match Client.assoc key entries with
    | Some value =>
        if Client.isDefined value then 1%nat
        else Spec.occurrences key (Client.searchParams url)
    | None => Spec.occurrences key (Client.searchParams url)
    end.
Proof.
  revert url. induction entries as [| [k v] entries IH]; intros url Hnd;
    [reflexivity |].
  cbn [map fst] in Hnd. inversion Hnd as [| ? ? Hk Hl]; subst.
  cbn [fold_left Client.assoc Client.setParam]. rewrite IH by assumption.
  destruct (String.eqb_spec k key) as [-> | Hne].
  - apply assoc_notin in Hk. rewrite Hk.
    destruct (Client.isDefined v); [| reflexivity].
    cbn [Client.searchParams_set Client.searchParams].
    now rewrite occurrences_setTuple, String.eqb_refl.
  - assert (Hsame :
              Spec.occurrences key
                (Client.searchParams
                   (if Client.isDefined v
                    then Client.searchParams_set k (Client.String_of v) url
                    else url))
              = Spec.occurrences key (Client.searchParams url)).
    { destruct (Client.isDefined v); [| reflexivity].
      cbn [Client.searchParams_set Client.searchParams].
      rewrite occurrences_setTuple.
      destruct (String.eqb_spec k key); [contradiction | reflexivity]. }
    now rewrite Hsame.
Qed.

End Occurrences.

(** X16.  A parameter of the map overrides what the endpoint's own query
    says under that name: however often the name stood in the URL, after
    the call it stands there once (with the value of the map, by C5), and
    every name the map does not set stands there as often as before. *)
Theorem applySearchParams_overrides
  (url : Client.URL) (entries : list (string * Client.ParamValue)) :
  NoDup (map fst entries) ->
  let url' := Client.applySearchParams url (Some entries) in
  (forall key value,
      In (key, value) entries -> Client.isDefined value = true ->
      Spec.occurrences key (Client.searchParams url') = 1%nat)
  /\ (forall key,
         ~ In key (map fst (ClientSpec.kept entries)) ->
         Spec.occurrences key (Client.searchParams url')
         = Spec.occurrences key (Client.searchParams url)).
Proof.
  intros Hnd url'. subst url'. cbn [Client.applySearchParams]. split.
  - intros key value Hin Hdef.
    now rewrite occurrences_fold_setParam, (assoc_in key value entries), Hdef.
  - intros key Hout. rewrite occurrences_fold_setParam by assumption.
    destruct (Client.assoc key entries) as [value |] eqn:Hassoc; [| reflexivity].
    destruct (Client.isDefined value) eqn:Hdef; [| reflexivity].
    exfalso. apply Hout. unfold ClientSpec.kept.
    clear Hout Hnd. induction entries as [| [k v] entries IH];
      [discriminate |].
    cbn [Client.assoc] in Hassoc. cbn [filter snd].
    destruct (String.eqb_spec k key) as [-> | Hne].
    + injection Hassoc as ->. rewrite Hdef. now left.
    + destruct (Client.isDefined v); [right |]; now apply IH.
Qed.

Lemma applySearchParams_overrides_witness :
  Spec.occurrences "test"
    (Client.searchParams
       (Client.applySearchParams
          (Client.mkURL "https://host/results" (Some "test=a&x=1&test=b") None
             [("test", "a"); ("x", "1"); ("test", "b")])
          (Some [("seasonYear", Client.PNumber 2024);
                 ("test", Client.PBoolean false)])))
  = 1%nat.
Proof.
  refine (proj1 (applySearchParams_overrides _
                   [("seasonYear", Client.PNumber 2024);
                    ("test", Client.PBoolean false)] _)
            "test" (Client.PBoolean false) _ eq_refl).
  - repeat constructor; cbn; intuition discriminate.
  - right; left; reflexivity.
Defined.

(** ** The query string *)

Section QueryString.

(** No encoded character brings a separator with it. *)
Lemma urlencoded_char_separators (c : ascii) :
  let e := String.concat EmptyString (map Client.urlencodedByte (Client.utf8Bytes c)) in
  Spec.count "=" e = O /\ Spec.count "&" e = O /\ Spec.count "#" e = O
  /\ Spec.count " " e = O.
Proof.
  each_char c; cbv; repeat split.
Qed.

Lemma urlencoded_separators (s : string) :
  Spec.count "=" (Client.urlencoded s) = O
  /\ Spec.count "&" (Client.urlencoded s) = O
  /\ Spec.count "#" (Client.urlencoded s) = O
  /\ Spec.count " " (Client.urlencoded s) = O.
Proof.
  induction s as [| c s (IH1 & IH2 & IH3 & IH4)]; cbn [Client.urlencoded];
    [repeat split |].
  destruct (urlencoded_char_separators c) as (H1 & H2 & H3 & H4).
  cbv zeta in *. rewrite !count_append, H1, H2, H3, H4, IH1, IH2, IH3, IH4.
  repeat split.
Qed.

Lemma urlencodedSerialize_cons (t : string * string) (l : list (string * string)) :
  Client.urlencodedSerialize (t :: l)
  = Client.urlencoded (fst t) ++ "=" ++ Client.urlencoded (snd t)
    ++ match l with
       | [] => EmptyString
       | _ :: _ => "&" ++ Client.urlencodedSerialize l
       end.
Proof.
  unfold Client.urlencodedSerialize. cbn [map String.concat].
  destruct l as [| t' l']; cbn [map].
  - now rewrite !append_nil_r.
  - now rewrite !append_assoc.
Qed.

(** One [=] for each tuple and one [&] between two tuples. *)
Lemma urlencodedSerialize_separators (l : list (string * string)) :
  Spec.count "=" (Client.urlencodedSerialize l) = List.length l
  /\ Spec.count "&" (Client.urlencodedSerialize l) = Nat.pred (List.length l)
  /\ Spec.count "#" (Client.urlencodedSerialize l) = O
  /\ Spec.count " " (Client.urlencodedSerialize l) = O.
Proof.
  induction l as [| t l (IH1 & IH2 & IH3 & IH4)]; [repeat split |].
  rewrite urlencodedSerialize_cons.
  destruct (urlencoded_separators (fst t)) as (N1 & N2 & N3 & N4).
  destruct (urlencoded_separators (snd t)) as (V1 & V2 & V3 & V4).
  rewrite !count_append, N1, N2, N3, N4, V1, V2, V3, V4.
  destruct l as [| t' l'].
  - repeat split.
  - rewrite !count_append, IH1, IH2, IH3, IH4. cbn [List.length Nat.pred].
    repeat split.
Qed.

(** Letters, digits and [*-._] are written as they are. *)
Lemma urlencoded_plain (s : string) :
  JS.forallb Spec.plainChar s = true -> Client.urlencoded s = s.
Proof.
  induction s as [| c s IH]; cbn [JS.forallb Client.urlencoded]; [reflexivity |].
  rewrite andb_true_iff. intros [Hc Hs]. rewrite IH by assumption.
  assert (Hone : String.concat EmptyString
                   (map Client.urlencodedByte (Client.utf8Bytes c))
                 = String c EmptyString).
  { revert Hc. clear. each_char c; cbv; intros H;
      first [reflexivity | discriminate H]. }
  now rewrite Hone.
Qed.

(** A number, signed or not, is written as it is. *)
Lemma urlencoded_toString (n : Z) :
  Client.urlencoded (JS.toString n) = JS.toString n.
Proof.
  apply urlencoded_plain.
  assert (Hd : forall k, 0 <= k ->
               JS.forallb Spec.plainChar (JS.decimal k) = true).
  { intros k Hk. apply (forallb_impl JS.isDigit); [| now apply decimal_digits].
    intros c Hc. apply isDigit_code in Hc. unfold Spec.plainChar.
    destruct (Z.leb_spec 48 (JS.code c)), (Z.leb_spec (JS.code c) 57);
      (reflexivity || lia). }
  unfold JS.toString. destruct (Z.ltb_spec n 0).
  - cbn [JS.forallb]. rewrite Hd by lia. reflexivity.
  - now apply Hd.
Qed.

End QueryString.

(** X17.  On a URL that had no query, the query string built from a map
    has one [=] for each entry kept and one [&] between two of them, and
    neither [#] nor a space: whatever a name or a value contains is
    escaped and cannot add a parameter or end the query. *)
Theorem applySearchParams_escapes
  (url : Client.URL) (entries : list (string * Client.ParamValue)) :
  NoDup (map fst entries) ->
  Client.searchParams url = [] ->
  ClientSpec.kept entries <> [] ->
  exists q : string,
    Client.query (Client.applySearchParams url (Some entries)) = Some q
    /\ Spec.count "=" q = List.length (ClientSpec.kept entries)
    /\ Spec.count "&" q = Nat.pred (List.length (ClientSpec.kept entries))
    /\ Spec.count "#" q = O
    /\ Spec.count " " q = O.
Proof.
  intros Hnd Hempty Hkept. cbn [Client.applySearchParams].
  rewrite fold_setParam_query by (right; exact Hkept).
  rewrite searchParams_fold_setParam, Hempty;
    [| assumption | intros key _; now rewrite Hempty].
  cbn [app]. eexists. split; [reflexivity |].
  destruct (urlencodedSerialize_separators
              (map ClientSpec.tupleOf (ClientSpec.kept entries)))
    as (H1 & H2 & H3 & H4).
  rewrite length_map in H1, H2. auto.
Qed.

Lemma applySearchParams_escapes_witness :
  exists q : string,
    Client.query
      (Client.applySearchParams
         (Client.mkURL "https://host/results/events" None None [])
         (Some [("seasonUuid", Client.PString "a&b=c #d")]))
    = Some q
    /\ Spec.count "=" q = 1%nat
    /\ Spec.count "&" q = O
    /\ Spec.count "#" q = O
    /\ Spec.count " " q = O.
Proof.
  refine (applySearchParams_escapes
            (Client.mkURL "https://host/results/events" None None [])
            [("seasonUuid", Client.PString "a&b=c #d")] _ eq_refl _).
  - repeat constructor. intros [].
  - discriminate.
Defined.

(** ** The endpoint methods *)

(** X18.  [getTeams] asks for the URL of the [teams] endpoint followed by
    [?categoryUuid=...&seasonYear=...], in this order; a category
    identifier made of letters, digits and hyphens, as the four
    [CATEGORY_IDS] are, stands there as it is, and so does a year that is
    a safe integer, as its decimal numeral. *)
Theorem getTeams_url
  (newURL : string -> string -> Client.Completion Client.URL)
  (network : nat -> Client.RequestOptions -> Client.RequestOutcome)
  (self : Client.MotoGPClient) (categoryUuid : string) (seasonYear : Z)
  (w : Client.World) (url0 : Client.URL) :
  newURL "teams" (Client.baseURL self) = Client.Returned url0 ->
  Client.searchParams url0 = [] ->
  JS.forallb Spec.plainChar categoryUuid = true ->
  Z.abs seasonYear <= Double.MAX_SAFE_INTEGER ->
  (exists options : Client.RequestOptions,
      Client.sent
        (snd (Client.getTeams newURL network self categoryUuid seasonYear w))
      = (Client.sent w ++ [options])%list
      /\ Client.request_url options
         = Client.beforeQuery url0
           ++ "?categoryUuid=" ++ categoryUuid
           ++ "&seasonYear=" ++ Double.toString (Double.Int seasonYear)
           ++ match Client.fragment url0 with
              | Some f => String "#" f
              | None => EmptyString
              end)
  /\ Double.toString (Double.Int seasonYear)
     = (if seasonYear <? 0 then "-" else "") ++ JS.decimal (Z.abs seasonYear).
Proof.
  intros Hurl Hempty Hplain Hsafe.
  assert (Hyear : Double.toString (Double.Int seasonYear)
                  = JS.toString seasonYear) by now apply toString_safe.
  split.
  - unfold Client.getTeams.
    rewrite (makeRequest_world newURL network self "teams" _ w url0 Hurl).
    eexists. split; [reflexivity |].
    cbn [Client.request_url Client.requestOptions Client.applySearchParams
           fold_left Client.setParam Client.isDefined Client.String_of].
    unfold Client.URL_toString.
    cbn [Client.searchParams_set Client.searchParams Client.query
           Client.beforeQuery Client.fragment].
    rewrite Hempty. cbn [Client.setTuple fst].
    change (String.eqb "categoryUuid" "seasonYear") with false. cbv iota.
    cbn [Client.setTuple].
    rewrite urlencodedSerialize_nonempty.
    rewrite !urlencodedSerialize_cons. cbn [fst snd].
    rewrite (urlencoded_plain "categoryUuid"), (urlencoded_plain "seasonYear")
      by reflexivity.
    rewrite urlencoded_plain, urlencoded_toString by assumption.
    rewrite Hyear.
    cbn [append]. rewrite !append_assoc. cbn [append].
    rewrite append_nil_r. reflexivity.
  - rewrite Hyear. unfold JS.toString.
    destruct (Z.ltb_spec seasonYear 0).
    + rewrite Z.abs_neq by lia. reflexivity.
    + rewrite Z.abs_eq by lia. reflexivity.
Qed.

Lemma getTeams_url_witness :
  Z.abs 2023 <= Double.MAX_SAFE_INTEGER
  /\ exists options : Client.RequestOptions,
       Client.sent
         (snd (Client.getTeams Example.joinURL Example.unavailable
                 (Client.constructor None) Helpers.CATEGORY_IDS.MOTO3 2023
                 Example.emptyWorld))
       = ([] ++ [options])%list
       /\ Client.request_url options
          = "https://api.motogp.pulselive.com/motogp/v1/teams"
            ++ "?categoryUuid=" ++ Helpers.CATEGORY_IDS.MOTO3
            ++ "&seasonYear=" ++ "2023" ++ "".
Proof.
  assert (Hsafe : Z.abs 2023 <= Double.MAX_SAFE_INTEGER) by discriminate.
  split; [exact Hsafe |].
  exact (proj1 (getTeams_url Example.joinURL Example.unavailable
                  (Client.constructor None) Helpers.CATEGORY_IDS.MOTO3 2023
                  Example.emptyWorld _ eq_refl eq_refl eq_refl Hsafe)).
Defined.



